(** * DL7480CTL: the Yokogawa DL74x0 controller, embedded and verified

    A shallow embedding of [DL7480CTL.py]: the session class
    [YokogawaDL7480] (discovery, image capture, configuration read-out,
    the command chunker [splitInst], [setconfig], [closeinst]) and the
    save/load/undo operations of the [Gui] class.

    Python objects become records, methods become computations in a
    state-and-exception monad, the VISA instrument behind a handle is a
    scripted device (queued reply bytes, an oracle for query replies and
    a script of write outcomes), and the working directory is a finite
    map from file names to their text. *)

From Stdlib Require Import ZArith List Ascii String Lia Bool.
From Stdlib Require Import Strings.Byte DecimalString.
From stdpp Require Import gmap strings list fin_maps.
Import ListNotations.
Open Scope Z_scope.

(** ** Python values *)

Module Py.

(** [str] is Python's text type, [bytes] its byte-string type. The
    characters of a [str] are the code points below 256, which covers
    what the instrument sends and the program writes. *)
Abbreviation str := (list ascii).
Abbreviation bytes := (list byte).

Definition lit (s : string) : str := list_ascii_of_string s.
Definition nl : ascii := "010"%char.
Definition dq : ascii := "034"%char.

#[global] Instance byte_eq_decision : EqDecision byte := byte_eq_dec.

(** A value that is either [bytes] or [str]; [==] between the two kinds
    is [False] in Python 3, whatever they hold. *)
Inductive pyobj :=
| PyBytes (b : bytes)
| PyStr (s : str).

Definition py_eq (x y : pyobj) : bool :=
  match x, y with
  | PyBytes a, PyBytes b => bool_decide (a = b)
  | PyStr a, PyStr b => bool_decide (a = b)
  | _, _ => false
  end.

(** *** Exceptions and the state-and-exception monad *)

Inductive exn := VisaIOError | ValueError | AttributeError.

Inductive outcome (A : Type) :=
| Val (a : A)
| Exc (e : exn).
Arguments Val {A} a.
Arguments Exc {A} e.

Definition M (St A : Type) : Type := St -> outcome A * St.

Definition ret {St A} (a : A) : M St A := fun s => (Val a, s).

Definition bind {St A B} (m : M St A) (k : A -> M St B) : M St B :=
  fun s => match m s with
           | (Val a, s') => k a s'
           | (Exc e, s') => (Exc e, s')
           end.

Definition raise {St A} (e : exn) : M St A := fun s => (Exc e, s).
Definition get {St} : M St St := fun s => (Val s, s).
Definition put {St} (s : St) : M St unit := fun _ => (Val tt, s).
Definition modify {St} (f : St -> St) : M St unit := fun s => (Val tt, f s).

(** [try: body except ...:]; [handler e] is [None] when no clause
    catches [e], which then propagates. *)
Definition try_except {St A} (body : M St A) (handler : exn -> option (M St A)) : M St A :=
  fun s => match body s with
           | (Val a, s') => (Val a, s')
           | (Exc e, s') => match handler e with
                            | Some h => h s'
                            | None => (Exc e, s')
                            end
           end.

Definition of_outcome {St A} (o : outcome A) : M St A := fun s => (o, s).

(** *** str methods *)

Definition in_chars (cs : list ascii) (c : ascii) : bool := existsb (Ascii.eqb c) cs.

Fixpoint lstrip_by (p : ascii -> bool) (s : str) : str :=
  match s with
  | [] => []
  | c :: t => if p c then lstrip_by p t else s
  end.

Definition rstrip_by (p : ascii -> bool) (s : str) : str := rev (lstrip_by p (rev s)).
Definition strip_by (p : ascii -> bool) (s : str) : str := rstrip_by p (lstrip_by p s).

(** [s.strip(chars)] *)
Definition strip_chars (cs : str) (s : str) : str := strip_by (in_chars cs) s.

(** The code points below 256 for which [str.isspace] holds. *)
Definition isspace (c : ascii) : bool :=
  let n := N_of_ascii c in
  ((9 <=? n) && (n <=? 13) || (28 <=? n) && (n <=? 32) || (n =? 133) || (n =? 160))%N.

(** [s.strip()] *)
Definition strip (s : str) : str := strip_by isspace s.

(** [s.upper()] on the ASCII letters. *)
Definition upper_char (c : ascii) : ascii :=
  let n := N_of_ascii c in
  if ((97 <=? n) && (n <=? 122))%N then ascii_of_N (n - 32) else c.
Definition upper (s : str) : str := map upper_char s.

Fixpoint startswith (p s : str) : bool :=
  match p, s with
  | [], _ => true
  | a :: p', b :: s' => Ascii.eqb a b && startswith p' s'
  | _ :: _, [] => false
  end.

(** [needle in hay] *)
Fixpoint contains (needle hay : str) : bool :=
  startswith needle hay ||
  match hay with
  | [] => false
  | _ :: t => contains needle t
  end.

(** [str(n)] for an int. *)
Definition str_of_Z (n : Z) : str := lit (NilZero.string_of_int (Z.to_int n)).

(** Lines of a text as iterating over a file yields them: each keeps
    its newline. *)
Fixpoint lines_from (cur : str) (s : str) : list str :=
  match s with
  | [] => match cur with [] => [] | _ => [rev cur] end
  | c :: t => if Ascii.eqb c nl then rev (c :: cur) :: lines_from [] t
              else lines_from (c :: cur) t
  end.
Definition lines (s : str) : list str := lines_from [] s.

(** *** [int(b)] for a bytes object

    Leading and trailing ASCII white space is skipped, one sign is
    allowed, digits may be grouped by single underscores; anything else
    is a ValueError. *)

Definition b_isspace (b : byte) : bool :=
  let n := Byte.to_N b in ((9 <=? n) && (n <=? 13) || (n =? 32))%N.
Definition b_isdigit (b : byte) : bool :=
  let n := Byte.to_N b in ((48 <=? n) && (n <=? 57))%N.
Definition b_digit (b : byte) : Z := Z.of_N (Byte.to_N b) - 48.
Definition b_underscore (b : byte) : bool := (Byte.to_N b =? 95)%N.

Fixpoint span_by (p : byte -> bool) (l : bytes) : bytes * bytes :=
  match l with
  | [] => ([], [])
  | b :: t => if p b then let '(a, r) := span_by p t in (b :: a, r) else ([], l)
  end.

(** No underscore first, last, or next to another one. *)
Fixpoint grouping_ok (prev_us : bool) (l : bytes) : bool :=
  match l with
  | [] => negb prev_us
  | b :: t => if b_underscore b then negb prev_us && grouping_ok true t
              else grouping_ok false t
  end.

Definition digits_value (l : bytes) : Z :=
  fold_left (fun acc b => if b_underscore b then acc else acc * 10 + b_digit b) l 0.

Definition int_of_bytes (b : bytes) : outcome Z :=
  let b1 := snd (span_by b_isspace b) in
  let '(neg, b2) :=
    match b1 with
    | c :: t => if (Byte.to_N c =? 45)%N then (true, t)
                else if (Byte.to_N c =? 43)%N then (false, t)
                else (false, b1)
    | [] => (false, b1)
    end in
  let '(ds, rest) := span_by (fun c => b_isdigit c || b_underscore c) b2 in
  match ds with
  | [] => Exc ValueError
  | _ :: _ =>
      if grouping_ok true ds && forallb b_isspace rest
      then Val (if neg then - digits_value ds else digits_value ds)
      else Exc ValueError
  end.

End Py.

Export Py.

Declare Scope monad_scope.
Delimit Scope monad_scope with monad.
Notation "x <- c ;; k" := (bind c (fun x => k))
  (at level 100, c at next level, right associativity) : monad_scope.
Notation "c ;; k" := (bind c (fun _ => k))
  (at level 100, right associativity) : monad_scope.
Open Scope monad_scope.

(** ** The regular expressions of the source *)

Module Re.

(** One position of a pattern's literal head: a character, [\d], or a
    class such as [[56]]. *)
Inductive atom :=
| Lit (c : ascii)
| Digit
| OneOf (cs : list ascii).

Definition atom_ok (a : atom) (c : ascii) : bool :=
  match a with
  | Lit x => Ascii.eqb x c
  | Digit => let n := N_of_ascii c in ((48 <=? n) && (n <=? 57))%N
  | OneOf cs => in_chars cs c
  end.

Definition lits (s : string) : list atom := map Lit (lit s).

(** The atoms matched at the head of [s]: what follows them. *)
Fixpoint match_atoms (p : list atom) (s : str) : option str :=
  match p, s with
  | [], _ => Some s
  | a :: p', c :: s' => if atom_ok a c then match_atoms p' s' else None
  | _ :: _, [] => None
  end.

(** [re.match(p, s) != None] for a pattern that is a run of atoms. *)
Definition re_match (p : list atom) (s : str) : bool :=
  match match_atoms p s with Some _ => true | None => false end.

(** [.] matches everything but a newline. *)
Definition dot (c : ascii) : bool := negb (Ascii.eqb c nl).

(** [.*?;[:\n]] at the head of [s], lazily: the number of characters
    of the shortest match. *)
Fixpoint lazy_close (s : str) : option nat :=
  match s with
  | [] => None
  | c :: t =>
      if Ascii.eqb c ";" && match t with d :: _ => in_chars [":"%char; nl] d | [] => false end
      then Some 2%nat
      else if dot c then option_map S (lazy_close t) else None
  end.

(** [p.+?;[:\n]] at the head of [s]: the length of the match. *)
Definition match_len (p : list atom) (s : str) : option nat :=
  match match_atoms p s with
  | Some (c :: t) =>
      if dot c then option_map (fun n => (length p + 1 + n)%nat) (lazy_close t) else None
  | _ => None
  end.

Fixpoint sub_from (p : list atom) (repl : str) (skip : nat) (s : str) : str :=
  match s with
  | [] => []
  | c :: t =>
      match skip with
      | S k => sub_from p repl k t
      | O => match match_len p s with
             | Some n => repl ++ sub_from p repl (Nat.pred n) t
             | None => c :: sub_from p repl 0 t
             end
      end
  end.

(** [re.sub(r'p.+?;[:\n]', repl, s)]: every match, leftmost first and
    not overlapping, is replaced by [repl]. *)
Definition re_sub (p : list atom) (repl : str) (s : str) : str := sub_from p repl 0 s.

(** [.{,n};:] at the head of [t], greedily with backtracking: the
    number of characters the dots take. *)
Fixpoint dots_then_cut (n : nat) (t : str) : option nat :=
  let here := if startswith (lit ";:") t then Some 0%nat else None in
  match n, t with
  | S n', c :: t' =>
      if dot c then
        match dots_then_cut n' t' with
        | Some k => Some (S k)
        | None => here
        end
      else here
  | _, _ => here
  end.

(** [re.search(r'^;(:.{,1018};):', s)]: the number [k] of characters
    the dots take; group 1 is then [s[1 : k+3]] and the match ends at
    [k+4]. *)
Definition search_unit (s : str) : option nat :=
  match s with
  | a :: b :: t => if Ascii.eqb a ";" && Ascii.eqb b ":" then dots_then_cut 1018 t else None
  | _ => None
  end.

End Re.

Export Re.

(** ** The VISA transport *)

Module Visa.

(** A resource object together with the instrument behind it. *)
Record Inst := mkInst {
  address : str;
  (* attributes the program sets *)
  timeout : Z;
  delay : Z;
  term_char : option str;
  write_termination : str;
  read_termination : str;
  (* life cycle *)
  quiesced : bool;               (* before_close() was called *)
  closed : bool;                 (* close() was called *)
  (* the instrument *)
  reply : str -> option str;     (* answer to a query; None: the read times out *)
  wscript : list bool;           (* outcomes of the coming writes; exhausted: accepted *)
  rx : bytes;                    (* bytes queued for read_bytes *)
  sent : list (Z * str)          (* every write: the timeout in force, the text *)
}.

Definition set_timeout (v : Z) (i : Inst) : Inst :=
  mkInst (address i) v (delay i) (term_char i) (write_termination i) (read_termination i)
         (quiesced i) (closed i) (reply i) (wscript i) (rx i) (sent i).
Definition set_delay (v : Z) (i : Inst) : Inst :=
  mkInst (address i) (timeout i) v (term_char i) (write_termination i) (read_termination i)
         (quiesced i) (closed i) (reply i) (wscript i) (rx i) (sent i).
Definition set_term_char (v : str) (i : Inst) : Inst :=
  mkInst (address i) (timeout i) (delay i) (Some v) (write_termination i) (read_termination i)
         (quiesced i) (closed i) (reply i) (wscript i) (rx i) (sent i).
Definition set_write_termination (v : str) (i : Inst) : Inst :=
  mkInst (address i) (timeout i) (delay i) (term_char i) v (read_termination i)
         (quiesced i) (closed i) (reply i) (wscript i) (rx i) (sent i).
Definition set_read_termination (v : str) (i : Inst) : Inst :=
  mkInst (address i) (timeout i) (delay i) (term_char i) (write_termination i) v
         (quiesced i) (closed i) (reply i) (wscript i) (rx i) (sent i).
Definition set_quiesced (v : bool) (i : Inst) : Inst :=
  mkInst (address i) (timeout i) (delay i) (term_char i) (write_termination i) (read_termination i)
         v (closed i) (reply i) (wscript i) (rx i) (sent i).
Definition set_closed (v : bool) (i : Inst) : Inst :=
  mkInst (address i) (timeout i) (delay i) (term_char i) (write_termination i) (read_termination i)
         (quiesced i) v (reply i) (wscript i) (rx i) (sent i).
Definition set_wscript (v : list bool) (i : Inst) : Inst :=
  mkInst (address i) (timeout i) (delay i) (term_char i) (write_termination i) (read_termination i)
         (quiesced i) (closed i) (reply i) v (rx i) (sent i).
Definition set_rx (v : bytes) (i : Inst) : Inst :=
  mkInst (address i) (timeout i) (delay i) (term_char i) (write_termination i) (read_termination i)
         (quiesced i) (closed i) (reply i) (wscript i) v (sent i).
Definition set_sent (v : list (Z * str)) (i : Inst) : Inst :=
  mkInst (address i) (timeout i) (delay i) (term_char i) (write_termination i) (read_termination i)
         (quiesced i) (closed i) (reply i) (wscript i) (rx i) v.

(** [inst.write(msg)]: the number of bytes written, or VisaIOError when
    the instrument does not take the message in time. *)
Definition write (msg : str) : M Inst Z :=
  fun i =>
    let i1 := set_sent (sent i ++ [(timeout i, msg)]) i in
    match wscript i with
    | false :: w => (Exc VisaIOError, set_wscript w i1)
    | true :: w => (Val (Z.of_nat (length msg + length (write_termination i))), set_wscript w i1)
    | [] => (Val (Z.of_nat (length msg + length (write_termination i))), i1)
    end.

(** [inst.read()] of the answer to [msg], its terminator removed. *)
Definition read_reply (msg : str) : M Inst str :=
  fun i => match reply i msg with
           | Some r => (Val r, i)
           | None => (Exc VisaIOError, i)
           end.

(** [inst.query(msg)] is a write followed by a read. *)
Definition query (msg : str) : M Inst str :=
  write msg ;; read_reply msg.

(** [inst.read_bytes(count, break_on_termchar=False)]: exactly [count]
    bytes, none for a count below one, VisaIOError when the instrument
    has fewer bytes to give before the timeout. *)
Definition read_bytes (count : Z) : M Inst bytes :=
  fun i =>
    if count <=? 0 then (Val [], i)
    else
      let n := Z.to_nat count in
      if (n <=? length (rx i))%nat
      then (Val (firstn n (rx i)), set_rx (skipn n (rx i)) i)
      else (Exc VisaIOError, set_rx [] i).

Definition before_close : M Inst unit := modify (set_quiesced true).
Definition close : M Inst unit := modify (set_closed true).

(** The resource manager: the instruments on the bus and the VISA
    library's table of open sessions, by address. *)
Record ResourceManager := mkRM {
  resources : list Inst;
  opened : list str;
  rm_closed : bool
}.

(** [rm.list_resources('USB?*')]: [?*] is any run of characters, and
    the match ignores case. *)
Definition usb_addresses (bus : list Inst) : list str :=
  List.filter (fun a => startswith (lit "USB") (upper a)) (map address bus).

Definition list_resources_usb : M ResourceManager (list str) :=
  fun r => (Val (usb_addresses (resources r)), r).

Definition open_resource (src : str) : M ResourceManager Inst :=
  fun r =>
    match List.find (fun i => bool_decide (address i = src)) (resources r) with
    | Some i => (Val (set_closed false i), mkRM (resources r) (opened r ++ [src]) (rm_closed r))
    | None => (Exc VisaIOError, r)
    end.

(** What closing a session does to the table. *)
Fixpoint remove_first (a : str) (l : list str) : list str :=
  match l with
  | [] => []
  | x :: t => if bool_decide (x = a) then t else x :: remove_first a t
  end.

Definition forget_session (a : str) : M ResourceManager unit :=
  fun r => (Val tt, mkRM (resources r) (remove_first a (opened r)) (rm_closed r)).

Definition rm_close : M ResourceManager unit :=
  fun r => (Val tt, mkRM (resources r) (opened r) true).

End Visa.

Export Visa.

(** ** class YokogawaDL7480 *)

Module DL.

Record YokogawaDL7480 := mkDL {
  rm : option ResourceManager;
  inst : option Inst;
  devname : str;
  opt : str
}.

Definition set_rm (v : option ResourceManager) (s : YokogawaDL7480) : YokogawaDL7480 :=
  mkDL v (inst s) (devname s) (opt s).
Definition set_inst (v : option Inst) (s : YokogawaDL7480) : YokogawaDL7480 :=
  mkDL (rm s) v (devname s) (opt s).
Definition set_devname (v : str) (s : YokogawaDL7480) : YokogawaDL7480 :=
  mkDL (rm s) (inst s) v (opt s).
Definition set_opt (v : str) (s : YokogawaDL7480) : YokogawaDL7480 :=
  mkDL (rm s) (inst s) (devname s) v.

(** A method call on [self.inst]; on [None] Python raises
    AttributeError. *)
Definition with_inst {A} (m : M Inst A) : M YokogawaDL7480 A :=
  fun s => match inst s with
           | Some i => let '(r, i') := m i in (r, set_inst (Some i') s)
           | None => (Exc AttributeError, s)
           end.

Definition with_rm {A} (m : M ResourceManager A) : M YokogawaDL7480 A :=
  fun s => match rm s with
           | Some r => let '(x, r') := m r in (x, set_rm (Some r') s)
           | None => (Exc AttributeError, s)
           end.

(** [self.inst.close()]: the handle is closed and its session leaves
    the library's table. *)
Definition close_inst : M YokogawaDL7480 unit :=
  self <- get ;;
  match inst self with
  | Some i =>
      with_inst close ;;
      match rm self with
      | Some _ => with_rm (forget_session (address i))
      | None => ret tt
      end
  | None => raise AttributeError
  end.

(** [__init__] *)
Definition init : YokogawaDL7480 := mkDL None None [] [].

(** [__del__] *)
Definition del : M YokogawaDL7480 unit :=
  self <- get ;;
  (match inst self with
   | Some _ =>
       with_inst before_close ;;
       close_inst ;;
       modify (set_inst None) ;;
       modify (set_devname []) ;;
       modify (set_opt [])
   | None => ret tt
   end) ;;
  self <- get ;;
  match rm self with
  | Some _ => with_rm rm_close ;; modify (set_rm None)
  | None => ret tt
  end.

(** [closeinst] *)
Definition closeinst : M YokogawaDL7480 unit :=
  self <- get ;;
  (match inst self with
   | Some _ =>
       with_inst before_close ;;
       close_inst ;;
       modify (set_inst None)
   | None => ret tt
   end) ;;
  self <- get ;;
  match rm self with
  | Some _ => with_rm rm_close ;; modify (set_rm None)
  | None => ret tt
  end.

(** [r'YOKOGAWA,7014[56]0'] and [r'YOKOGAWA,7014[78]0'] *)
Definition pat_DL7440 : list atom :=
  lits "YOKOGAWA,7014" ++ [OneOf ["5"; "6"]%char; Lit "0"].
Definition pat_DL7480 : list atom :=
  lits "YOKOGAWA,7014" ++ [OneOf ["7"; "8"]%char; Lit "0"].

(** The body shared by the two identification branches of [connect]:
    bind the handle, set its attributes, read the option string. *)
Definition bind_device (name : str) (dev : Inst) : M YokogawaDL7480 unit :=
  modify (set_devname name) ;;
  modify (set_inst (Some dev)) ;;
  with_inst (modify (set_delay 100)) ;;
  with_inst (modify (set_timeout 5000)) ;;
  with_inst (modify (set_term_char [nl])) ;;
  o <- with_inst (query (lit "*OPT?;")) ;;
  modify (set_opt (strip o)).

(** The [for src in visa_list] loop of [connect]; not scanning the rest
    is the [break]. *)
Fixpoint scan (visa_list : list str) : M YokogawaDL7480 unit :=
  match visa_list with
  | [] => ret tt
  | src :: rest =>
      self <- get ;;
      match inst self with
      | Some _ => scan rest
      | None =>
          dev <- with_rm (open_resource src) ;;
          let dev := set_read_termination [nl] (set_write_termination [nl] dev) in
          match query (lit "*IDN?;") dev with
          | (Exc _, _) => scan rest
          | (Val idn, dev') =>
              if re_match pat_DL7440 idn then bind_device (lit "DL7440") dev'
              else if re_match pat_DL7480 idn then bind_device (lit "DL7480") dev'
              else scan rest
          end
      end
  end.

(** [connect]; [bus] is what [pyvisa.ResourceManager()] finds attached. *)
Definition connect (bus : list Inst) : M YokogawaDL7480 bool :=
  self <- get ;;
  match inst self with
  | Some _ => ret true
  | None =>
      modify (set_rm (Some (mkRM bus [] false))) ;;
      visa_list <- with_rm list_resources_usb ;;
      scan visa_list ;;
      self <- get ;;
      match inst self with
      | None => ret false
      | Some _ => ret true
      end
  end.

(** [getopt] *)
Definition getopt (arg : str) : M YokogawaDL7480 bool :=
  self <- get ;;
  match inst self with
  | None => ret false
  | Some _ => ret (contains (upper arg) (upper (opt self)))
  end.

(** What [capture] hands back beside its status: the name of a
    temporary file, stood for by the bytes written to it, or a message. *)
Inductive capture_msg :=
| TmpFile (data : bytes)
| Message (s : str).

(** The first [try] of [capture]: the block header. [inr nbyte] when it
    was read, [inl r] when a handler returned [r]. *)
Definition read_header : M YokogawaDL7480 (bool * capture_msg + Z) :=
  let unexpected :=
    with_inst (write (lit "*CLS")) ;;
    ret (inl (false, Message (lit "response from oscilloscope is unexpected. Aborted."))) in
  try_except
    (shash <- with_inst (read_bytes 1) ;;
     shash <- (if negb (py_eq (PyBytes shash) (PyBytes ["#"%byte]))
               then with_inst (read_bytes 1) else ret shash) ;;
     sdigit <- with_inst (read_bytes 1) ;;
     count <- of_outcome (int_of_bytes sdigit) ;;
     sbyte <- with_inst (read_bytes count) ;;
     ndigit <- of_outcome (int_of_bytes sdigit) ;;
     nbyte <- of_outcome (int_of_bytes sbyte) ;;
     ret (inr nbyte))
    (fun e => match e with
              | ValueError => Some unexpected
              | VisaIOError => Some unexpected
              | _ => None
              end).

(** The second [try] of [capture]: the payload. [d0] is a bytes object
    and ['\n'] a str. *)
Definition read_payload (nbyte : Z) : M YokogawaDL7480 (bool * capture_msg + bytes) :=
  try_except
    (d0 <- with_inst (read_bytes 1) ;;
     data <- (if py_eq (PyBytes d0) (PyStr [nl])
              then with_inst (read_bytes nbyte)
              else (more <- with_inst (read_bytes (nbyte - 1)) ;; ret (d0 ++ more))) ;;
     dmy <- with_inst (read_bytes 1) ;;
     ret (inr data))
    (fun e => match e with
              | VisaIOError => Some (ret (inl (false, Message (lit "timeout during capturing"))))
              | _ => None
              end).

(** [capture] *)
Definition capture (bus : list Inst) : M YokogawaDL7480 (bool * capture_msg) :=
  c <- connect bus ;;
  if negb c then ret (false, Message (lit "Oscilloscope not found"))
  else
    with_inst (write (lit "*CLS;;")) ;;
    with_inst (write (lit ":IMAGe:FORMat JPEG;")) ;;
    with_inst (write (lit ":IMAGe:TONE COLor;")) ;;
    with_inst (write (lit ":STOP;*WAI;")) ;;
    with_inst (modify (set_timeout 10000)) ;;
    with_inst (write (lit ":IMAGe:SEND?;")) ;;
    h <- read_header ;;
    match h with
    | inl r => ret r
    | inr nbyte =>
        p <- read_payload nbyte ;;
        match p with
        | inl r => ret r
        | inr data =>
            with_inst (write (lit "*WAI;*CLS;")) ;;
            ret (true, TmpFile data)
        end
    end.

(** The list [r] that the [else] branch of [splitInst] builds in its
    [while] loop, with the string [s] left when the loop ends. *)
Fixpoint split_loop (fuel : nat) (s : str) (r : list str) : list str * str :=
  match fuel with
  | O => (r, s)
  | S fuel' =>
      match search_unit s with
      | Some k =>
          split_loop fuel'
            (lit ";:" ++ skipn (k + 4) s)
            (r ++ [lit "*WAI;" ++ firstn (k + 2) (skipn 1 s) ++ [nl]])
      | None => (r, s)
      end
  end.

Definition split_r (arg : str) : list str :=
  let s := lit ";" ++ strip_chars [";"%char; nl] arg ++ lit ";" in
  let '(r, s') := split_loop (length s) s [] in
  if (0 <? length s')%nat
  then r ++ [lit "*WAI;" ++ strip_chars [";"%char] s' ++ [nl]]
  else r.

(** [splitInst] *)
Definition splitInst (arg : str) : str :=
  if (length arg <? 1024 - 6)%nat
  then lit "*WAI;" ++ strip_chars [";"%char; nl] arg ++ [nl]
  else concat (split_r arg).

(** The chunks [splitInst] emits: the one string of its first branch,
    the elements of [r] in its second. *)
Definition chunks (arg : str) : list str :=
  if (length arg <? 1024 - 6)%nat then [splitInst arg] else split_r arg.

(** The opening of [getconfig] and [setconfig]: connect when there is
    no handle; [true] when there is still none. *)
Definition no_device (bus : list Inst) : M YokogawaDL7480 bool :=
  self <- get ;;
  early <- (match inst self with
            | None =>
                connect bus ;;
                self <- get ;;
                match inst self with
                | None => ret true
                | Some _ => ret false
                end
            | Some _ => ret false
            end) ;;
  if early : bool then ret true
  else
    self <- get ;;
    match inst self with
    | None => ret true
    | Some _ => ret false
    end.

(** ['*WAI;' + self.inst.query(cmd).strip() + ';\n'] *)
Definition wai_line (cmd : string) : M YokogawaDL7480 str :=
  a <- with_inst (query (lit cmd)) ;;
  ret (lit "*WAI;" ++ strip a ++ lit ";" ++ [nl]).

Definition strip_colon (s : str) : str := strip_chars [":"%char] s.

(** The [else] branch of [getconfig]: the read-out itself. *)
Definition read_out : M YokogawaDL7480 (bool * str) :=
    acqu <- wai_line ":ACQuire?" ;;
    c1 <- wai_line ":CHANnel1?" ;;
    c2 <- wai_line ":CHANnel2?" ;;
    c3 <- wai_line ":CHANnel3?" ;;
    c4 <- wai_line ":CHANnel4?" ;;
    let chan := c1 ++ c2 ++ c3 ++ c4 in
    self <- get ;;
    chan <- (if bool_decide (devname self = lit "DL7480")
             then
               c5 <- wai_line ":CHANnel5?" ;;
               c6 <- wai_line ":CHANnel6?" ;;
               c7 <- wai_line ":CHANnel7?" ;;
               c8 <- wai_line ":CHANnel8?" ;;
               ret (chan ++ c5 ++ c6 ++ c7 ++ c8)
             else ret chan) ;;
    curs <- with_inst (query (lit ":CURSor?")) ;;
    let curs := splitInst curs in
    disp <- with_inst (query (lit ":DISPlay?")) ;;
    logic <- getopt (lit "LOGIC") ;;
    let disp := if negb logic
                then strip_colon (re_sub (lits ":DISPLAY:RGB:WAVEFORM:POD") (lit ":") disp)
                else disp in
    let disp := splitInst disp in
    math <- with_inst (query (lit ":MATH?")) ;;
    userdefine <- getopt (lit "USERDEFINE") ;;
    let math := if negb userdefine
                then strip_colon
                       (re_sub (lits ":MATH" ++ [Digit] ++ lits ":USERDEFINE:") (lit ":") math)
                else math in
    let math := splitInst math in
    meas <- with_inst (query (lit ":MEASure?")) ;;
    let meas := splitInst meas in
    sear <- with_inst (query (lit ":SEARch?")) ;;
    let sear := lit "*WAI;" ++ sear in
    logic <- getopt (lit "LOGIC") ;;
    let sear := if negb logic
                then
                  let sear := re_sub (lits ":SEARCH:PPATTERN:LOGIC:") (lit ":") sear in
                  let sear := re_sub (lits ":SEARCH:SPATTERN:BIT:") (lit ":") sear in
                  strip_colon (re_sub (lits ":SEARCH:SPI:ANALYZE:SETUP:CS:LOGIC:") (lit ":") sear)
                else sear in
    let sear := splitInst sear in
    phas <- with_inst (query (lit ":PHASe?")) ;;
    let phas := splitInst phas in
    tbas <- with_inst (query (lit ":TIMebase?")) ;;
    let tbas := splitInst tbas in
    trig <- with_inst (query (lit ":TRIGger?")) ;;
    let trig := splitInst trig in
    let trig := re_sub (lits ":TRIG:CAN:") (lit ";") trig in
    zoom <- with_inst (query (lit ":ZOOM?")) ;;
    let zoom := lit "*WAI;" ++ zoom in
    logic <- getopt (lit "LOGIC") ;;
    let zoom := if negb logic
                then strip_colon (re_sub (lits ":ZOOM:ALLOCATION:POD") (lit ":") zoom)
                else zoom in
    let zoom := splitInst zoom in
    let sep := lit ";" ++ [nl] in
    ret (true,
         lit ":STOP;" ++ [nl] ++ acqu ++ sep ++ chan ++ sep ++ curs ++ sep ++ disp ++ sep
           ++ math ++ sep ++ meas ++ sep ++ sear ++ sep ++ phas ++ sep ++ tbas ++ sep
           ++ trig ++ [nl] ++ zoom ++ sep).

(** [getconfig] *)
Definition getconfig (bus : list Inst) : M YokogawaDL7480 (bool * str) :=
  none <- no_device bus ;;
  if none : bool then ret (false, []) else read_out.

(** [setconfig] *)
Definition setconfig (bus : list Inst) (arg : str) : M YokogawaDL7480 bool :=
  none <- no_device bus ;;
  if none : bool then ret false
  else
    timeout0 <- with_inst (i <- get ;; ret (timeout i)) ;;
    with_inst (modify (set_timeout 20000)) ;;
    try_except
      (b <- with_inst (write arg) ;;
       with_inst (modify (set_timeout timeout0)) ;;
       ret true)
      (fun e => match e with
                | VisaIOError =>
                    Some (with_inst (write (lit "*CLS")) ;;
                          with_inst (modify (set_timeout timeout0)) ;;
                          ret false)
                | _ => None
                end).

End DL.

Export DL.

(** ** class Gui: the save, load and undo operations *)

Module Gui.

(** The fields of the object the operations touch, and the
    collaborators they act on: the working directory and the
    notifications shown. *)
Record Gui := mkGui {
  dl7480 : YokogawaDL7480;
  status : str;
  lastSavedId : Z;
  saveid : option Z;          (* created by saveconfig *)
  lastSavedID : option Z;     (* created by undoSave and loadconfig *)
  btnUndoSave : str;          (* the undo buttons' 'state' *)
  btnUndoLoad : str;
  cursor : str;
  cwd : str;                  (* os.getcwd() *)
  files : gmap str str;       (* the files of the working directory *)
  notices : list str          (* messages given to notification.notify *)
}.

Definition set_dl7480 (v : YokogawaDL7480) (g : Gui) : Gui :=
  mkGui v (status g) (lastSavedId g) (saveid g) (lastSavedID g) (btnUndoSave g)
        (btnUndoLoad g) (cursor g) (cwd g) (files g) (notices g).
Definition set_status (v : str) (g : Gui) : Gui :=
  mkGui (dl7480 g) v (lastSavedId g) (saveid g) (lastSavedID g) (btnUndoSave g)
        (btnUndoLoad g) (cursor g) (cwd g) (files g) (notices g).
Definition set_saveid (v : Z) (g : Gui) : Gui :=
  mkGui (dl7480 g) (status g) (lastSavedId g) (Some v) (lastSavedID g) (btnUndoSave g)
        (btnUndoLoad g) (cursor g) (cwd g) (files g) (notices g).
Definition set_lastSavedID (v : Z) (g : Gui) : Gui :=
  mkGui (dl7480 g) (status g) (lastSavedId g) (saveid g) (Some v) (btnUndoSave g)
        (btnUndoLoad g) (cursor g) (cwd g) (files g) (notices g).
Definition set_btnUndoSave (v : str) (g : Gui) : Gui :=
  mkGui (dl7480 g) (status g) (lastSavedId g) (saveid g) (lastSavedID g) v
        (btnUndoLoad g) (cursor g) (cwd g) (files g) (notices g).
Definition set_btnUndoLoad (v : str) (g : Gui) : Gui :=
  mkGui (dl7480 g) (status g) (lastSavedId g) (saveid g) (lastSavedID g) (btnUndoSave g)
        v (cursor g) (cwd g) (files g) (notices g).
Definition set_cursor (v : str) (g : Gui) : Gui :=
  mkGui (dl7480 g) (status g) (lastSavedId g) (saveid g) (lastSavedID g) (btnUndoSave g)
        (btnUndoLoad g) v (cwd g) (files g) (notices g).
Definition set_files (v : gmap str str) (g : Gui) : Gui :=
  mkGui (dl7480 g) (status g) (lastSavedId g) (saveid g) (lastSavedID g) (btnUndoSave g)
        (btnUndoLoad g) (cursor g) (cwd g) v (notices g).
Definition set_notices (v : list str) (g : Gui) : Gui :=
  mkGui (dl7480 g) (status g) (lastSavedId g) (saveid g) (lastSavedID g) (btnUndoSave g)
        (btnUndoLoad g) (cursor g) (cwd g) (files g) v.

(** A method call on [self.dl7480]. *)
Definition with_dl {A} (m : M YokogawaDL7480 A) : M Gui A :=
  fun g => let '(r, d) := m (dl7480 g) in (r, set_dl7480 d g).

(** [__init__], in a working directory with the given files. *)
Definition init (dir : str) (fs : gmap str str) : Gui :=
  mkGui DL.init (lit "init") (-1) None None (lit "disabled") (lit "disabled") [] dir fs [].

Definition FILENAME_PREFIX : str := lit "DL74x0-".

(** ['{}\\{}{}.dat'.format(os.getcwd(), self.FILENAME_PREFIX, arg)] *)
Definition datfile (dir : str) (arg : Z) : str :=
  dir ++ lit "\" ++ FILENAME_PREFIX ++ str_of_Z arg ++ lit ".dat".
(** ['{}\\{}bkup.dat'.format(os.getcwd(), self.FILENAME_PREFIX)] *)
Definition bkupfile (dir : str) : str :=
  dir ++ lit "\" ++ FILENAME_PREFIX ++ lit "bkup.dat".

Definition notify (message : str) : M Gui unit :=
  modify (fun g => set_notices (notices g ++ [message]) g).
Definition changeCursor (type : str) : M Gui unit := modify (set_cursor type).
Definition updateBtnUndoSave (state : str) : M Gui unit := modify (set_btnUndoSave state).
Definition updateBtnUndoLoad (state : str) : M Gui unit := modify (set_btnUndoLoad state).

(** [os.path.exists], writing a file whole, [shutil.copy], [shutil.move].
    The map holds each file's content as text: what a text-mode write
    stores is what a text-mode read gives back, the translation of line
    endings in between left out. *)
Definition exists_file (p : str) : M Gui bool :=
  g <- get ;; ret (match files g !! p with Some _ => true | None => false end).
Definition write_file (p : str) (text : str) : M Gui unit :=
  modify (fun g => set_files (<[p := text]> (files g)) g).
Definition copy_file (src dst : str) : M Gui unit :=
  modify (fun g => match files g !! src with
                   | Some text => set_files (<[dst := text]> (files g)) g
                   | None => g
                   end).
Definition move_file (src dst : str) : M Gui unit :=
  modify (fun g => match files g !! src with
                   | Some text => set_files (<[dst := text]> (delete src (files g))) g
                   | None => g
                   end).

(** [setStatus] and [getStatus] *)
Definition setStatus (arg : str) : M Gui unit :=
  if bool_decide (arg = lit "init") then modify (set_status (lit "init"))
  else if bool_decide (arg = lit "connected") then modify (set_status (lit "connected"))
  else modify (set_status (lit "failed")).

Definition getStatus : M Gui str :=
  g <- get ;;
  if bool_decide (status g = lit "init") then ret (lit "init")
  else if bool_decide (status g = lit "connected") then ret (lit "connected")
  else modify (set_status (lit "failed")) ;; ret (lit "failed").

(** [undoSave] *)
Definition undoSave : M Gui unit :=
  g <- get ;;
  if 0 <? lastSavedId g then
    let dat := datfile (cwd g) (lastSavedId g) in
    let bkup := bkupfile (cwd g) in
    e <- exists_file bkup ;;
    (if e : bool then move_file bkup dat else ret tt) ;;
    modify (set_lastSavedID (-1)) ;;
    updateBtnUndoSave (lit "disabled")
  else ret tt.

(** One [setconfig] per line of the file, in file order. *)
Fixpoint send_lines (bus : list Inst) (ls : list str) : M Gui unit :=
  match ls with
  | [] => ret tt
  | line :: rest => with_dl (setconfig bus line) ;; send_lines bus rest
  end.

(** [shutil.remove(p)]: the module [shutil] has no attribute [remove],
    so evaluating the call raises AttributeError. *)
Definition shutil_remove (p : str) : M Gui unit := raise AttributeError.

(** [undoLoad] *)
Definition undoLoad (bus : list Inst) (arg : Z) : M Gui unit :=
  g <- get ;;
  let dat := datfile (cwd g) arg in
  let bkup := bkupfile (cwd g) in
  match files g !! bkup with
  | Some text =>
      send_lines bus (lines text) ;;
      shutil_remove bkup ;;
      updateBtnUndoLoad (lit "disabled")
  | None =>
      notify (bkup ++ lit " not found.")
  end.

(** [saveconfig]; [None] is Python's [None], returned when the method
    runs off its end. *)
Definition saveconfig (bus : list Inst) (arg : Z) : M Gui (option Z) :=
  changeCursor (lit "wait") ;;
  c <- with_dl (connect bus) ;;
  if negb c then
    setStatus (lit "failed") ;; changeCursor [] ;; ret (Some 0)
  else
    setStatus (lit "connected") ;;
    st <- getStatus ;;
    if bool_decide (st = lit "connected") then
      setStatus (lit "connected") ;;
      r <- with_dl (getconfig bus) ;;
      let '(stat, lrn) := r in
      if bool_decide (lrn = []) then
        notify (lit "no response for " ++ [dq] ++ lit "*LRN" ++ [dq] ++ lit " command. Aborted.") ;;
        changeCursor [] ;;
        ret (Some 0)
      else
        g <- get ;;
        let dat := datfile (cwd g) arg in
        let bkup := bkupfile (cwd g) in
        e <- exists_file dat ;;
        (if e : bool then copy_file dat bkup else ret tt) ;;
        write_file dat lrn ;;
        modify (set_saveid arg) ;;
        updateBtnUndoSave (lit "active") ;;
        notify (lit "saved.") ;;
        changeCursor [] ;;
        ret (Some arg)
    else ret None.

(** [loadconfig] *)
Definition loadconfig (bus : list Inst) (arg : Z) : M Gui (option Z) :=
  changeCursor (lit "wait") ;;
  c <- with_dl (connect bus) ;;
  if negb c then
    setStatus (lit "failed") ;; changeCursor [] ;; ret (Some 0)
  else
    setStatus (lit "connected") ;;
    st <- getStatus ;;
    if bool_decide (st = lit "connected") then
      setStatus (lit "connected") ;;
      timeout0 <- with_dl (with_inst (i <- get ;; ret (timeout i))) ;;
      with_dl (with_inst (modify (set_timeout 10000))) ;;
      r <- with_dl (getconfig bus) ;;
      let '(stat, lrn) := r in
      if negb stat then
        notify (lit "no response from the oscilloscope. Aborted.") ;;
        changeCursor [] ;;
        ret (Some 0)
      else
        g <- get ;;
        let dat := datfile (cwd g) arg in
        let bkup := bkupfile (cwd g) in
        write_file bkup lrn ;;
        g <- get ;;
        match files g !! dat with
        | Some text =>
            send_lines bus (lines text) ;;
            modify (set_lastSavedID (-1)) ;;
            updateBtnUndoLoad (lit "active") ;;
            notify (lit "loaded.") ;;
            changeCursor [] ;;
            with_dl (with_inst (modify (set_timeout timeout0))) ;;
            ret (Some arg)
        | None =>
            notify (dat ++ lit " not found.") ;;
            changeCursor [] ;;
            with_dl (with_inst (modify (set_timeout timeout0))) ;;
            ret (Some 0)
        end
    else ret None.

End Gui.

(** ** Notions the properties are stated with *)

(** *** The block frame of the image reply *)

Module Block.

Definition hash : byte := "#"%byte.
Definition LF : byte := "010"%byte.

Definition digit_byte (d : Z) : byte :=
  match Byte.of_N (Z.to_N (48 + d)) with
  | Some b => b
  | None => "0"%byte
  end.

(** The [width] low decimal digits of [n], most significant first. *)
Fixpoint decimal_field (width : nat) (n : Z) : bytes :=
  match width with
  | O => []
  | S w => decimal_field w (n / 10) ++ [digit_byte (n mod 10)]
  end.

(** The frame as the instrument sends it: marker, digit count, length
    field, the payload (after a line terminator when [lead] is set) and
    the closing terminator. *)
Definition encode_block (digitcount : nat) (payload : bytes) (lead : bool) : bytes :=
  [hash; digit_byte (Z.of_nat digitcount)]
    ++ decimal_field digitcount (Z.of_nat (length payload))
    ++ (if lead then [LF] else [])
    ++ payload ++ [LF].

(** Every coming write is accepted. *)
Definition accepting (i : Inst) : Prop := Forall (fun b => b = true) (wscript i).

(** The session holding handle [i], the instrument about to send [reply_bytes]. *)
Definition receiving (s : YokogawaDL7480) (i : Inst) (reply_bytes : bytes) : YokogawaDL7480 :=
  set_inst (Some (set_rx reply_bytes i)) s.

End Block.

(** *** Chunks and sections of a composite command string *)

Module Chunk.

(** A chunk is a payload between the wait directive and a newline. *)
Definition wrap (p : str) : str := lit "*WAI;" ++ p ++ [nl].
Definition payload (c : str) : str := removelast (skipn 5 c).

Definition trimmed (arg : str) : str := strip_chars [";"%char; nl] arg.

(** The sections of a string: it is cut before every [:] that follows
    a [;], and nowhere else. *)
Fixpoint sections (s : str) : list str :=
  match s with
  | [] => []
  | c :: t =>
      match sections t with
      | [] => [[c]]
      | u :: us =>
          if Ascii.eqb c ";" && startswith (lit ":") t
          then [c] :: u :: us
          else (c :: u) :: us
      end
  end.

(** A payload of whole sections matched by the pattern: [:], at most
    1018 characters none of which is a newline, [;]. *)
Definition unit_shape (p : str) : Prop :=
  exists body, p = ":"%char :: body ++ [";"%char]
               /\ (length body <= 1018)%nat
               /\ forallb dot body = true.

(** A string that does not begin, or end, with a character of [p]. *)
Definition starts_clean (p : ascii -> bool) (s : str) : Prop :=
  match s with [] => True | c :: _ => p c = false end.
Definition ends_clean (p : ascii -> bool) (s : str) : Prop := starts_clean p (rev s).

Definition semi : ascii -> bool := in_chars [";"%char].


End Chunk.

(** *** Sessions *)

Module Session.

(** A computation that never drops the handle. *)
Definition keeps {A} (m : M YokogawaDL7480 A) : Prop :=
  forall s r s', m s = (r, s') -> inst s <> None -> inst s' <> None.



(** The identity invariant of the data model: a device family is
    recorded exactly when a handle is held. *)
Definition identified (s : YokogawaDL7480) : Prop :=
  devname s <> [] <-> inst s <> None.

End Session.

(** *** Instruments and sessions used as concrete inputs *)

Module Demo.

(** An instrument that identifies itself with [idn], reports the
    options [CH4MW,FLOPPY] and answers every other query alike. *)
Definition scope (addr idn : string) (queued : bytes) (script : list bool) : Inst :=
  mkInst (lit addr) 2000 0 None [] [] false false
    (fun q => if bool_decide (q = lit "*IDN?;") then Some (lit idn)
              else if bool_decide (q = lit "*OPT?;") then Some (lit "CH4MW,FLOPPY")
              else Some (lit ":X:Y 1;Z 2"))
    script queued [].

(** A DL7480 whose coming writes follow [script]. *)
Definition dl7480 (script : list bool) : Inst :=
  scope "USB0::0x0B21::0x0001::NI-VISA-30001::RAW" "YOKOGAWA,701480,0,F1.10" [] script.

(** Some other instrument on the bus. *)
Definition meter : Inst := scope "USB0::0x1AB1::0x09C4::DM3R::INSTR" "RIGOL,DM3058" [] [].

(** A session already bound to [i]. *)
Definition connected (i : Inst) : YokogawaDL7480 :=
  mkDL (Some (mkRM [i] [address i] false)) (Some i) (lit "DL7480") (lit "CH4MW,FLOPPY").

Definition ascii_bytes (s : string) : bytes := map byte_of_ascii (lit s).

(** What [capture] returns when the instrument answers [reply_bytes]. *)
Definition decode (reply_bytes : bytes) : outcome (bool * capture_msg) :=
  fst (capture [] (Block.receiving (connected (dl7480 [])) (dl7480 []) reply_bytes)).

(** A window whose session is bound to [i], in the directory [C:]
    holding [fs]; [last] is its [lastSavedId]. *)
Definition window (i : Inst) (last : Z) (fs : gmap str str) : Gui.Gui :=
  Gui.mkGui (connected i) (lit "init") last None None (lit "disabled") (lit "disabled")
            [] (lit "C:") fs [].

Definition slot (n : Z) : str := Gui.datfile (lit "C:") n.
Definition backup : str := Gui.bkupfile (lit "C:").

(** The snapshot [getconfig] reads from [i]. *)
Definition snapshot (i : Inst) : str :=
  match fst (getconfig [] (connected i)) with
  | Val (_, lrn) => lrn
  | Exc _ => []
  end.

(** A section too long for one chunk, and a string of 200 short
    sections. *)
Definition long_section : str := ":"%char :: repeat "A"%char 1100.
Definition widest_unit : str := ":"%char :: repeat "A"%char 1018 ++ lit ";:B".

End Demo.

(** ** Notions the further properties are stated with *)

(** *** Discovery *)

Module Discovery.

(** The handle as [connect] has it when it asks for the identification. *)
Definition prepared (dev : Inst) : Inst :=
  set_read_termination [nl] (set_write_termination [nl] dev).

(** Whether the instrument at [src] answers [*IDN?;] with a string that
    one of the two patterns of [connect] accepts. *)
Definition identifies (bus : list Inst) (src : str) : bool :=
  match List.find (fun i => bool_decide (address i = src)) bus with
  | Some dev =>
      match fst (query (lit "*IDN?;") (prepared (set_closed false dev))) with
      | Val idn => re_match pat_DL7440 idn || re_match pat_DL7480 idn
      | Exc _ => false
      end
  | None => false
  end.

(** The family [connect] records for an identification string. *)
Definition family (idn : str) : str :=
  if re_match pat_DL7440 idn then lit "DL7440" else lit "DL7480".

End Discovery.

(** *** More instruments used as concrete inputs *)

Module Rig.

(** An oscilloscope that answers the identification query and no
    other. *)
Definition silent : Inst :=
  mkInst (lit "USB0::0x0B21::0x0001::NI-VISA-30002::RAW") 2000 0 None [] [] false false
    (fun q => if bool_decide (q = lit "*IDN?;") then Some (lit "YOKOGAWA,701450,0,F1.10")
              else None)
    [] [] [].

End Rig.

(** *** What an operation leaves of a session *)

Module Frame.

(** The instrument behind a handle is the same, as open as it was. *)
Definition same_handle (i i' : Inst) : Prop :=
  address i' = address i /\ closed i' = closed i /\ quiesced i' = quiesced i
  /\ reply i' = reply i.

(** The session is bound as it was: same family, options and resource
    manager, and the same handle or none. *)
Definition same_session (s s' : YokogawaDL7480) : Prop :=
  devname s' = devname s /\ opt s' = opt s /\ rm s' = rm s
  /\ match inst s, inst s' with
     | Some i, Some i' => same_handle i i'
     | None, None => True
     | _, _ => False
     end.

Definition calm {A} (m : M Inst A) : Prop :=
  forall i r i', m i = (r, i') -> same_handle i i'.

Definition steady {A} (m : M YokogawaDL7480 A) : Prop :=
  forall s r s', m s = (r, s') -> same_session s s'.

(** A session that holds a handle has its family recorded and a
    resource manager. *)
Definition well_bound (s : YokogawaDL7480) : Prop :=
  inst s <> None ->
  (devname s = lit "DL7440" \/ devname s = lit "DL7480") /\ rm s <> None.

(** The public operations of the session class. *)
Inductive op :=
| Connect (bus : list Inst)
| Getopt (arg : str)
| Capture (bus : list Inst)
| Getconfig (bus : list Inst)
| Setconfig (bus : list Inst) (arg : str)
| Closeinst
| Del.

(** The session after an operation, whatever it returned or raised. *)
Definition run (s : YokogawaDL7480) (o : op) : YokogawaDL7480 :=
  match o with
  | Connect bus => snd (connect bus s)
  | Getopt arg => snd (getopt arg s)
  | Capture bus => snd (capture bus s)
  | Getconfig bus => snd (getconfig bus s)
  | Setconfig bus arg => snd (setconfig bus arg s)
  | Closeinst => snd (closeinst s)
  | Del => snd (del s)
  end.

End Frame.

(** *** The read-out of the configuration *)

Module ReadOut.

(** The queries [getconfig] sends, in the order it sends them; the
    channels 5 to 8 only to a DL7480. *)
Definition queries (name : str) : list str :=
  map lit [":ACQuire?"; ":CHANnel1?"; ":CHANnel2?"; ":CHANnel3?"; ":CHANnel4?"]%string
  ++ (if bool_decide (name = lit "DL7480")
      then map lit [":CHANnel5?"; ":CHANnel6?"; ":CHANnel7?"; ":CHANnel8?"]%string
      else [])
  ++ map lit [":CURSor?"; ":DISPlay?"; ":MATH?"; ":MEASure?"; ":SEARch?";
              ":PHASe?"; ":TIMebase?"; ":TRIGger?"; ":ZOOM?"]%string.

(** A computation that, on a session of family [name] whose instrument
    accepts every write and answers the queries [qs], returns after
    sending exactly [qs], each under the timeout in force, and touches
    nothing else. *)
Definition asks {A} (name : str) (m : M YokogawaDL7480 A) (qs : list str) : Prop :=
  forall s i,
    devname s = name -> inst s = Some i -> Block.accepting i ->
    Forall (fun q => reply i q <> None) qs ->
    exists a i',
      m s = (Val a, set_inst (Some i') s)
      /\ sent i' = sent i ++ map (pair (timeout i)) qs
      /\ timeout i' = timeout i /\ Block.accepting i' /\ reply i' = reply i /\ rx i' = rx i.

(** A computation that, on a session that holds a handle, keeps the
    handle and raises nothing but the transport's exception. *)
Definition transport_only {A} (m : M YokogawaDL7480 A) : Prop :=
  forall s r s', inst s <> None -> m s = (r, s') ->
    inst s' <> None /\ forall e, r = Exc e -> e = VisaIOError.

(** A computation whose value, when it returns one, satisfies [P]. *)
Definition returns {A} (P : A -> Prop) (m : M YokogawaDL7480 A) : Prop :=
  forall s a s', m s = (Val a, s') -> P a.

End ReadOut.

(** *** Writing to and reading from the instrument *)

Module Wire.

(** The instrument after a write of [msg]. *)
Definition written (msg : str) (i : Inst) : Inst := snd (write msg i).

(** The instrument differs from what it was only in the bytes it has
    still to give. *)
Definition only_rx (i i' : Inst) : Prop := i' = set_rx (rx i') i.

(** A computation that only reads: on a session that holds a handle it
    touches nothing but the bytes queued, and the exceptions it raises
    are among [E]. *)
Definition reader {A} (E : exn -> Prop) (m : M YokogawaDL7480 A) : Prop :=
  forall s i, exists r i',
    m (set_inst (Some i) s) = (r, set_inst (Some i') s)
    /\ only_rx i i' /\ forall e, r = Exc e -> E e.

(** The five commands [capture] opens with, the first four under the
    timeout [t] in force, the last under the 10000 ms it sets. *)
Definition capture_commands (t : Z) : list (Z * str) :=
  [(t, lit "*CLS;;"); (t, lit ":IMAGe:FORMat JPEG;"); (t, lit ":IMAGe:TONE COLor;");
   (t, lit ":STOP;*WAI;"); (10000, lit ":IMAGe:SEND?;")].

End Wire.

(** *** The lines of a file as they are sent *)

Module Replay.



End Replay.

(** * Properties *)

Import Chunk Block Session Gui.

#[local] Arguments Ascii.eqb : simpl never.
#[local] Arguments dot : simpl never.
#[local] Arguments connect : simpl never.
#[local] Arguments getconfig : simpl never.
#[local] Arguments setconfig : simpl never.
#[local] Arguments datfile : simpl never.
#[local] Arguments bkupfile : simpl never.
#[local] Arguments lines : simpl never.

(** ** Stepping through the monad *)

(** A bind whose first computation is known to return. *)
Lemma bind_val {St A B} (m : M St A) (k : A -> M St B) s a s' :
  m s = (Val a, s') -> bind m k s = k a s'.
Proof. unfold bind. now intros ->. Qed.

Lemma bind_same {St A B} (m : M St A) (k : A -> M St B) s1 s2 :
  m s1 = m s2 -> bind m k s1 = bind m k s2.
Proof. unfold bind. now intros ->. Qed.

Lemma fst_snd_eq {A B} (x : A * B) a : fst x = a -> x = (a, snd x).
Proof. destruct x. simpl. now intros ->. Qed.

(** A method call on a handle that is known. *)
Lemma with_inst_bound {A} (m : M Inst A) s i :
  with_inst m (set_inst (Some i) s) = (fst (m i), set_inst (Some (snd (m i))) s).
Proof. unfold with_inst. cbn. destruct (m i). reflexivity. Qed.

Lemma set_inst_twice v w s : set_inst v (set_inst w s) = set_inst v s.
Proof. reflexivity. Qed.

Lemma connect_bound bus s i :
  connect bus (set_inst (Some i) s) = (Val true, set_inst (Some i) s).
Proof. reflexivity. Qed.

(** [connect] on a session that holds a handle returns at once. *)
Lemma connect_some bus s i : inst s = Some i -> connect bus s = (Val true, s).
Proof. intros H. unfold connect, bind, get. now rewrite H. Qed.

(** Witness. *)
Lemma connect_some_witness :
  connect [Demo.meter] (Demo.connected (Demo.dl7480 []))
  = (Val true, Demo.connected (Demo.dl7480 [])).
Proof. apply (connect_some [Demo.meter] _ (Demo.dl7480 [])). reflexivity. Defined.

Lemma connect_none bus s :
  inst s = None ->
  connect bus s
  = bind (scan (usb_addresses bus))
      (fun _ => self <- get ;;
                match inst self with
                | None => ret false
                | Some _ => ret true
                end)
      (set_rm (Some (mkRM bus [] false)) s).
Proof. intros H. unfold connect, bind at 1, get at 1. rewrite H. reflexivity. Qed.

Lemma no_device_some bus s i : inst s = Some i -> no_device bus s = (Val false, s).
Proof. intros H. unfold no_device, bind, get. rewrite H. cbn. now rewrite H. Qed.

(** ** The command chunker *)

Lemma startswith_cut t :
  startswith (lit ";:") t = true -> exists rest, t = ";"%char :: ":"%char :: rest.
Proof.
  destruct t as [|a [|b rest]]; simpl; try discriminate.
  - rewrite andb_false_r. discriminate.
  - rewrite andb_true_r. intros H. apply andb_prop in H as [Ha Hb].
    apply Ascii.eqb_eq in Ha, Hb. subst. eauto.
Qed.

Lemma dots_then_cut_spec n :
  forall t k, dots_then_cut n t = Some k ->
    (k <= n)%nat /\
    exists body rest, t = body ++ ";"%char :: ":"%char :: rest
                      /\ length body = k /\ forallb dot body = true.
Proof.
  assert (Hhere : forall t k,
    (if startswith (lit ";:") t then Some 0%nat else None) = Some k ->
    k = 0%nat /\ exists rest, t = ";"%char :: ":"%char :: rest).
  { intros t k. destruct (startswith (lit ";:") t) eqn:E; [|discriminate].
    intros [= <-]. split; [reflexivity|]. now apply startswith_cut. }
  induction n as [|n IH]; intros t k H.
  - assert (H' : (if startswith (lit ";:") t then Some 0%nat else None) = Some k).
    { destruct t; exact H. }
    apply Hhere in H' as [-> [rest ->]]. split; [lia|]. exists [], rest. auto.
  - destruct t as [|c t'].
    + apply Hhere in H as [-> [rest Hr]]. discriminate.
    + cbn [dots_then_cut] in H.
      destruct (dot c) eqn:Ec.
      * destruct (dots_then_cut n t') as [k'|] eqn:Ek.
        -- injection H as <-. apply IH in Ek as [Hle (body & rest & -> & Hlen & Hdot)].
           split; [lia|]. exists (c :: body), rest. simpl. rewrite Ec, Hdot, Hlen. auto.
        -- apply Hhere in H as [-> [rest ->]]. split; [lia|]. exists [], rest. auto.
      * apply Hhere in H as [-> [rest ->]]. split; [lia|]. exists [], rest. auto.
Qed.

Lemma search_unit_spec s k :
  search_unit s = Some k ->
  (k <= 1018)%nat /\
  exists body rest, s = ";"%char :: ":"%char :: body ++ ";"%char :: ":"%char :: rest
                    /\ length body = k /\ forallb dot body = true.
Proof.
  unfold search_unit. destruct s as [|a [|b t]]; try discriminate.
  destruct (Ascii.eqb a ";") eqn:Ea; [|discriminate].
  destruct (Ascii.eqb b ":") eqn:Eb; [|discriminate]. cbn [andb].
  apply Ascii.eqb_eq in Ea, Eb. subst. intros H.
  apply dots_then_cut_spec in H as [Hle (body & rest & -> & Hlen & Hdot)].
  split; [exact Hle|]. exists body, rest. auto.
Qed.

Lemma lstrip_by_clean p s : starts_clean p s -> lstrip_by p s = s.
Proof. destruct s as [|c t]; simpl; [reflexivity|]. now intros ->. Qed.

Lemma lstrip_by_starts_clean p s : starts_clean p (lstrip_by p s).
Proof.
  induction s as [|c t IH]; simpl; [exact I|].
  destruct (p c) eqn:E; [exact IH|]. simpl. exact E.
Qed.

Lemma lstrip_by_suffix p s : exists d, s = d ++ lstrip_by p s.
Proof.
  induction s as [|c t [d IH]]; simpl.
  - now exists [].
  - destruct (p c).
    + exists (c :: d). simpl. now f_equal.
    + now exists [].
Qed.

Lemma rstrip_by_clean p s : ends_clean p s -> rstrip_by p s = s.
Proof.
  unfold ends_clean, rstrip_by. intros H.
  rewrite lstrip_by_clean by exact H. apply rev_involutive.
Qed.

Lemma rstrip_by_ends_clean p s : ends_clean p (rstrip_by p s).
Proof.
  unfold ends_clean, rstrip_by. rewrite rev_involutive. apply lstrip_by_starts_clean.
Qed.

Lemma rstrip_by_prefix p s : exists d, s = rstrip_by p s ++ d.
Proof.
  unfold rstrip_by. destruct (lstrip_by_suffix p (rev s)) as [d Hd].
  exists (rev d). rewrite <- rev_app_distr, <- Hd. symmetry. apply rev_involutive.
Qed.

Lemma strip_by_starts_clean p s : starts_clean p (strip_by p s).
Proof.
  unfold strip_by.
  pose proof (lstrip_by_starts_clean p s) as Hc.
  destruct (rstrip_by_prefix p (lstrip_by p s)) as [d Hd].
  destruct (rstrip_by p (lstrip_by p s)) as [|c r]; [exact I|].
  rewrite Hd in Hc. exact Hc.
Qed.

Lemma strip_by_ends_clean p s : ends_clean p (strip_by p s).
Proof. apply rstrip_by_ends_clean. Qed.

Lemma strip_by_length p s : (length (strip_by p s) <= length s)%nat.
Proof.
  unfold strip_by.
  destruct (lstrip_by_suffix p s) as [d Hd].
  destruct (rstrip_by_prefix p (lstrip_by p s)) as [d' Hd'].
  apply (f_equal (@length ascii)) in Hd, Hd'. rewrite length_app in Hd, Hd'. lia.
Qed.

Lemma starts_clean_weaken (p q : ascii -> bool) s :
  (forall c, q c = true -> p c = true) -> starts_clean p s -> starts_clean q s.
Proof.
  intros Hpq. destruct s as [|c t]; simpl; [auto|].
  intros Hp. destruct (q c) eqn:E; [|reflexivity].
  apply Hpq in E. congruence.
Qed.

Lemma semi_true c : semi c = true <-> c = ";"%char.
Proof.
  unfold semi, in_chars. simpl. rewrite orb_false_r. apply Ascii.eqb_eq.
Qed.

Lemma semi_semicolon : semi ";" = true.
Proof. now apply semi_true. Qed.

Lemma trimmed_clean arg :
  starts_clean semi (trimmed arg) /\ ends_clean semi (trimmed arg).
Proof.
  assert (Hw : forall c, semi c = true -> in_chars [";"%char; nl] c = true).
  { intros c H. apply semi_true in H. subst. reflexivity. }
  split.
  - eapply starts_clean_weaken; [exact Hw|]. apply strip_by_starts_clean.
  - eapply starts_clean_weaken; [exact Hw|]. apply strip_by_ends_clean.
Qed.

(** Stripping the semicolons that frame a clean string gives it back. *)
Lemma strip_frame y :
  starts_clean semi y -> ends_clean semi y ->
  strip_chars [";"%char] (";"%char :: y ++ [";"%char]) = y.
Proof.
  intros Hs He. unfold strip_chars, strip_by. fold semi.
  cbn [lstrip_by]. rewrite semi_semicolon.
  destruct y as [|c y'].
  - cbn. reflexivity.
  - rewrite (lstrip_by_clean semi ((c :: y') ++ [";"%char])) by exact Hs.
    unfold rstrip_by. rewrite rev_app_distr. cbn [rev app lstrip_by].
    rewrite semi_semicolon.
    change (rev y' ++ [c]) with (rev (c :: y')).
    rewrite lstrip_by_clean by exact He. apply rev_involutive.
Qed.

Lemma ends_clean_app_r p (a b : str) : b <> [] -> ends_clean p (a ++ b) -> ends_clean p b.
Proof.
  unfold ends_clean. rewrite rev_app_distr. intros Hb.
  destruct (rev b) as [|c t] eqn:E.
  - apply (f_equal (@rev ascii)) in E. rewrite rev_involutive in E. now destruct Hb.
  - simpl. auto.
Qed.

(** What one successful search splits off. *)
Lemma search_unit_step y k :
  search_unit (";"%char :: y ++ [";"%char]) = Some k ->
  exists body rest,
    y = (":"%char :: body ++ [";"%char]) ++ ":"%char :: rest
    /\ length body = k /\ (k <= 1018)%nat /\ forallb dot body = true
    /\ firstn (k + 2) (skipn 1 (";"%char :: y ++ [";"%char])) = ":"%char :: body ++ [";"%char]
    /\ skipn (k + 4) (";"%char :: y ++ [";"%char]) = rest ++ [";"%char].
Proof.
  intros H. apply search_unit_spec in H as [Hle (body & rest & Hs & Hlen & Hdot)].
  injection Hs as Hs.
  destruct rest as [|x rest0 _] using rev_ind.
  - exfalso.
    change (":"%char :: body ++ [";"%char; ":"%char])
      with ((":"%char :: body) ++ [";"%char; ":"%char]) in Hs.
    replace ((":"%char :: body) ++ [";"%char; ":"%char])
      with (((":"%char :: body) ++ [";"%char]) ++ [":"%char]) in Hs
      by (rewrite <- app_assoc; reflexivity).
    apply app_inj_tail in Hs as [_ Hs]. discriminate.
  - replace (":"%char :: body ++ ";"%char :: ":"%char :: rest0 ++ [x])
      with (((":"%char :: body ++ [";"%char]) ++ ":"%char :: rest0) ++ [x]) in Hs
      by (simpl; rewrite <- !app_assoc; reflexivity).
    apply app_inj_tail in Hs as [Hy Hx]. subst x.
    exists body, rest0. split; [exact Hy|]. split; [exact Hlen|]. split; [exact Hle|].
    split; [exact Hdot|]. subst y. split.
    + cbn [skipn].
      rewrite <- app_assoc.
      apply take_app_length'. simpl. rewrite length_app. simpl. lia.
    + replace (";"%char :: ((":"%char :: body ++ [";"%char]) ++ ":"%char :: rest0) ++ [";"%char])
        with ((";"%char :: ":"%char :: body ++ [";"%char; ":"%char]) ++ rest0 ++ [";"%char])
        by (simpl; rewrite <- !app_assoc; reflexivity).
      apply drop_app_length'. simpl. rewrite length_app. simpl. lia.
Qed.

(** The loop invariant: the string is a clean text between two
    semicolons, and the payloads split off so far, followed by the text
    that is left, are the text the loop started from. *)
Lemma split_loop_spec fuel :
  forall y r,
    (length y + 2 <= fuel)%nat -> starts_clean semi y -> ends_clean semi y ->
    exists gs y',
      split_loop fuel (";"%char :: y ++ [";"%char]) r
        = (r ++ map wrap gs, ";"%char :: y' ++ [";"%char])
      /\ y = concat gs ++ y'
      /\ starts_clean semi y' /\ ends_clean semi y'
      /\ Forall unit_shape gs
      /\ (gs <> [] -> exists t, y' = ":"%char :: t)
      /\ search_unit (";"%char :: y' ++ [";"%char]) = None.
Proof.
  induction fuel as [|fuel IH]; intros y r Hfuel Hs He; [lia|].
  cbn [split_loop].
  destruct (search_unit (";"%char :: y ++ [";"%char])) as [k|] eqn:Hk.
  - destruct (search_unit_step _ _ Hk) as (body & rest & Hy & Hlen & Hle & Hdot & Hg & Hrest).
    rewrite Hg, Hrest.
    change (lit ";:" ++ rest ++ [";"%char])
      with (";"%char :: (":"%char :: rest) ++ [";"%char]).
    destruct (IH (":"%char :: rest) (r ++ [lit "*WAI;" ++ (":"%char :: body ++ [";"%char]) ++ [nl]]))
      as (gs & y' & Hloop & Hcat & Hs' & He' & Hshape & Hhead & Hnone).
    + subst y. rewrite length_app in Hfuel. simpl in *. lia.
    + reflexivity.
    + subst y. eapply ends_clean_app_r; [|exact He]. discriminate.
    + exists ((":"%char :: body ++ [";"%char]) :: gs), y'.
      split; [|split; [|split; [|split; [|split; [|split]]]]]; auto.
      * rewrite Hloop. rewrite <- app_assoc. reflexivity.
      * rewrite Hy, Hcat. cbn [concat]. rewrite <- app_assoc. reflexivity.
      * constructor; [|exact Hshape]. exists body. subst k. auto.
      * intros _. destruct gs as [|g gs'].
        -- simpl in Hcat. subst y'. eauto.
        -- apply Hhead. discriminate.
  - exists [], y. cbn [map concat app]. rewrite app_nil_r.
    repeat split; auto. intros H. now destruct H.
Qed.

(** The [while] loop of [splitInst] ends because the search finds no
    further unit: the length of the string is fuel enough. *)
Theorem split_loop_completes arg :
  let s := lit ";" ++ trimmed arg ++ lit ";" in
  search_unit (snd (split_loop (length s) s [])) = None.
Proof.
  cbv zeta.
  destruct (trimmed_clean arg) as [Hs He].
  change (lit ";" ++ trimmed arg ++ lit ";") with (";"%char :: trimmed arg ++ [";"%char]).
  destruct (split_loop_spec (length (";"%char :: trimmed arg ++ [";"%char])) (trimmed arg) [])
    as (gs & y' & Hloop & _ & _ & _ & _ & _ & Hnone); auto.
  { simpl. rewrite length_app. simpl. lia. }
  rewrite Hloop. exact Hnone.
Qed.

Lemma split_r_spec arg :
  exists gs y',
    split_r arg = map wrap (gs ++ [y'])
    /\ trimmed arg = concat gs ++ y'
    /\ Forall unit_shape gs
    /\ (gs <> [] -> exists t, y' = ":"%char :: t)
    /\ search_unit (";"%char :: y' ++ [";"%char]) = None.
Proof.
  destruct (trimmed_clean arg) as [Hs He].
  destruct (split_loop_spec (length (";"%char :: trimmed arg ++ [";"%char])) (trimmed arg) [])
    as (gs & y' & Hloop & Hcat & Hs' & He' & Hshape & Hhead & Hnone); auto.
  { simpl. rewrite length_app. simpl. lia. }
  exists gs, y'. split; [|auto].
  unfold split_r. fold (trimmed arg).
  change (lit ";" ++ trimmed arg ++ lit ";") with (";"%char :: trimmed arg ++ [";"%char]).
  rewrite Hloop. cbn [app length Nat.ltb Nat.leb].
  rewrite strip_frame by assumption.
  rewrite map_app. reflexivity.
Qed.



Lemma unit_shape_ends g : unit_shape g -> exists g', g = g' ++ [";"%char].
Proof. intros (body & -> & _). now exists (":"%char :: body). Qed.

Lemma unit_shape_starts g : unit_shape g -> exists t, g = ":"%char :: t.
Proof. intros (body & -> & _). eauto. Qed.


Lemma sections_nonempty c t : sections (c :: t) <> [].
Proof. simpl. destruct (sections t); [discriminate|]. destruct (_ && _); discriminate. Qed.

Lemma sections_cons c t :
  sections (c :: t)
  = match sections t with
    | [] => [[c]]
    | u :: us =>
        if Ascii.eqb c ";" && startswith (lit ":") t
        then [c] :: u :: us
        else (c :: u) :: us
    end.
Proof. reflexivity. Qed.

Lemma sections_app a' b' :
  sections ((a' ++ [";"%char]) ++ ":"%char :: b')
  = sections (a' ++ [";"%char]) ++ sections (":"%char :: b').
Proof.
  induction a' as [|c a IH].
  - change (([] ++ [";"%char]) ++ ":"%char :: b') with (";"%char :: ":"%char :: b').
    rewrite (sections_cons ";" (":"%char :: b')).
    destruct (sections (":"%char :: b')) as [|u us] eqn:E.
    + now apply sections_nonempty in E.
    + reflexivity.
  - change (((c :: a) ++ [";"%char]) ++ ":"%char :: b')
      with (c :: ((a ++ [";"%char]) ++ ":"%char :: b')).
    change ((c :: a) ++ [";"%char]) with (c :: (a ++ [";"%char])).
    rewrite !(sections_cons c). rewrite IH.
    destruct (sections (a ++ [";"%char])) as [|u us] eqn:E.
    + destruct a; now apply sections_nonempty in E.
    + assert (Hsw : startswith (lit ":") ((a ++ [";"%char]) ++ ":"%char :: b')
                    = startswith (lit ":") (a ++ [";"%char])).
      { destruct a; reflexivity. }
      rewrite Hsw. cbn [app].
      destruct (Ascii.eqb c ";" && startswith (lit ":") (a ++ [";"%char])); reflexivity.
Qed.

Lemma sections_pieces gs y' :
  Forall unit_shape gs -> (gs <> [] -> exists t, y' = ":"%char :: t) ->
  sections (concat gs ++ y') = concat (map sections gs) ++ sections y'.
Proof.
  induction gs as [|g gs IH]; intros Hshape Hhead; [reflexivity|].
  inversion Hshape as [|? ? Hg Hgs]; subst.
  cbn [concat map]. rewrite <- !app_assoc.
  destruct (unit_shape_ends _ Hg) as [g' ->].
  assert (Hnext : exists t, concat gs ++ y' = ":"%char :: t).
  { destruct gs as [|g2 gs'].
    - simpl. apply Hhead. discriminate.
    - inversion Hgs as [|? ? Hg2 _]; subst.
      destruct (unit_shape_starts _ Hg2) as [t ->]. simpl. eauto. }
  destruct Hnext as [t Ht]. rewrite Ht, sections_app, <- Ht.
  rewrite IH; [reflexivity|exact Hgs|].
  intros Hne. apply Hhead. discriminate.
Qed.





(** The 1018 of the pattern counts the characters between the colon
    and the semicolon: a first unit that uses them all makes a chunk of
    1026 characters. *)
Example splitInst_widest_unit :
  map (@length ascii) (chunks Demo.widest_unit) = [1026%nat; 8%nat].
Proof. vm_compute. reflexivity. Qed.



(** ** The block decoder *)

Lemma isdigit_facts b :
  b_isdigit b = true ->
  b_isspace b = false /\ b_underscore b = false
  /\ (Byte.to_N b =? 45)%N = false /\ (Byte.to_N b =? 43)%N = false.
Proof.
  unfold b_isdigit, b_isspace, b_underscore. intros H.
  apply andb_prop in H as [H1 H2].
  apply N.leb_le in H1, H2.
  repeat split.
  - apply orb_false_iff. split.
    + apply andb_false_iff. right. apply N.leb_gt. lia.
    + apply N.eqb_neq. lia.
  - apply N.eqb_neq. lia.
  - apply N.eqb_neq. lia.
  - apply N.eqb_neq. lia.
Qed.

Lemma digit_byte_spec d :
  0 <= d <= 9 -> b_isdigit (digit_byte d) = true /\ b_digit (digit_byte d) = d.
Proof.
  intros H.
  assert (Hd : d = 0 \/ d = 1 \/ d = 2 \/ d = 3 \/ d = 4 \/ d = 5 \/ d = 6
               \/ d = 7 \/ d = 8 \/ d = 9) by lia.
  repeat (destruct Hd as [-> | Hd]); try subst d; split; reflexivity.
Qed.

Lemma decimal_field_length w : forall n, length (decimal_field w n) = w.
Proof.
  induction w as [|w IH]; intros n; simpl; [reflexivity|].
  rewrite length_app, IH. simpl. lia.
Qed.

Lemma decimal_field_digits w : forall n, forallb b_isdigit (decimal_field w n) = true.
Proof.
  induction w as [|w IH]; intros n; simpl; [reflexivity|].
  rewrite forallb_app, IH. simpl.
  destruct (digit_byte_spec (n mod 10)) as [-> _]; [|reflexivity].
  pose proof (Z.mod_pos_bound n 10). lia.
Qed.

Lemma digits_value_snoc l b :
  b_underscore b = false -> digits_value (l ++ [b]) = digits_value l * 10 + b_digit b.
Proof. intros H. unfold digits_value. rewrite fold_left_app. simpl. now rewrite H. Qed.

Lemma decimal_field_value w : forall n, digits_value (decimal_field w n) = n mod 10 ^ Z.of_nat w.
Proof.
  induction w as [|w IH]; intros n.
  - simpl. now rewrite Z.mod_1_r.
  - cbn [decimal_field].
    assert (Hr : 0 <= n mod 10 <= 9) by (pose proof (Z.mod_pos_bound n 10); lia).
    destruct (digit_byte_spec _ Hr) as [Hd Hv].
    rewrite digits_value_snoc by (now apply isdigit_facts).
    rewrite IH, Hv.
    rewrite Nat2Z.inj_succ, Z.pow_succ_r by lia.
    rewrite (Z.rem_mul_r n 10 (10 ^ Z.of_nat w)) by lia. lia.
Qed.

Lemma span_by_all p l : forallb p l = true -> span_by p l = (l, []).
Proof.
  induction l as [|b t IH]; simpl; [reflexivity|].
  intros H. apply andb_prop in H as [-> H]. now rewrite IH.
Qed.

Lemma grouping_ok_digits l : forallb b_isdigit l = true -> grouping_ok false l = true.
Proof.
  induction l as [|b t IH]; simpl; [reflexivity|].
  intros H. apply andb_prop in H as [Hb H].
  apply isdigit_facts in Hb as (_ & -> & _). auto.
Qed.

Lemma forallb_weaken {A} (p q : A -> bool) l :
  (forall x, p x = true -> q x = true) -> forallb p l = true -> forallb q l = true.
Proof.
  intros Hpq. induction l as [|x t IH]; simpl; [reflexivity|].
  intros H. apply andb_prop in H as [Hx Ht]. rewrite (Hpq _ Hx). auto.
Qed.

(** [int] reads a run of decimal digits as the number it spells. *)
Lemma int_of_digits l :
  l <> [] -> forallb b_isdigit l = true -> int_of_bytes l = Val (digits_value l).
Proof.
  intros Hne Hd. destruct l as [|b t]; [now destruct Hne|].
  pose proof Hd as Hall. cbn [forallb] in Hd. apply andb_prop in Hd as [Hb Ht].
  destruct (isdigit_facts _ Hb) as (Hsp & Hus & Hminus & Hplus).
  unfold int_of_bytes.
  assert (Hspan : span_by b_isspace (b :: t) = ([], b :: t)).
  { cbn [span_by]. now rewrite Hsp. }
  rewrite Hspan. cbn [snd]. rewrite Hminus, Hplus.
  rewrite span_by_all
    by (eapply forallb_weaken; [|exact Hall]; intros x ->; reflexivity).
  cbn [grouping_ok]. rewrite Hus. rewrite grouping_ok_digits by exact Ht.
  reflexivity.
Qed.

Lemma int_of_decimal_field w n :
  (1 <= w)%nat -> int_of_bytes (decimal_field w n) = Val (n mod 10 ^ Z.of_nat w).
Proof.
  intros Hw. rewrite int_of_digits.
  - now rewrite decimal_field_value.
  - intros H. apply (f_equal (@length byte)) in H.
    rewrite decimal_field_length in H. simpl in H. lia.
  - apply decimal_field_digits.
Qed.

Lemma int_of_digit_byte d : 0 <= d <= 9 -> int_of_bytes [digit_byte d] = Val d.
Proof.
  intros H.
  assert (Hd : d = 0 \/ d = 1 \/ d = 2 \/ d = 3 \/ d = 4 \/ d = 5 \/ d = 6
               \/ d = 7 \/ d = 8 \/ d = 9) by lia.
  repeat (destruct Hd as [-> | Hd]); try subst d; reflexivity.
Qed.

Lemma write_accepted msg i :
  accepting i ->
  exists n i', write msg i = (Val n, i') /\ accepting i' /\ rx i' = rx i.
Proof.
  unfold accepting, write. intros H.
  destruct (wscript i) as [|[] w] eqn:E.
  - eexists _, _. split; [reflexivity|]. cbn. rewrite E. auto.
  - eexists _, _. split; [reflexivity|]. cbn. inversion H. auto.
  - inversion H. discriminate.
Qed.

Lemma dl_write_accepted msg s i :
  accepting i ->
  exists n i', with_inst (write msg) (set_inst (Some i) s) = (Val n, set_inst (Some i') s)
               /\ accepting i' /\ rx i' = rx i.
Proof.
  intros H. destruct (write_accepted msg i H) as (n & i' & Hw & Ha & Hrx).
  exists n, i'. rewrite with_inst_bound, Hw. auto.
Qed.

Lemma dl_read_bytes n s i pre post :
  rx i = pre ++ post -> (0 < length pre)%nat -> n = Z.of_nat (length pre) ->
  with_inst (read_bytes n) (set_inst (Some i) s)
  = (Val pre, set_inst (Some (set_rx post i)) s).
Proof.
  intros Hrx Hpos ->. rewrite with_inst_bound. unfold read_bytes.
  destruct (Z.leb_spec (Z.of_nat (length pre)) 0) as [Hle|_]; [lia|].
  rewrite Nat2Z.id, Hrx, length_app.
  destruct (Nat.leb_spec (length pre) (length pre + length post)) as [_|Hlt]; [|lia].
  cbn [fst snd]. rewrite take_app_length, drop_app_length. reflexivity.
Qed.

Lemma dl_read_one s i b post :
  rx i = b :: post ->
  with_inst (read_bytes 1) (set_inst (Some i) s)
  = (Val [b], set_inst (Some (set_rx post i)) s).
Proof. intros H. apply (dl_read_bytes 1 s i [b] post); auto; simpl; lia. Qed.

Lemma dl_read_none n s i :
  n <= 0 ->
  with_inst (read_bytes n) (set_inst (Some i) s) = (Val [], set_inst (Some i) s).
Proof.
  intros H. rewrite with_inst_bound. unfold read_bytes.
  destruct (Z.leb_spec n 0); [reflexivity|lia].
Qed.

(** The header of a well-formed frame is read as its length. *)
Lemma read_header_frame s i dc n tail :
  (1 <= dc <= 9)%nat -> 0 <= n < 10 ^ Z.of_nat dc ->
  rx i = [hash; digit_byte (Z.of_nat dc)] ++ decimal_field dc n ++ tail ->
  read_header (set_inst (Some i) s) = (Val (inr n), set_inst (Some (set_rx tail i)) s).
Proof.
  intros Hdc Hn Hrx. unfold read_header, try_except.
  erewrite bind_val by (eapply dl_read_one; exact Hrx).
  change (py_eq (PyBytes [hash]) (PyBytes ["#"%byte])) with true. cbn [negb].
  erewrite (bind_val (ret [hash])) by reflexivity.
  erewrite bind_val by (eapply dl_read_one; reflexivity).
  rewrite int_of_digit_byte by lia.
  erewrite (bind_val (of_outcome _)) by reflexivity.
  erewrite bind_val.
  2:{ eapply (dl_read_bytes _ _ _ (decimal_field dc n) tail).
      - reflexivity.
      - rewrite decimal_field_length. lia.
      - now rewrite decimal_field_length. }
  erewrite (bind_val (of_outcome _)) by reflexivity.
  rewrite int_of_decimal_field by lia.
  erewrite (bind_val (of_outcome _)) by reflexivity.
  rewrite Z.mod_small by lia. reflexivity.
Qed.

(** The payload of a frame with no terminator before it. *)
Lemma read_payload_frame s i b0 more :
  rx i = (b0 :: more) ++ [LF] ->
  read_payload (Z.of_nat (length (b0 :: more))) (set_inst (Some i) s)
  = (Val (inr (b0 :: more)), set_inst (Some (set_rx [] i)) s).
Proof.
  intros Hrx. unfold read_payload, try_except.
  rewrite (bind_val _ _ _ [b0] (set_inst (Some (set_rx (more ++ [LF]) i)) s))
    by (apply dl_read_one; exact Hrx).
  change (py_eq (PyBytes [b0]) (PyStr [nl])) with false. cbv iota.
  rewrite (bind_val _ _ _ (b0 :: more) (set_inst (Some (set_rx [LF] i)) s)).
  - rewrite (bind_val _ _ _ [LF] (set_inst (Some (set_rx [] i)) s)); [reflexivity|].
    apply (dl_read_one s (set_rx [LF] i) LF []). reflexivity.
  - destruct more as [|b1 more'].
    + rewrite (bind_val _ _ _ (@nil byte) (set_inst (Some (set_rx [LF] i)) s));
        [reflexivity|].
      apply (dl_read_none _ s (set_rx ([] ++ [LF]) i)). simpl. lia.
    + rewrite (bind_val _ _ _ (b1 :: more') (set_inst (Some (set_rx [LF] i)) s));
        [reflexivity|].
      apply (dl_read_bytes _ s (set_rx ((b1 :: more') ++ [LF]) i) (b1 :: more') [LF]).
      * reflexivity.
      * simpl. lia.
      * cbn [length]. lia.
Qed.

(** C1 (amended): block decode round-trip. Take a digit count from 1
    to 9 and a payload of at least one byte whose length fits that many
    digits and whose first byte is not the line terminator. The frame
    [#], digit count, decimal length, payload, terminator - no
    terminator between the length and the payload - is decoded by
    [capture] to exactly the payload, on a session whose instrument
    accepts the writes. *)
Theorem capture_block_roundtrip bus s i (digitcount : nat) (b0 : byte) (more : bytes) :
  let payload := b0 :: more in
  accepting i ->
  (1 <= digitcount <= 9)%nat ->
  Z.of_nat (length payload) < 10 ^ Z.of_nat digitcount ->
  b0 <> LF ->
  fst (capture bus (receiving s i (encode_block digitcount payload false)))
  = Val (true, TmpFile payload).
Proof.
  intros payload Hacc Hdc Hlen _. unfold capture, receiving.
  erewrite bind_val by apply connect_bound. cbn [negb].
  assert (Hacc0 : accepting (set_rx (encode_block digitcount payload false) i)) by exact Hacc.
  destruct (dl_write_accepted (lit "*CLS;;") s _ Hacc0) as (n1 & i1 & E1 & Ha1 & Hr1).
  destruct (dl_write_accepted (lit ":IMAGe:FORMat JPEG;") s _ Ha1) as (n2 & i2 & E2 & Ha2 & Hr2).
  destruct (dl_write_accepted (lit ":IMAGe:TONE COLor;") s _ Ha2) as (n3 & i3 & E3 & Ha3 & Hr3).
  destruct (dl_write_accepted (lit ":STOP;*WAI;") s _ Ha3) as (n4 & i4 & E4 & Ha4 & Hr4).
  assert (Ha5 : accepting (set_timeout 10000 i4)) by exact Ha4.
  destruct (dl_write_accepted (lit ":IMAGe:SEND?;") s _ Ha5) as (n6 & i6 & E6 & Ha6 & Hr6).
  assert (Hrx : rx i6 = encode_block digitcount payload false).
  { rewrite Hr6. cbn [rx set_timeout]. rewrite Hr4, Hr3, Hr2, Hr1. reflexivity. }
  assert (Ha7 : accepting (set_rx [] (set_rx (payload ++ [LF]) i6))) by exact Ha6.
  destruct (dl_write_accepted (lit "*WAI;*CLS;") s _ Ha7) as (n7 & i7 & E7 & _ & _).
  rewrite (bind_val _ _ _ _ _ E1), (bind_val _ _ _ _ _ E2), (bind_val _ _ _ _ _ E3),
    (bind_val _ _ _ _ _ E4).
  rewrite (bind_val _ _ _ tt (set_inst (Some (set_timeout 10000 i4)) s))
    by (rewrite with_inst_bound; reflexivity).
  rewrite (bind_val _ _ _ _ _ E6).
  rewrite (bind_val _ _ _ _ _
             (read_header_frame s i6 digitcount (Z.of_nat (length payload)) (payload ++ [LF])
                Hdc (conj (Nat2Z.is_nonneg _) Hlen) Hrx)).
  rewrite (bind_val _ _ _ _ _
             (read_payload_frame s (set_rx (payload ++ [LF]) i6) b0 more eq_refl)).
  rewrite (bind_val _ _ _ _ _ E7). reflexivity.
Qed.

(** C1, witness: four bytes under a six-digit length. *)
Lemma capture_block_roundtrip_witness :
  Demo.decode (encode_block 6 (Demo.ascii_bytes "JPEG") false)
  = Val (true, TmpFile (Demo.ascii_bytes "JPEG")).
Proof.
  apply (capture_block_roundtrip [] (Demo.connected (Demo.dl7480 [])) (Demo.dl7480 []) 6
           "J"%byte (Demo.ascii_bytes "PEG")).
  - constructor.
  - lia.
  - vm_compute. reflexivity.
  - discriminate.
Defined.

(** C1, counterexample: an empty payload with no terminator before it
    is the frame [#10] and a newline; the speculative read takes the
    closing terminator, the read after it times out, and no image comes
    back. *)
Lemma capture_empty_payload_times_out :
  Demo.decode (encode_block 1 [] false) = Val (false, Message (lit "timeout during capturing"))
  /\ Demo.decode (encode_block 1 [] false) <> Val (true, TmpFile []).
Proof. split; [vm_compute; reflexivity|vm_compute; discriminate]. Qed.

(** With the terminator before the payload the comparison of [d0], a
    bytes object, with the str ['\n'] is false like any other: the
    payload comes back shifted, the terminator first and the last byte
    lost. *)
Example capture_leading_terminator_shifts_payload :
  Demo.decode (encode_block 1 (Demo.ascii_bytes "HELLO") true)
  = Val (true, TmpFile (LF :: Demo.ascii_bytes "HELL")).
Proof. vm_compute. reflexivity. Qed.

Lemma write_rx_irrelevant msg v i :
  write msg (set_rx v i) = (fst (write msg i), set_rx v (snd (write msg i))).
Proof. unfold write. cbn. destruct (wscript i) as [|[] w]; reflexivity. Qed.

Lemma bind_write_rx {B} msg (k : Z -> M YokogawaDL7480 B) v i s :
  bind (with_inst (write msg)) k (set_inst (Some (set_rx v i)) s)
  = match fst (write msg i) with
    | Val n => k n (set_inst (Some (set_rx v (snd (write msg i)))) s)
    | Exc e => (Exc e, set_inst (Some (set_rx v (snd (write msg i)))) s)
    end.
Proof.
  unfold bind. rewrite with_inst_bound, write_rx_irrelevant. cbn [fst snd].
  destruct (fst (write msg i)); reflexivity.
Qed.

Lemma py_eq_marker b0 : b0 <> hash -> py_eq (PyBytes [b0]) (PyBytes ["#"%byte]) = false.
Proof.
  intros H. unfold py_eq. apply bool_decide_eq_false_2. intros [= E]. now apply H.
Qed.

(** A first byte that is not the marker costs one more byte, which is
    read and not looked at. *)
Lemma read_header_skips s j b0 b1 rest :
  b0 <> hash ->
  read_header (set_inst (Some (set_rx (b0 :: b1 :: rest) j)) s)
  = read_header (set_inst (Some (set_rx (hash :: rest) j)) s).
Proof.
  intros Hb. unfold read_header, try_except.
  rewrite (bind_val _ _ (set_inst (Some (set_rx (b0 :: b1 :: rest) j)) s) [b0]
             (set_inst (Some (set_rx (b1 :: rest) j)) s))
    by (apply (dl_read_one s (set_rx (b0 :: b1 :: rest) j) b0 (b1 :: rest)); reflexivity).
  rewrite (bind_val _ _ (set_inst (Some (set_rx (hash :: rest) j)) s) [hash]
             (set_inst (Some (set_rx rest j)) s))
    by (apply (dl_read_one s (set_rx (hash :: rest) j) hash rest); reflexivity).
  rewrite (py_eq_marker b0 Hb).
  change (py_eq (PyBytes [hash]) (PyBytes ["#"%byte])) with true. cbn [negb].
  rewrite (bind_val _ _ (set_inst (Some (set_rx (b1 :: rest) j)) s) [b1]
             (set_inst (Some (set_rx rest j)) s))
    by (apply (dl_read_one s (set_rx (b1 :: rest) j) b1 rest); reflexivity).
  rewrite (bind_val (ret [hash]) _ (set_inst (Some (set_rx rest j)) s) [hash]
             (set_inst (Some (set_rx rest j)) s)) by reflexivity.
  reflexivity.
Qed.

Ltac step_write :=
  match goal with
  | |- context [bind (with_inst (write ?msg)) ?k (set_inst (Some (set_rx ?v ?i)) ?s)] =>
      rewrite (bind_write_rx msg k v i s)
  end.

(** C7 (amended): marker tolerance. When the first byte of the reply
    is not [#], [capture] reads exactly one more byte and does not look
    at it: its result is the result for the reply that has [#] in place
    of those two bytes. A reply whose first two bytes both differ from
    [#] therefore fails only when what follows them fails. *)
Theorem capture_skips_one_unread_byte bus s i b0 b1 rest :
  b0 <> hash ->
  fst (capture bus (receiving s i (b0 :: b1 :: rest)))
  = fst (capture bus (receiving s i (hash :: rest))).
Proof.
  intros Hb. unfold capture, receiving.
  rewrite !(bind_val _ _ _ _ _ (connect_bound _ _ _)). cbn [negb].
  repeat step_write.
  destruct (write (lit "*CLS;;") i) as [[n1|e1] i1]; cbn [fst snd]; [|reflexivity].
  repeat step_write.
  destruct (write (lit ":IMAGe:FORMat JPEG;") i1) as [[n2|e2] i2]; cbn [fst snd]; [|reflexivity].
  repeat step_write.
  destruct (write (lit ":IMAGe:TONE COLor;") i2) as [[n3|e3] i3]; cbn [fst snd]; [|reflexivity].
  repeat step_write.
  destruct (write (lit ":STOP;*WAI;") i3) as [[n4|e4] i4]; cbn [fst snd]; [|reflexivity].
  rewrite (bind_val _ _ (set_inst (Some (set_rx (b0 :: b1 :: rest) i4)) s) tt
             (set_inst (Some (set_rx (b0 :: b1 :: rest) (set_timeout 10000 i4))) s))
    by (rewrite with_inst_bound; reflexivity).
  rewrite (bind_val _ _ (set_inst (Some (set_rx (hash :: rest) i4)) s) tt
             (set_inst (Some (set_rx (hash :: rest) (set_timeout 10000 i4))) s))
    by (rewrite with_inst_bound; reflexivity).
  repeat step_write.
  destruct (write (lit ":IMAGe:SEND?;") (set_timeout 10000 i4)) as [[n6|e6] i6];
    cbn [fst snd]; [|reflexivity].
  f_equal. apply bind_same. now apply read_header_skips.
Qed.

(** C7, witness. *)
Lemma capture_skips_one_unread_byte_witness :
  Demo.decode (Demo.ascii_bytes "xy13abc" ++ [LF])
  = Demo.decode (hash :: Demo.ascii_bytes "13abc" ++ [LF]).
Proof.
  apply (capture_skips_one_unread_byte [] (Demo.connected (Demo.dl7480 [])) (Demo.dl7480 [])
           "x"%byte "y"%byte (Demo.ascii_bytes "13abc" ++ [LF])).
  discriminate.
Defined.

(** C7, counterexample: two stray bytes, neither of them the marker,
    and the image is still produced. *)
Lemma capture_two_stray_bytes_decodes :
  Demo.decode (Demo.ascii_bytes "xy13abc" ++ [LF]) = Val (true, TmpFile (Demo.ascii_bytes "abc")).
Proof. vm_compute. reflexivity. Qed.

(** ** Sending one line *)




(** ** Saving and undoing *)



Ltac decide_closed_goal :=
  repeat match goal with
         | |- context [@bool_decide ?P ?d] =>
             let v := eval vm_compute in (@bool_decide P d) in
             match v with true => idtac | false => idtac end;
             change (@bool_decide P d) with v; cbn
         end.


(** No slot file is the backup file. *)
Lemma datfile_neq_bkupfile dir n : datfile dir n <> bkupfile dir.
Proof.
  unfold datfile, bkupfile. intros H. apply app_inv_head in H.
  cbn in H. injection H as H. revert H.
  unfold str_of_Z. destruct (Z.to_int n) as [u|u]; destruct u; cbn; discriminate.
Qed.




(** The slot held a file: [saveconfig] records the slot in [saveid],
    [undoSave] reads [lastSavedId], still -1 as [__init__] left it, and
    moves nothing; the old text stays in the backup. *)
Example undoSave_after_saveconfig_moves_nothing :
  let g := Demo.window (Demo.dl7480 []) (-1) {[Demo.slot 3 := lit "old"]} in
  let g1 := snd (saveconfig [] 3 g) in
  let g2 := snd (undoSave g1) in
  lastSavedId g1 = -1 /\ saveid g1 = Some 3
  /\ files g2 !! Demo.slot 3 = Some (Demo.snapshot (Demo.dl7480 []))
  /\ files g2 !! Demo.backup = Some (lit "old").
Proof.
  cbv zeta. split; [vm_compute; reflexivity|]. split; [vm_compute; reflexivity|].
  split; vm_compute; reflexivity.
Qed.

(** ** Loading and undoing *)

Lemma keeps_ret {A} (a : A) : keeps (ret a).
Proof. intros s r s' [= _ <-]. auto. Qed.

Lemma keeps_bind {A B} (m : M YokogawaDL7480 A) (k : A -> M YokogawaDL7480 B) :
  keeps m -> (forall a, keeps (k a)) -> keeps (bind m k).
Proof.
  intros Hm Hk s r s' H Hs. unfold bind in H.
  destruct (m s) as [[a|e] s1] eqn:E.
  - eapply Hk; [exact H|]. eapply Hm; eauto.
  - injection H as _ <-. eapply Hm; eauto.
Qed.

Lemma keeps_with_inst {A} (m : M Inst A) : keeps (with_inst m).
Proof.
  intros s r s' H Hs. unfold with_inst in H.
  destruct (inst s) as [i|]; [|now destruct Hs].
  destruct (m i). injection H as _ <-. discriminate.
Qed.

Lemma keeps_get : keeps get.
Proof. intros s r s' [= _ <-]. auto. Qed.

Lemma keeps_getopt arg : keeps (getopt arg).
Proof.
  unfold getopt. apply keeps_bind; [apply keeps_get|].
  intros self. destruct (inst self); apply keeps_ret.
Qed.

Lemma keeps_wai_line cmd : keeps (wai_line cmd).
Proof.
  unfold wai_line. apply keeps_bind; [apply keeps_with_inst|]. intros a. apply keeps_ret.
Qed.

Ltac keeps_step :=
  first [ apply keeps_ret | apply keeps_with_inst | apply keeps_getopt
        | apply keeps_wai_line | apply keeps_get
        | apply keeps_bind; [|intros ?]
        | match goal with |- keeps (if ?b then _ else _) => destruct b end ].

Lemma read_out_keeps_inst : keeps read_out.
Proof. unfold read_out. repeat keeps_step. Qed.

(** A read-out that returns leaves the handle in place. *)
Lemma getconfig_keeps_inst bus : keeps (getconfig bus).
Proof.
  intros s r s' H Hs.
  destruct (inst s) as [i|] eqn:Hi; [|now destruct Hs].
  unfold getconfig in H.
  rewrite (bind_val _ _ _ _ _ (no_device_some bus s i Hi)) in H. cbv iota in H.
  eapply read_out_keeps_inst; [exact H|]. now rewrite Hi.
Qed.

(** C5 (amended): loading a slot that does not exist. On a session
    that holds a handle and answers the read-out with [lrn],
    [loadconfig(n)] for a missing slot returns 0 and notifies that the
    slot file was not found; no numbered slot file changes, nothing is
    sent after the read-out and the handle's timeout is put back. The
    backup file does change: it is overwritten with [lrn]. *)
Theorem loadconfig_missing_slot bus n g i lrn d' :
  inst (dl7480 g) = Some i ->
  getconfig bus (set_inst (Some (set_timeout 10000 i)) (dl7480 g)) = (Val (true, lrn), d') ->
  files g !! datfile (cwd g) n = None ->
  exists g',
    loadconfig bus n g = (Val (Some 0), g')
    /\ notices g' = notices g ++ [datfile (cwd g) n ++ lit " not found."]
    /\ files g' = <[bkupfile (cwd g) := lrn]> (files g)
    /\ (forall m, files g' !! datfile (cwd g) m = files g !! datfile (cwd g) m)
    /\ inst (dl7480 g') = set_timeout (timeout i) <$> inst d'.
Proof.
  intros Hi Hg Hf.
  assert (Hd' : inst d' <> None).
  { eapply getconfig_keeps_inst; [exact Hg|]. discriminate. }
  destruct (inst d') as [i'|] eqn:Hi'; [clear Hd'|congruence].
  assert (Hslot : (<[bkupfile (cwd g) := lrn]> (files g)) !! datfile (cwd g) n = None).
  { rewrite lookup_insert_ne by (intros E; symmetry in E; revert E; apply datfile_neq_bkupfile).
    exact Hf. }
  unfold loadconfig, with_dl, changeCursor, setStatus, getStatus, notify, write_file,
    updateBtnUndoLoad, modify, bind, get, ret.
  cbn. rewrite (connect_some bus _ _ Hi). cbn. decide_closed_goal.
  unfold with_inst at 1. rewrite Hi. cbn.
  rewrite !set_inst_twice.
  rewrite Hg. cbn. rewrite Hslot. cbn.
  unfold with_inst. rewrite Hi'. cbn.
  eexists. split; [reflexivity|]. cbn.
  split; [reflexivity|]. split; [reflexivity|]. split; [|reflexivity].
  intros m. apply lookup_insert_ne.
  intros E. symmetry in E. revert E. apply datfile_neq_bkupfile.
Qed.

(** C5, witness: an empty directory. *)
Lemma loadconfig_missing_slot_witness :
  exists g',
    loadconfig [] 2 (Demo.window (Demo.dl7480 []) (-1) ∅) = (Val (Some 0), g')
    /\ notices g' = [] ++ [Demo.slot 2 ++ lit " not found."]
    /\ files g' = <[Demo.backup := Demo.snapshot (set_timeout 10000 (Demo.dl7480 []))]> ∅.
Proof.
  destruct (loadconfig_missing_slot [] 2 (Demo.window (Demo.dl7480 []) (-1) ∅)
              (Demo.dl7480 [])
              (Demo.snapshot (set_timeout 10000 (Demo.dl7480 [])))
              (snd (getconfig [] (set_inst (Some (set_timeout 10000 (Demo.dl7480 [])))
                                           (Demo.connected (Demo.dl7480 []))))))
    as (g' & H1 & H2 & H3 & _).
  - reflexivity.
  - vm_compute. reflexivity.
  - reflexivity.
  - exists g'. split; [exact H1|]. split; [exact H2|]. exact H3.
Defined.

(** C5, counterexample: there is no slot 2 and no backup; the load
    returns 0 and leaves a backup behind. *)
Lemma loadconfig_missing_slot_writes_backup :
  let g := Demo.window (Demo.dl7480 []) (-1) ∅ in
  let g' := snd (loadconfig [] 2 g) in
  files g !! Demo.backup = None
  /\ fst (loadconfig [] 2 g) = Val (Some 0)
  /\ files g' !! Demo.backup = Some (Demo.snapshot (set_timeout 10000 (Demo.dl7480 [])))
  /\ files g' !! Demo.backup <> files g !! Demo.backup.
Proof.
  cbv zeta. split; [reflexivity|]. split; [vm_compute; reflexivity|].
  assert (H : files (snd (loadconfig [] 2 (Demo.window (Demo.dl7480 []) (-1) ∅))) !! Demo.backup
              = Some (Demo.snapshot (set_timeout 10000 (Demo.dl7480 [])))).
  { vm_compute. reflexivity. }
  split; [exact H|]. rewrite H. discriminate.
Qed.

(** C6, the code at the failing input: the backup holds two lines;
    both are sent, then the call to [shutil.remove] raises, the backup
    stays and the undo button is left as it was. *)
Lemma undoLoad_raises_and_keeps_backup :
  let text := lit ":STOP;" ++ [nl] ++ lit "*WAI;:X:Y 1;" ++ [nl] in
  let g := Demo.window (Demo.dl7480 []) (-1) {[Demo.backup := text]} in
  let g' := snd (undoLoad [] 2 g) in
  fst (undoLoad [] 2 g) = Exc AttributeError
  /\ files g' !! Demo.backup = Some text
  /\ (sent <$> inst (dl7480 g'))
     = Some [(20000, lit ":STOP;" ++ [nl]); (20000, lit "*WAI;:X:Y 1;" ++ [nl])]
  /\ btnUndoLoad g' = btnUndoLoad g.
Proof.
  cbv zeta. split; [vm_compute; reflexivity|]. split; [vm_compute; reflexivity|].
  split; vm_compute; reflexivity.
Qed.

(** With no backup file [undoLoad] notifies that it was not found and
    touches nothing else: nothing is sent. *)
Theorem undoLoad_no_backup bus arg g :
  files g !! bkupfile (cwd g) = None ->
  undoLoad bus arg g
  = (Val tt, set_notices (notices g ++ [bkupfile (cwd g) ++ lit " not found."]) g).
Proof. intros H. unfold undoLoad, bind, get. now rewrite H. Qed.

(** Witness: an empty directory. *)
Lemma undoLoad_no_backup_witness :
  undoLoad [] 2 (Demo.window (Demo.dl7480 []) (-1) ∅)
  = (Val tt, set_notices ([] ++ [Demo.backup ++ lit " not found."])
               (Demo.window (Demo.dl7480 []) (-1) ∅)).
Proof.
  apply (undoLoad_no_backup [] 2 (Demo.window (Demo.dl7480 []) (-1) ∅)). reflexivity.
Defined.

(** ** Discovery and teardown *)

Lemma query_keeps msg i r i' :
  query msg i = (r, i') -> closed i' = closed i /\ address i' = address i.
Proof.
  unfold query, bind, write, read_reply. intros H.
  destruct i as [a t d tc wt rt q c rp ws rxb se]. cbn in *.
  destruct ws as [|[] w]; cbn in H;
    try destruct (rp msg); cbn in H; injection H as _ <-; auto.
Qed.

Lemma bind_device_spec name dev s r s' :
  bind_device name dev s = (r, s') ->
  rm s' = rm s
  /\ exists i, inst s' = Some i /\ closed i = closed dev /\ address i = address dev.
Proof.
  unfold bind_device, bind, modify, with_inst. cbn. intros H.
  match type of H with
  | context [query ?m ?d] => destruct (query m d) as [[o|e] i2] eqn:Eq
  end;
    apply query_keeps in Eq as [Hc Ha]; cbn in Hc, Ha;
    injection H as _ <-; cbn; eauto.
Qed.

Lemma open_resource_spec src r0 o r1 :
  open_resource src r0 = (o, r1) ->
  (exists dev, o = Val dev /\ closed dev = false /\ address dev = src
               /\ r1 = mkRM (resources r0) (opened r0 ++ [src]) (rm_closed r0))
  \/ (o = Exc VisaIOError /\ r1 = r0).
Proof.
  unfold open_resource. intros H.
  destruct (find _ (resources r0)) as [d|] eqn:Ef.
  - left. apply find_some in Ef as [_ Hd]. apply bool_decide_eq_true_1 in Hd.
    injection H as <- <-. exists (set_closed false d). auto.
  - right. injection H as <- <-. auto.
Qed.

(** What the scan leaves behind: every candidate it reached is in the
    table of open sessions, and the handle it bound, if any, is the last
    of them. *)
Lemma scan_spec l :
  forall s r s' r0,
    inst s = None -> rm s = Some r0 -> scan l s = (r, s') ->
    exists r1 scanned rest,
      rm s' = Some r1 /\ l = scanned ++ rest
      /\ opened r1 = opened r0 ++ scanned
      /\ rm_closed r1 = rm_closed r0
      /\ (forall i, inst s' = Some i ->
            closed i = false /\ exists before, scanned = before ++ [address i])
      /\ (r = Val tt -> inst s' = None -> rest = []).
Proof.
  induction l as [|src l IH]; intros s r s' r0 Hi Hr H.
  - cbn [scan] in H. unfold ret in H. injection H as <- <-.
    exists r0, [], []. rewrite !app_nil_r, Hi.
    repeat split; auto; discriminate.
  - cbn [scan] in H. unfold bind at 1, get at 1 in H. rewrite Hi in H.
    unfold bind at 1, with_rm at 1 in H. rewrite Hr in H.
    destruct (open_resource src r0) as [o r1] eqn:Eo.
    apply open_resource_spec in Eo as [(dev & -> & Hc & Ha & ->)|[-> ->]].
    2:{ injection H as <- <-. exists r0, [], (src :: l). cbn. rewrite !app_nil_r, Hi.
        repeat split; auto; discriminate. }
    set (s1 := set_rm (Some (mkRM (resources r0) (opened r0 ++ [src]) (rm_closed r0))) s) in H.
    assert (Hrec : forall r s',
      scan l s1 = (r, s') ->
      exists r1 scanned rest,
        rm s' = Some r1 /\ src :: l = scanned ++ rest
        /\ opened r1 = opened r0 ++ scanned
        /\ rm_closed r1 = rm_closed r0
        /\ (forall i, inst s' = Some i ->
              closed i = false /\ exists before, scanned = before ++ [address i])
        /\ (r = Val tt -> inst s' = None -> rest = [])).
    { intros r2 s2 Hs.
      destruct (IH s1 r2 s2 _ Hi eq_refl Hs) as (r3 & sc & rest & H1 & H2 & H3 & H4 & H5 & H6).
      exists r3, (src :: sc), rest. cbn in H3. rewrite <- app_assoc in H3.
      split; [exact H1|]. split; [now rewrite H2|]. split; [exact H3|].
      split; [exact H4|]. split; [|exact H6].
      intros i Hin. destruct (H5 i Hin) as [Hcl [before ->]].
      split; [exact Hcl|]. exists (src :: before). reflexivity. }
    destruct (query (lit "*IDN?;") (set_read_termination [nl] (set_write_termination [nl] dev)))
      as [[idn|e] dev'] eqn:Eq; [|now apply Hrec].
    apply query_keeps in Eq as [Hc' Ha']. cbn in Hc', Ha'.
    assert (Hbound : forall name,
      bind_device name dev' s1 = (r, s') ->
      exists r1 scanned rest,
        rm s' = Some r1 /\ src :: l = scanned ++ rest
        /\ opened r1 = opened r0 ++ scanned
        /\ rm_closed r1 = rm_closed r0
        /\ (forall i, inst s' = Some i ->
              closed i = false /\ exists before, scanned = before ++ [address i])
        /\ (r = Val tt -> inst s' = None -> rest = [])).
    { intros name Hb. apply bind_device_spec in Hb as [Hrm (i & Hi' & Hci & Hai)].
      exists (mkRM (resources r0) (opened r0 ++ [src]) (rm_closed r0)), [src], l.
      split; [now rewrite Hrm|]. split; [reflexivity|]. split; [reflexivity|].
      split; [reflexivity|]. split.
      - intros j Hj. rewrite Hi' in Hj. injection Hj as <-.
        split; [congruence|]. exists []. cbn. congruence.
      - intros _ Hnone. congruence. }
    destruct (re_match pat_DL7440 idn); [now apply (Hbound (lit "DL7440"))|].
    destruct (re_match pat_DL7480 idn); [now apply (Hbound (lit "DL7480"))|].
    now apply Hrec.
Qed.




(** C10, the code at the failing input: [closeinst] on a connected
    session drops the handle and keeps the device family, which breaks
    the identity invariant; [__del__] on the same session clears it. *)
Lemma closeinst_keeps_devname :
  let s := Demo.connected (Demo.dl7480 []) in
  inst (snd (closeinst s)) = None
  /\ devname (snd (closeinst s)) = lit "DL7480"
  /\ ~ identified (snd (closeinst s))
  /\ devname (snd (del s)) = [].
Proof.
  cbv zeta. split; [reflexivity|]. split; [reflexivity|]. split; [|reflexivity].
  intros [H _]. apply H; [discriminate|reflexivity].
Qed.

(** [__del__] never raises and leaves neither handle nor manager; on a
    session that held a handle it clears the device family and the
    options. *)
Theorem del_clears_session s :
  fst (del s) = Val tt
  /\ inst (snd (del s)) = None
  /\ rm (snd (del s)) = None
  /\ (inst s <> None -> devname (snd (del s)) = [] /\ opt (snd (del s)) = []).
Proof.
  destruct s as [[r0|] [i|] dn op]; cbn;
    (split; [reflexivity|]); (split; [reflexivity|]); (split; [reflexivity|]);
    intros Hne; try (now destruct Hne); auto.
Qed.

(** Witness. *)
Lemma del_clears_session_witness :
  devname (snd (del (Demo.connected (Demo.dl7480 [])))) = []
  /\ opt (snd (del (Demo.connected (Demo.dl7480 [])))) = [].
Proof.
  apply (proj2 (proj2 (proj2 (del_clears_session (Demo.connected (Demo.dl7480 [])))))).
  discriminate.
Defined.

(** * Further properties *)

Import Discovery Frame ReadOut Wire Replay.

(** ** Discovery, continued *)

(** What a query does to the instrument. *)
Lemma query_post msg i r i' :
  query msg i = (r, i') ->
  i' = set_wscript (tl (wscript i)) (set_sent (sent i ++ [(timeout i, msg)]) i)
  /\ (forall x, r = Val x -> reply i msg = Some x)
  /\ (forall e, r = Exc e -> e = VisaIOError).
Proof.
  unfold query, bind, write, read_reply. intros H.
  destruct i as [a t d tc wt rt q c rp ws rxb se]. cbn in *.
  destruct ws as [|[] w]; cbn in H;
    try (destruct (rp msg) eqn:Er; cbn in H); injection H as <- <-;
    (split; [reflexivity|]); split; intros ? [= <-]; auto.
Qed.

(** What binding a device leaves in the session. *)
Lemma bind_device_post name dev s r s' :
  bind_device name dev s = (r, s') ->
  devname s' = name /\ rm s' = rm s
  /\ (exists i, inst s' = Some i
        /\ address i = address dev /\ closed i = closed dev
        /\ delay i = 100 /\ timeout i = 5000 /\ term_char i = Some [nl]
        /\ write_termination i = write_termination dev
        /\ read_termination i = read_termination dev
        /\ reply i = reply dev)
  /\ ((r = Val tt /\ exists o, reply dev (lit "*OPT?;") = Some o /\ opt s' = strip o)
      \/ (r = Exc VisaIOError /\ opt s' = opt s)).
Proof.
  unfold bind_device, bind, modify, with_inst. cbn. intros H.
  match type of H with
  | context [query ?m ?d] => destruct (query m d) as [[o|e] i2] eqn:Eq
  end; apply query_post in Eq as (-> & Hv & He); injection H as <- <-; cbn.
  - split; [reflexivity|]. split; [reflexivity|]. split.
    + eexists. split; [reflexivity|]. cbn. repeat split; reflexivity.
    + left. split; [reflexivity|]. exists o. split; [|reflexivity].
      apply (Hv o eq_refl).
  - split; [reflexivity|]. split; [reflexivity|]. split.
    + eexists. split; [reflexivity|]. cbn. repeat split; reflexivity.
    + right. split; [|reflexivity]. f_equal. apply (He e eq_refl).
Qed.

Lemma find_address bus a :
  In a (map address bus) ->
  exists dev, List.find (fun i => bool_decide (address i = a)) bus = Some dev
              /\ address dev = a.
Proof.
  induction bus as [|d bus IH]; [now intros []|]. cbn [map In List.find].
  intros H. destruct (bool_decide (address d = a)) eqn:E.
  - apply bool_decide_eq_true_1 in E. eauto.
  - apply bool_decide_eq_false_1 in E. destruct H as [H|H]; [contradiction|auto].
Qed.

Lemma usb_addresses_found bus a : In a (usb_addresses bus) -> In a (map address bus).
Proof. unfold usb_addresses. intros H. now apply filter_In in H as [H _]. Qed.

(** One turn of the loop of [connect] on a candidate that does not
    identify itself as a DL74x0: it is opened and left. *)
Lemma scan_skip src l s r0 :
  inst s = None -> rm s = Some r0 ->
  In src (map address (resources r0)) ->
  identifies (resources r0) src = false ->
  scan (src :: l) s
  = scan l (set_rm (Some (mkRM (resources r0) (opened r0 ++ [src]) (rm_closed r0))) s).
Proof.
  intros Hi Hr Hin Hid. cbn [scan]. unfold bind at 1, get at 1. rewrite Hi.
  unfold bind at 1, with_rm at 1. rewrite Hr. unfold open_resource.
  unfold identifies in Hid.
  destruct (find_address _ _ Hin) as (dev & Hf & _). rewrite Hf in Hid |- *.
  unfold prepared in Hid.
  destruct (query (lit "*IDN?;") _) as [[idn|e] dev']; cbn [fst] in Hid; [|reflexivity].
  apply orb_false_iff in Hid as [-> ->]. reflexivity.
Qed.

(** One turn on a candidate that does: it is bound. *)
Lemma scan_hit src l s r0 :
  inst s = None -> rm s = Some r0 ->
  identifies (resources r0) src = true ->
  exists dev idn dev',
    List.find (fun i => bool_decide (address i = src)) (resources r0) = Some dev
    /\ query (lit "*IDN?;") (prepared (set_closed false dev)) = (Val idn, dev')
    /\ (re_match pat_DL7440 idn || re_match pat_DL7480 idn = true)
    /\ scan (src :: l) s
       = bind_device (family idn) dev'
           (set_rm (Some (mkRM (resources r0) (opened r0 ++ [src]) (rm_closed r0))) s).
Proof.
  intros Hi Hr Hid. unfold identifies in Hid.
  destruct (List.find _ (resources r0)) as [dev|] eqn:Hf; [|discriminate].
  destruct (query (lit "*IDN?;") (prepared (set_closed false dev))) as [[idn|e] dev'] eqn:Eq;
    cbn [fst] in Hid; [|discriminate].
  exists dev, idn, dev'. split; [reflexivity|]. split; [exact Eq|]. split; [exact Hid|].
  cbn [scan]. unfold bind at 1, get at 1. rewrite Hi.
  unfold bind at 1, with_rm at 1. rewrite Hr. unfold open_resource. rewrite Hf.
  unfold prepared in Eq. cbn [fst snd]. rewrite Eq.
  unfold family. destruct (re_match pat_DL7440 idn); [reflexivity|].
  cbn [orb] in Hid. rewrite Hid. reflexivity.
Qed.

Lemma identifies_dec bus a : {identifies bus a = true} + {identifies bus a = false}.
Proof. destruct (identifies bus a); auto. Qed.

(** What the scan leaves in the session. *)
Lemma scan_post l :
  forall s r s' r0,
    inst s = None -> rm s = Some r0 ->
    Forall (fun a => In a (map address (resources r0))) l ->
    scan l s = (r, s') ->
    (r = Val tt /\ inst s' = None /\ devname s' = devname s /\ opt s' = opt s
     /\ Forall (fun a => identifies (resources r0) a = false) l)
    \/ (exists i idn,
          inst s' = Some i /\ In (address i) l
          /\ reply i (lit "*IDN?;") = Some idn
          /\ (re_match pat_DL7440 idn || re_match pat_DL7480 idn = true)
          /\ devname s' = family idn
          /\ closed i = false /\ delay i = 100 /\ timeout i = 5000
          /\ term_char i = Some [nl]
          /\ write_termination i = [nl] /\ read_termination i = [nl]
          /\ ((r = Val tt /\ exists o, reply i (lit "*OPT?;") = Some o /\ opt s' = strip o)
              \/ (r = Exc VisaIOError /\ opt s' = opt s))).
Proof.
  induction l as [|src l IH]; intros s r s' r0 Hi Hr Hall H.
  - cbn in H. injection H as <- <-. left. auto.
  - inversion Hall as [|? ? Hin Hall']; subst.
    destruct (identifies_dec (resources r0) src) as [Hid|Hid].
    + right.
      destruct (scan_hit src l s r0 Hi Hr Hid) as (dev & idn & dev' & Hf & Eq & Hm & Hs).
      rewrite Hs in H. apply bind_device_post in H
        as (Hn & _ & (i & Hi' & Ha & Hc & Hd & Ht & Htc & Hw & Hrt & Hrp) & Hopt).
      apply query_post in Eq as (-> & Hv & _). cbn in Ha, Hc, Hw, Hrt, Hrp.
      apply find_some in Hf as [_ Hf]. apply bool_decide_eq_true_1 in Hf.
      exists i, idn. split; [exact Hi'|]. split; [left; congruence|].
      split; [rewrite Hrp; apply (Hv idn eq_refl)|]. split; [exact Hm|].
      split; [exact Hn|]. split; [exact Hc|]. split; [exact Hd|]. split; [exact Ht|].
      split; [exact Htc|]. split; [exact Hw|]. split; [exact Hrt|].
      destruct Hopt as [[-> (o & Ho & Hso)]|[-> Hso]].
      * left. split; [reflexivity|]. exists o. rewrite Hrp. auto.
      * right. auto.
    + rewrite (scan_skip src l s r0 Hi Hr Hin Hid) in H.
      apply IH with (r0 := mkRM (resources r0) (opened r0 ++ [src]) (rm_closed r0)) in H;
        [|exact Hi|reflexivity|exact Hall'].
      cbn [resources] in H.
      destruct H as [(-> & H1 & H2 & H3 & H4)|(i & idn & H1 & H2 & H3)].
      * left. split; [reflexivity|]. split; [exact H1|]. split; [exact H2|].
        split; [exact H3|]. constructor; assumption.
      * right. exists i, idn. split; [exact H1|]. split; [now right|]. exact H3.
Qed.

(** [connect] on a session with no handle is the scan of the USB
    resources, its answer read off the handle the scan left. *)
Lemma connect_scan bus s :
  inst s = None ->
  connect bus s
  = (let out := scan (usb_addresses bus) (set_rm (Some (mkRM bus [] false)) s) in
     (match fst out with
      | Val _ => Val (match inst (snd out) with Some _ => true | None => false end)
      | Exc e => Exc e
      end, snd out)).
Proof.
  intros Hi. rewrite (connect_none bus s Hi). unfold bind at 1.
  destruct (scan _ _) as [[[]|e] s1]; cbn [fst snd]; [|reflexivity].
  unfold bind, get, ret. now destruct (inst s1).
Qed.

Lemma usb_addresses_all_found bus :
  Forall (fun a => In a (map address bus)) (usb_addresses bus).
Proof. apply List.Forall_forall. intros a. apply usb_addresses_found. Qed.

(** The two ways [connect] ends on a session with no handle. *)
Lemma connect_post bus s r s' :
  inst s = None -> connect bus s = (r, s') ->
  rm s' <> None
  /\ ((r = Val false /\ inst s' = None /\ devname s' = devname s /\ opt s' = opt s
       /\ Forall (fun a => identifies bus a = false) (usb_addresses bus))
      \/ (exists i idn,
            inst s' = Some i /\ In (address i) (usb_addresses bus)
            /\ reply i (lit "*IDN?;") = Some idn
            /\ (re_match pat_DL7440 idn || re_match pat_DL7480 idn = true)
            /\ devname s' = family idn
            /\ closed i = false /\ delay i = 100 /\ timeout i = 5000
            /\ term_char i = Some [nl]
            /\ write_termination i = [nl] /\ read_termination i = [nl]
            /\ ((r = Val true /\ exists o, reply i (lit "*OPT?;") = Some o /\ opt s' = strip o)
                \/ (r = Exc VisaIOError /\ opt s' = opt s)))).
Proof.
  intros Hi H. rewrite (connect_scan bus s Hi) in H. cbv zeta in H.
  destruct (scan (usb_addresses bus) (set_rm (Some (mkRM bus [] false)) s)) as [r1 s1] eqn:Es.
  cbn [fst snd] in H. injection H as <- <-.
  split.
  - destruct (scan_spec (usb_addresses bus) (set_rm (Some (mkRM bus [] false)) s) _ _
                (mkRM bus [] false) Hi eq_refl Es) as (r2 & ? & ? & -> & _).
    discriminate.
  - apply scan_post with (r0 := mkRM bus [] false) in Es;
      [|exact Hi|reflexivity|apply usb_addresses_all_found].
    cbn [resources] in Es.
    destruct Es as [(-> & H1 & H2 & H3 & H4)|(i & idn & H1 & H2 & H3 & H4 & H5 & H6)].
    + left. rewrite H1. auto.
    + right. exists i, idn. rewrite H1.
      split; [reflexivity|]. split; [exact H2|]. split; [exact H3|]. split; [exact H4|].
      split; [exact H5|].
      destruct H6 as (H6 & H7 & H8 & H9 & H10 & H11 & Hopt).
      split; [exact H6|]. split; [exact H7|]. split; [exact H8|]. split; [exact H9|].
      split; [exact H10|]. split; [exact H11|].
      destruct Hopt as [[-> Ho]|[-> Ho]]; [left|right]; auto.
Qed.

Lemma connect_answer bus s b s' :
  connect bus s = (Val b, s') -> (b = true <-> inst s' <> None).
Proof.
  intros H. destruct (inst s) as [i|] eqn:Hi.
  - rewrite (connect_some bus s i Hi) in H. injection H as <- <-.
    rewrite Hi. split; [discriminate|reflexivity].
  - rewrite (connect_scan bus s Hi) in H. cbv zeta in H.
    destruct (scan _ _) as [[[]|e] s1]; cbn [fst snd] in H; [|discriminate].
    injection H as <- <-. destruct (inst s1); split; congruence.
Qed.

(** [connect] answers [True] exactly when the session holds a handle
    afterwards, and once it has answered [True] every later call
    answers [True] at once, whatever is attached, and changes nothing. *)
Theorem connect_true_iff_bound bus s b s' :
  connect bus s = (Val b, s') ->
  (b = true <-> inst s' <> None)
  /\ (b = true -> forall bus', connect bus' s' = (Val true, s')).
Proof.
  intros H. pose proof (connect_answer bus s b s' H) as Hiff.
  split; [exact Hiff|]. intros Hb bus'.
  apply Hiff in Hb. destruct (inst s') as [i|] eqn:Hi'; [|congruence].
  now apply connect_some with i.
Qed.

(** Witness: the oscilloscope alone on the bus. *)
Lemma connect_true_iff_bound_witness :
  inst (snd (connect [Demo.dl7480 []] DL.init)) <> None.
Proof.
  apply (connect_true_iff_bound [Demo.dl7480 []] DL.init true
           (snd (connect [Demo.dl7480 []] DL.init))); [|reflexivity].
  apply fst_snd_eq. vm_compute. reflexivity.
Defined.

(** A successful [connect] on a session with no handle: the handle is
    one of the USB resources, it answered [*IDN?;] with a string one of
    the two patterns accepts, the family is read off that string, the
    options are its answer to [*OPT?;] with the white space around it
    removed, and the handle is open with a delay of 100 ms, a timeout
    of 5000 ms and the newline as terminator for reading and writing. *)
Theorem connect_sets_up_handle bus s s' :
  inst s = None -> connect bus s = (Val true, s') ->
  exists i idn o,
    inst s' = Some i /\ In (address i) (usb_addresses bus)
    /\ reply i (lit "*IDN?;") = Some idn
    /\ (re_match pat_DL7440 idn || re_match pat_DL7480 idn = true)
    /\ devname s' = (if re_match pat_DL7440 idn then lit "DL7440" else lit "DL7480")
    /\ reply i (lit "*OPT?;") = Some o /\ opt s' = strip o
    /\ closed i = false /\ delay i = 100 /\ timeout i = 5000
    /\ term_char i = Some [nl]
    /\ write_termination i = [nl] /\ read_termination i = [nl].
Proof.
  intros Hi H. apply connect_post in H as [_ [(H & _)|(i & idn & H1 & H2 & H3 & H4 & H5 & H6)]];
    [discriminate| |exact Hi].
  destruct H6 as (H6 & H7 & H8 & H9 & H10 & H11 & [[_ (o & Ho & Hso)]|[H _]]); [|discriminate].
  exists i, idn, o. unfold family in H5. tauto.
Qed.

(** Witness: a meter and the oscilloscope on the bus. *)
Lemma connect_sets_up_handle_witness :
  exists i idn o,
    inst (snd (connect [Demo.meter; Demo.dl7480 []] DL.init)) = Some i
    /\ In (address i) (usb_addresses [Demo.meter; Demo.dl7480 []])
    /\ reply i (lit "*IDN?;") = Some idn
    /\ (re_match pat_DL7440 idn || re_match pat_DL7480 idn = true)
    /\ devname (snd (connect [Demo.meter; Demo.dl7480 []] DL.init))
       = (if re_match pat_DL7440 idn then lit "DL7440" else lit "DL7480")
    /\ reply i (lit "*OPT?;") = Some o
    /\ opt (snd (connect [Demo.meter; Demo.dl7480 []] DL.init)) = strip o
    /\ closed i = false /\ delay i = 100 /\ timeout i = 5000
    /\ term_char i = Some [nl]
    /\ write_termination i = [nl] /\ read_termination i = [nl].
Proof.
  apply (connect_sets_up_handle [Demo.meter; Demo.dl7480 []] DL.init); [reflexivity|].
  apply fst_snd_eq. vm_compute. reflexivity.
Defined.

(** Every resource listed opens, so the only exception that leaves
    [connect] is the transport's, and it leaves it when the instrument
    that identified itself does not answer [*OPT?;]: the session is then bound all the same, with its
    family recorded and its options as they were, and the next
    [connect] answers [True] without asking again. *)
Theorem connect_raises_bound bus s e s' :
  connect bus s = (Exc e, s') ->
  e = VisaIOError
  /\ (exists i, inst s' = Some i /\ In (address i) (usb_addresses bus))
  /\ (devname s' = lit "DL7440" \/ devname s' = lit "DL7480")
  /\ opt s' = opt s
  /\ connect bus s' = (Val true, s').
Proof.
  intros H. destruct (inst s) as [i0|] eqn:Hi.
  { rewrite (connect_some bus s i0 Hi) in H. discriminate. }
  apply connect_post in H as [_ [(H & _)|(i & idn & H1 & H2 & H3 & H4 & H5 & H6)]];
    [discriminate| |exact Hi].
  destruct H6 as (_ & _ & _ & _ & _ & _ & [[H _]|[H Ho]]); [discriminate|].
  injection H as ->. split; [reflexivity|]. split; [eauto|].
  split; [unfold family in H5; destruct (re_match pat_DL7440 idn); auto|].
  split; [exact Ho|]. now apply connect_some with i.
Qed.

(** Witness: an oscilloscope that identifies itself and then stays
    silent. *)
Lemma connect_raises_bound_witness :
  connect [Rig.silent] (snd (connect [Rig.silent] DL.init))
  = (Val true, snd (connect [Rig.silent] DL.init)).
Proof.
  apply (connect_raises_bound [Rig.silent] DL.init VisaIOError).
  apply fst_snd_eq. vm_compute. reflexivity.
Defined.

(** The scan binds the first candidate that identifies itself. *)
Lemma scan_first_match before :
  forall s r0 src rest,
    inst s = None -> rm s = Some r0 ->
    Forall (fun a => In a (map address (resources r0))) before ->
    Forall (fun a => identifies (resources r0) a = false) before ->
    identifies (resources r0) src = true ->
    exists i r1,
      inst (snd (scan (before ++ src :: rest) s)) = Some i /\ address i = src
      /\ rm (snd (scan (before ++ src :: rest) s)) = Some r1
      /\ opened r1 = opened r0 ++ before ++ [src].
Proof.
  induction before as [|a before IH]; intros s r0 src rest Hi Hr Hin Hno Hid.
  - cbn [app].
    destruct (scan_hit src rest s r0 Hi Hr Hid) as (dev & idn & dev' & Hf & Eq & _ & ->).
    destruct (bind_device _ _ _) as [r s'] eqn:Eb.
    apply bind_device_post in Eb as (_ & Hrm & (i & Hi' & Ha & _) & _).
    apply query_post in Eq as (-> & _). cbn in Ha.
    apply find_some in Hf as [_ Hf]. apply bool_decide_eq_true_1 in Hf.
    exists i, (mkRM (resources r0) (opened r0 ++ [src]) (rm_closed r0)). cbn [snd].
    split; [exact Hi'|]. split; [congruence|]. split; [now rewrite Hrm|reflexivity].
  - inversion Hin as [|? ? Ha Hin']; subst. inversion Hno as [|? ? Hna Hno']; subst.
    cbn [app]. rewrite (scan_skip a _ s r0 Hi Hr Ha Hna).
    destruct (IH (set_rm (Some (mkRM (resources r0) (opened r0 ++ [a]) (rm_closed r0))) s)
                (mkRM (resources r0) (opened r0 ++ [a]) (rm_closed r0)) src rest
                Hi eq_refl Hin' Hno' Hid) as (i & r1 & H1 & H2 & H3 & H4).
    exists i, r1. split; [exact H1|]. split; [exact H2|]. split; [exact H3|].
    rewrite H4. cbn [opened]. now rewrite <- app_assoc.
Qed.

(** [connect] binds the first USB resource, in the order the resource
    manager lists them, that identifies itself as a DL74x0: the
    resources listed before it are opened and passed over, the ones
    after it are not opened. *)
Theorem connect_binds_first_match bus s before src rest :
  inst s = None ->
  usb_addresses bus = before ++ src :: rest ->
  Forall (fun a => identifies bus a = false) before ->
  identifies bus src = true ->
  exists i r1,
    inst (snd (connect bus s)) = Some i /\ address i = src
    /\ rm (snd (connect bus s)) = Some r1 /\ opened r1 = before ++ [src]
    /\ fst (connect bus s) <> Val false.
Proof.
  intros Hi Hl Hno Hid. rewrite (connect_scan bus s Hi). cbv zeta. cbn [fst snd].
  rewrite Hl.
  assert (Hin : Forall (fun a => In a (map address bus)) before).
  { pose proof (usb_addresses_all_found bus) as H. rewrite Hl in H.
    now apply Forall_app in H as [H _]. }
  destruct (scan_first_match before (set_rm (Some (mkRM bus [] false)) s) (mkRM bus [] false)
              src rest Hi eq_refl Hin Hno Hid) as (i & r1 & H1 & H2 & H3 & H4).
  exists i, r1. split; [exact H1|]. split; [exact H2|]. split; [exact H3|]. split; [exact H4|].
  rewrite H1. destruct (fst _); discriminate.
Qed.

(** Witness: the meter is listed first and passed over. *)
Lemma connect_binds_first_match_witness :
  exists i r1,
    inst (snd (connect [Demo.meter; Demo.dl7480 []; Rig.silent] DL.init)) = Some i
    /\ address i = address (Demo.dl7480 [])
    /\ rm (snd (connect [Demo.meter; Demo.dl7480 []; Rig.silent] DL.init)) = Some r1
    /\ opened r1 = [address Demo.meter] ++ [address (Demo.dl7480 [])]
    /\ fst (connect [Demo.meter; Demo.dl7480 []; Rig.silent] DL.init) <> Val false.
Proof.
  apply (connect_binds_first_match [Demo.meter; Demo.dl7480 []; Rig.silent] DL.init
           [address Demo.meter] (address (Demo.dl7480 [])) [address Rig.silent]).
  - reflexivity.
  - vm_compute. reflexivity.
  - constructor; [vm_compute; reflexivity|constructor].
  - vm_compute. reflexivity.
Defined.

Lemma scan_no_match l :
  forall s r0,
    inst s = None -> rm s = Some r0 ->
    Forall (fun a => In a (map address (resources r0))) l ->
    Forall (fun a => identifies (resources r0) a = false) l ->
    fst (scan l s) = Val tt /\ inst (snd (scan l s)) = None.
Proof.
  induction l as [|a l IH]; intros s r0 Hi Hr Hin Hno; [now split|].
  inversion Hin; subst. inversion Hno; subst.
  rewrite (scan_skip a l s r0 Hi Hr) by assumption.
  now apply IH with (r0 := mkRM (resources r0) (opened r0 ++ [a]) (rm_closed r0)).
Qed.

(** [connect] answers [False] exactly when no USB resource identifies
    itself as a DL74x0; the session is then as it was, but for the
    resource manager. *)
Theorem connect_false_iff_no_match bus s :
  inst s = None ->
  (fst (connect bus s) = Val false
   <-> Forall (fun a => identifies bus a = false) (usb_addresses bus))
  /\ (fst (connect bus s) = Val false ->
      snd (connect bus s) = set_rm (rm (snd (connect bus s))) s).
Proof.
  intros Hi. split; [split|].
  - destruct (connect bus s) as [r s'] eqn:Ec. cbn [fst].
    pose proof (connect_post bus s r s' Hi Ec) as [_ Hp].
    intros ->. destruct Hp as [(_ & _ & _ & _ & H)|(i & idn & _ & _ & _ & _ & _ & H)];
      [exact H|].
    destruct H as (_ & _ & _ & _ & _ & _ & [[H _]|[H _]]); discriminate.
  - intros Hall. rewrite (connect_scan bus s Hi). cbv zeta. cbn [fst].
    destruct (scan_no_match (usb_addresses bus) (set_rm (Some (mkRM bus [] false)) s)
                (mkRM bus [] false) Hi eq_refl (usb_addresses_all_found bus) Hall)
      as [-> ->].
    reflexivity.
  - destruct (connect bus s) as [r s'] eqn:Ec. cbn [fst snd].
    pose proof (connect_post bus s r s' Hi Ec) as [_ Hp].
    intros ->. destruct Hp as [(_ & H1 & H2 & H3 & _)|(i & idn & _ & _ & _ & _ & _ & H)].
    + destruct s as [r0 i0 dn op], s' as [r1 i1 dn1 op1]. cbn in *. subst. reflexivity.
    + destruct H as (_ & _ & _ & _ & _ & _ & [[H _]|[H _]]); discriminate.
Qed.

(** Witness: only a meter is attached. *)
Lemma connect_false_iff_no_match_witness :
  fst (connect [Demo.meter] DL.init) = Val false.
Proof.
  apply (proj1 (connect_false_iff_no_match [Demo.meter] DL.init eq_refl)).
  constructor; [vm_compute; reflexivity|constructor].
Defined.

(** ** What the operations leave of a session *)

Lemma same_handle_refl i : same_handle i i.
Proof. repeat split. Qed.

Lemma same_handle_trans i j k : same_handle i j -> same_handle j k -> same_handle i k.
Proof.
  unfold same_handle. intros (Ha & Hb & Hc & Hd) (Ha' & Hb' & Hc' & Hd').
  repeat split; congruence.
Qed.

Lemma same_session_refl s : same_session s s.
Proof.
  unfold same_session. repeat split. destruct (inst s); [apply same_handle_refl|exact I].
Qed.

Lemma same_session_trans s t u : same_session s t -> same_session t u -> same_session s u.
Proof.
  unfold same_session. intros (Ha & Hb & Hc & Hd) (Ha' & Hb' & Hc' & Hd').
  split; [congruence|]. split; [congruence|]. split; [congruence|].
  destruct (inst s), (inst t), (inst u); try tauto. eapply same_handle_trans; eauto.
Qed.

Lemma steady_ret {A} (a : A) : steady (ret a).
Proof. intros s r s' [= _ <-]. apply same_session_refl. Qed.

Lemma steady_get : steady get.
Proof. intros s r s' [= _ <-]. apply same_session_refl. Qed.

Lemma steady_of_outcome {A} (o : outcome A) : steady (of_outcome o).
Proof. intros s r s' [= _ <-]. apply same_session_refl. Qed.

Lemma steady_bind {A B} (m : M YokogawaDL7480 A) (k : A -> M YokogawaDL7480 B) :
  steady m -> (forall a, steady (k a)) -> steady (bind m k).
Proof.
  intros Hm Hk s r s' H. unfold bind in H.
  destruct (m s) as [[a|e] s1] eqn:E.
  - eapply same_session_trans; [eapply Hm; exact E|eapply Hk; exact H].
  - injection H as _ <-. eapply Hm; exact E.
Qed.

Lemma steady_try_except {A} (body : M YokogawaDL7480 A) handler :
  steady body -> (forall e h, handler e = Some h -> steady h) ->
  steady (try_except body handler).
Proof.
  intros Hb Hh s r s' H. unfold try_except in H.
  destruct (body s) as [[a|e] s1] eqn:E.
  - injection H as _ <-. eapply Hb; exact E.
  - destruct (handler e) as [h|] eqn:Eh.
    + eapply same_session_trans; [eapply Hb; exact E|eapply Hh; eauto].
    + injection H as _ <-. eapply Hb; exact E.
Qed.

Lemma steady_with_inst {A} (m : M Inst A) : calm m -> steady (with_inst m).
Proof.
  intros Hm s r s' H. unfold with_inst in H. unfold same_session.
  destruct (inst s) as [i|] eqn:Hi.
  - destruct (m i) as [r1 i'] eqn:E. injection H as _ <-. cbn. rewrite ?Hi.
    split; [reflexivity|]. split; [reflexivity|]. split; [reflexivity|].
    eapply Hm; exact E.
  - injection H as _ <-. rewrite ?Hi. auto.
Qed.

Lemma steady_getopt arg : steady (getopt arg).
Proof.
  unfold getopt. apply steady_bind; [apply steady_get|].
  intros self. destruct (inst self); apply steady_ret.
Qed.

Lemma calm_write msg : calm (write msg).
Proof.
  intros i r i' H. unfold write in H.
  destruct (wscript i) as [|[] w]; injection H as _ <-; repeat split.
Qed.

Lemma calm_read_reply msg : calm (read_reply msg).
Proof.
  intros i r i' H. unfold read_reply in H.
  destruct (reply i msg); injection H as _ <-; repeat split.
Qed.

Lemma calm_bind {A B} (m : M Inst A) (k : A -> M Inst B) :
  calm m -> (forall a, calm (k a)) -> calm (bind m k).
Proof.
  intros Hm Hk i r i' H. unfold bind in H.
  destruct (m i) as [[a|e] i1] eqn:E.
  - eapply same_handle_trans; [eapply Hm; exact E|eapply Hk; exact H].
  - injection H as _ <-. eapply Hm; exact E.
Qed.

Lemma calm_query msg : calm (query msg).
Proof.
  unfold query. apply calm_bind; [apply calm_write|]. intros _. apply calm_read_reply.
Qed.

Lemma calm_read_bytes n : calm (read_bytes n).
Proof.
  intros i r i' H. unfold read_bytes in H.
  destruct (n <=? 0); [injection H as _ <-; repeat split|].
  destruct (_ <=? _)%nat; injection H as _ <-; repeat split.
Qed.

Lemma calm_set_timeout v : calm (modify (set_timeout v)).
Proof. intros i r i' [= _ <-]. repeat split. Qed.

Lemma calm_get_timeout : calm (i <- get ;; ret (timeout i)).
Proof. intros i r i' [= _ <-]. repeat split. Qed.

Lemma steady_wai_line cmd : steady (wai_line cmd).
Proof.
  unfold wai_line. apply steady_bind; [apply steady_with_inst, calm_query|].
  intros a. apply steady_ret.
Qed.

Ltac steady_step :=
  first [ apply steady_ret | apply steady_get | apply steady_of_outcome
        | apply steady_getopt | apply steady_wai_line
        | apply steady_with_inst;
          first [ apply calm_write | apply calm_query | apply calm_read_bytes
                | apply calm_set_timeout | apply calm_get_timeout ]
        | apply steady_bind; [|intros ?]
        | match goal with |- steady (if ?b then _ else _) => destruct b end
        | match goal with |- steady (match ?x with inl _ => _ | inr _ => _ end) => destruct x end ].

Lemma steady_read_out : steady read_out.
Proof. unfold read_out. repeat steady_step. Qed.

Lemma steady_read_header : steady read_header.
Proof.
  unfold read_header. apply steady_try_except.
  - repeat steady_step.
  - intros e h He. destruct e; try discriminate; injection He as <-; repeat steady_step.
Qed.

Lemma steady_read_payload n : steady (read_payload n).
Proof.
  unfold read_payload. apply steady_try_except.
  - repeat steady_step.
  - intros e h He. destruct e; try discriminate. injection He as <-. apply steady_ret.
Qed.

(** After the first step of a computation the rest of which is
    steady, the session is as that step left it. *)
Lemma steady_after {A B} (m : M YokogawaDL7480 A) (k : A -> M YokogawaDL7480 B) s r s' :
  (forall a, steady (k a)) -> bind m k s = (r, s') -> same_session (snd (m s)) s'.
Proof.
  intros Hk H. unfold bind in H. destruct (m s) as [[a|e] s1]; cbn [snd].
  - eapply Hk; exact H.
  - injection H as _ <-. apply same_session_refl.
Qed.

Lemma capture_after_connect bus s :
  same_session (snd (connect bus s)) (snd (capture bus s)).
Proof.
  destruct (capture bus s) as [r s'] eqn:H. cbn [snd]. unfold capture in H.
  apply steady_after in H; [exact H|].
  intros c. destruct c; cbn [negb]; [|apply steady_ret].
  repeat first [ apply steady_read_header | apply steady_read_payload | steady_step ].
Qed.

Lemma no_device_state bus s : snd (no_device bus s) = snd (connect bus s).
Proof.
  destruct (inst s) as [i|] eqn:Hi.
  - rewrite (no_device_some bus s i Hi), (connect_some bus s i Hi). reflexivity.
  - unfold no_device, bind, get, ret. rewrite Hi.
    destruct (connect bus s) as [[c|e] s1]; cbn [snd]; [|reflexivity].
    destruct (inst s1) eqn:E1; cbn [snd]; rewrite ?E1; reflexivity.
Qed.

Lemma getconfig_after_connect bus s :
  same_session (snd (connect bus s)) (snd (getconfig bus s)).
Proof.
  destruct (getconfig bus s) as [r s'] eqn:H. cbn [snd]. unfold getconfig in H.
  apply steady_after in H.
  - now rewrite no_device_state in H.
  - intros []; [apply steady_ret|apply steady_read_out].
Qed.

Lemma setconfig_after_connect bus arg s :
  same_session (snd (connect bus s)) (snd (setconfig bus arg s)).
Proof.
  destruct (setconfig bus arg s) as [r s'] eqn:H. cbn [snd]. unfold setconfig in H.
  apply steady_after in H.
  - now rewrite no_device_state in H.
  - intros []; [apply steady_ret|].
    apply steady_bind; [steady_step|]. intros t0.
    apply steady_bind; [steady_step|]. intros _.
    apply steady_try_except; [repeat steady_step|].
    intros e h He. destruct e; try discriminate. injection He as <-. repeat steady_step.
Qed.

(** On a session that holds a handle, [connect], [getopt], [capture],
    [getconfig] and [setconfig] leave the session bound as it was,
    whatever they return or raise: the same instrument behind the
    handle, neither closed nor replaced, the same family, options and
    resource manager. *)
Theorem bound_session_stays_bound bus arg s :
  inst s <> None ->
  same_session s (snd (connect bus s))
  /\ same_session s (snd (getopt arg s))
  /\ same_session s (snd (capture bus s))
  /\ same_session s (snd (getconfig bus s))
  /\ same_session s (snd (setconfig bus arg s)).
Proof.
  intros Hs. destruct (inst s) as [i|] eqn:Hi; [clear Hs|congruence].
  assert (Hc : snd (connect bus s) = s) by now rewrite (connect_some bus s i Hi).
  split; [rewrite Hc; apply same_session_refl|].
  split; [destruct (getopt arg s) eqn:E; eapply steady_getopt; exact E|].
  split; [rewrite <- Hc at 1; apply capture_after_connect|].
  split; [rewrite <- Hc at 1; apply getconfig_after_connect|].
  rewrite <- Hc at 1. apply setconfig_after_connect.
Qed.

(** Witness: a capture on a connected session whose instrument sends
    nothing. *)
Lemma bound_session_stays_bound_witness :
  same_session (Demo.connected (Demo.dl7480 []))
    (snd (capture [] (Demo.connected (Demo.dl7480 [])))).
Proof.
  apply (bound_session_stays_bound [] [] (Demo.connected (Demo.dl7480 []))).
  discriminate.
Defined.

Lemma same_session_well_bound s s' : same_session s s' -> well_bound s -> well_bound s'.
Proof.
  unfold same_session, well_bound. intros (Hd & _ & Hr & Hi) Hw Hs'.
  rewrite Hd, Hr. apply Hw. destruct (inst s), (inst s'); try tauto. discriminate.
Qed.

Lemma connect_well_bound bus s : well_bound s -> well_bound (snd (connect bus s)).
Proof.
  intros Hw. destruct (inst s) as [i|] eqn:Hi.
  - now rewrite (connect_some bus s i Hi).
  - destruct (connect bus s) as [r s'] eqn:Ec. cbn [snd].
    apply connect_post in Ec as [Hrm [(_ & Hn & _)|(i & idn & _ & _ & _ & _ & Hd & _)]];
      [| |exact Hi].
    + intros H. congruence.
    + intros _. split; [|exact Hrm]. rewrite Hd. unfold family.
      destruct (re_match pat_DL7440 idn); auto.
Qed.

Lemma closeinst_unbinds s : inst (snd (closeinst s)) = None.
Proof. now destruct s as [[r0|] [i|] dn op]. Qed.

Lemma del_unbinds s : inst (snd (del s)) = None.
Proof. now destruct s as [[r0|] [i|] dn op]. Qed.

Lemma run_well_bound s o : well_bound s -> well_bound (run s o).
Proof.
  intros Hw. destruct o as [bus|arg|bus|bus|bus arg| |]; cbn [run].
  - now apply connect_well_bound.
  - eapply same_session_well_bound; [|exact Hw].
    destruct (getopt arg s) eqn:E. eapply steady_getopt; exact E.
  - eapply same_session_well_bound; [apply capture_after_connect|].
    now apply connect_well_bound.
  - eapply same_session_well_bound; [apply getconfig_after_connect|].
    now apply connect_well_bound.
  - eapply same_session_well_bound; [apply setconfig_after_connect|].
    now apply connect_well_bound.
  - intros H. now rewrite closeinst_unbinds in H.
  - intros H. now rewrite del_unbinds in H.
Qed.

(** Whatever public operations are called on a session after its
    construction, in whatever order and whatever they return or raise,
    a session that holds a handle has one of the two families recorded
    and holds a resource manager. *)
Theorem handle_implies_family ops :
  well_bound (fold_left run ops DL.init).
Proof.
  assert (H : forall s, well_bound s -> well_bound (fold_left run ops s)).
  { induction ops as [|o ops IH]; intros s Hs; [exact Hs|].
    cbn [fold_left]. apply IH. now apply run_well_bound. }
  apply H. intros Hne. now destruct Hne.
Qed.

(** ** The read-out of the configuration *)

Lemma set_inst_same s i : inst s = Some i -> set_inst (Some i) s = s.
Proof. destruct s. cbn. now intros ->. Qed.

Lemma asks_ret {A} name (a : A) : asks name (ret a) [].
Proof.
  intros s i _ Hi Ha _. exists a, i. rewrite (set_inst_same s i Hi), app_nil_r. repeat split; auto.
Qed.

Lemma asks_bind {A B} name (m : M YokogawaDL7480 A) (k : A -> M YokogawaDL7480 B) qs1 qs2 :
  asks name m qs1 -> (forall a, asks name (k a) qs2) -> asks name (bind m k) (qs1 ++ qs2).
Proof.
  intros Hm Hk s i Hn Hi Ha Hq. apply Forall_app in Hq as [Hq1 Hq2].
  destruct (Hm s i Hn Hi Ha Hq1) as (a & i1 & E & Hs & Ht & Ha1 & Hr & Hx).
  destruct (Hk a (set_inst (Some i1) s) i1 Hn eq_refl Ha1) as (b & i2 & E2 & Hs2 & Ht2 & Ha2 & Hr2 & Hx2).
  { now rewrite Hr. }
  exists b, i2. unfold bind. rewrite E, E2, set_inst_twice.
  split; [reflexivity|]. split; [rewrite Hs2, Hs, Ht, map_app, app_assoc; reflexivity|].
  split; [congruence|]. split; [exact Ha2|]. split; congruence.
Qed.

Lemma asks_get_bind {B} name (k : YokogawaDL7480 -> M YokogawaDL7480 B) qs :
  (forall self, devname self = name -> inst self <> None -> asks name (k self) qs) ->
  asks name (bind get k) qs.
Proof.
  intros Hk s i Hn Hi Ha Hq. unfold bind, get.
  apply (Hk s); auto. congruence.
Qed.

Lemma asks_query name q : asks name (with_inst (query q)) [q].
Proof.
  intros s i _ Hi Ha Hq. inversion Hq as [|? ? Hr _]; subst.
  destruct (reply i q) as [o|] eqn:Er; [clear Hr|congruence].
  destruct (write_accepted q i Ha) as (n & i1 & Hw & Ha1 & Hx1).
  exists o, i1. unfold with_inst. rewrite Hi. unfold query, bind. rewrite Hw.
  assert (Hi1 : reply i1 = reply i /\ sent i1 = sent i ++ [(timeout i, q)]
                /\ timeout i1 = timeout i).
  { unfold write in Hw. destruct (wscript i) as [|[] w]; injection Hw as _ <-; auto. }
  destruct Hi1 as (Hr1 & Hs1 & Ht1).
  unfold read_reply. rewrite Hr1, Er. repeat split; auto.
Qed.

Lemma asks_wai_line name cmd : asks name (wai_line cmd) [lit cmd].
Proof.
  unfold wai_line. change [lit cmd] with ([lit cmd] ++ []).
  apply asks_bind; [apply asks_query|]. intros a. apply asks_ret.
Qed.

Lemma asks_getopt name arg : asks name (getopt arg) [].
Proof.
  intros s i _ Hi Ha _. unfold getopt, bind, get. rewrite Hi.
  eexists _, i. rewrite (set_inst_same s i Hi), app_nil_r. unfold ret. repeat split; auto.
Qed.

Lemma asks_nil_bind {A B} name (m : M YokogawaDL7480 A) (k : A -> M YokogawaDL7480 B) qs :
  asks name m [] -> (forall a, asks name (k a) qs) -> asks name (bind m k) qs.
Proof. intros Hm Hk. change qs with ([] ++ qs). now apply asks_bind. Qed.

Lemma asks_cons_bind {A B} name (m : M YokogawaDL7480 A) (k : A -> M YokogawaDL7480 B) q qs :
  asks name m [q] -> (forall a, asks name (k a) qs) -> asks name (bind m k) (q :: qs).
Proof. intros Hm Hk. change (q :: qs) with ([q] ++ qs). now apply asks_bind. Qed.

Ltac asks_step :=
  first [ apply asks_ret
        | apply asks_cons_bind; [first [apply asks_wai_line | apply asks_query]|intros ?]
        | apply asks_nil_bind; [apply asks_getopt|intros ?] ].

Lemma read_out_asks name : asks name read_out (queries name).
Proof.
  unfold read_out, queries.
  do 5 asks_step. apply asks_get_bind. intros self Hn _. rewrite Hn.
  destruct (bool_decide (name = lit "DL7480")).
  - eapply (asks_bind name _ _ (map lit [":CHANnel5?"; ":CHANnel6?"; ":CHANnel7?"; ":CHANnel8?"]%string)).
    + cbn [map]. do 4 asks_step. 
      match goal with |- asks _ (ret ?a) _ => apply asks_ret end.
    + intros chan. cbn [map]. repeat asks_step.
  - apply asks_nil_bind; [apply asks_ret|]. intros chan. cbn [map app]. repeat asks_step.
Qed.

Lemma transport_only_ret {A} (a : A) : transport_only (ret a).
Proof. intros s r s' Hs [= <- <-]. split; [exact Hs|discriminate]. Qed.

Lemma transport_only_get : transport_only get.
Proof. intros s r s' Hs [= <- <-]. split; [exact Hs|discriminate]. Qed.

Lemma transport_only_bind {A B} (m : M YokogawaDL7480 A) (k : A -> M YokogawaDL7480 B) :
  transport_only m -> (forall a, transport_only (k a)) -> transport_only (bind m k).
Proof.
  intros Hm Hk s r s' Hs H. unfold bind in H.
  destruct (m s) as [[a|e] s1] eqn:E; destruct (Hm _ _ _ Hs E) as [H1 H2].
  - eapply Hk; eauto.
  - injection H as <- <-. split; [exact H1|].
    intros e0 [= <-]. now apply H2.
Qed.

Lemma transport_only_query q : transport_only (with_inst (query q)).
Proof.
  intros s r s' Hs H. unfold with_inst in H.
  destruct (inst s) as [i|]; [|congruence].
  destruct (query q i) as [r1 i1] eqn:E. injection H as <- <-.
  split; [discriminate|]. apply query_post in E as (_ & _ & He). exact He.
Qed.

Lemma transport_only_wai_line cmd : transport_only (wai_line cmd).
Proof.
  unfold wai_line. apply transport_only_bind; [apply transport_only_query|].
  intros a. apply transport_only_ret.
Qed.

Lemma transport_only_getopt arg : transport_only (getopt arg).
Proof.
  unfold getopt. apply transport_only_bind; [apply transport_only_get|].
  intros self. destruct (inst self); apply transport_only_ret.
Qed.

Ltac transport_step :=
  first [ apply transport_only_ret | apply transport_only_get
        | apply transport_only_query | apply transport_only_wai_line
        | apply transport_only_getopt
        | apply transport_only_bind; [|intros ?]
        | match goal with |- transport_only (if ?b then _ else _) => destruct b end ].

Lemma read_out_transport_only : transport_only read_out.
Proof. unfold read_out. repeat transport_step. Qed.

Lemma returns_ret {A} (P : A -> Prop) a : P a -> returns P (ret a).
Proof. intros H s a' s' [= <- _]. exact H. Qed.

Lemma returns_bind {A B} (P : B -> Prop) (m : M YokogawaDL7480 A) k :
  (forall a, returns P (k a)) -> returns P (bind m k).
Proof.
  intros Hk s b s' H. unfold bind in H.
  destruct (m s) as [[a|e] s1]; [eapply Hk; exact H|discriminate].
Qed.

(** The snapshot opens with the line that stops the acquisition. *)
Lemma read_out_returns :
  returns (fun r => exists rest, r = (true, lit ":STOP;" ++ [nl] ++ rest)) read_out.
Proof.
  unfold read_out.
  repeat (apply returns_bind; intros ?).
  apply returns_ret. eexists. reflexivity.
Qed.

Lemma getconfig_bound_result bus s r s' :
  inst s <> None -> getconfig bus s = (r, s') ->
  inst s' <> None
  /\ ((exists rest, r = Val (true, lit ":STOP;" ++ [nl] ++ rest)) \/ r = Exc VisaIOError).
Proof.
  intros Hs H. destruct (inst s) as [i|] eqn:Hi; [|congruence].
  unfold getconfig in H.
  rewrite (bind_val _ _ _ _ _ (no_device_some bus s i Hi)) in H. cbv iota in H.
  destruct (read_out_transport_only s r s') as [H1 H2]; [congruence|exact H|].
  split; [exact H1|]. destruct r as [a|e].
  - left. destruct (read_out_returns _ _ _ H) as [rest ->]. eauto.
  - right. f_equal. now apply H2.
Qed.

Lemma no_device_unbound bus s :
  inst s = None ->
  no_device bus s
  = (match fst (connect bus s) with
     | Val _ => Val (match inst (snd (connect bus s)) with Some _ => false | None => true end)
     | Exc e => Exc e
     end, snd (connect bus s)).
Proof.
  intros Hi. unfold no_device, bind, get, ret. rewrite Hi.
  destruct (connect bus s) as [[c|e] s1]; cbn [fst snd]; [|reflexivity].
  destruct (inst s1) eqn:E1; cbn [snd]; rewrite ?E1; reflexivity.
Qed.

(** How [getconfig] ends. With no oscilloscope to be found it returns
    [(False, '')] and the session holds no handle. Otherwise the session
    holds a handle and either the snapshot is returned with [True], and
    it opens with the line [:STOP;], or the transport's exception
    leaves the method: a query that is not answered is not caught. *)
Theorem getconfig_outcome bus s r s' :
  getconfig bus s = (r, s') ->
  (r = Val (false, []) /\ inst s' = None)
  \/ ((exists rest, r = Val (true, lit ":STOP;" ++ [nl] ++ rest)) /\ inst s' <> None)
  \/ (r = Exc VisaIOError /\ inst s' <> None).
Proof.
  intros H. destruct (inst s) as [i|] eqn:Hi.
  - apply getconfig_bound_result in H as [H1 [H2|H2]]; [auto|auto|congruence].
  - unfold getconfig in H. unfold bind at 1 in H.
    rewrite (no_device_unbound bus s Hi) in H.
    destruct (connect bus s) as [rc s1] eqn:Ec. cbn [fst snd] in H.
    destruct rc as [c|e].
    + apply connect_answer in Ec.
      destruct (inst s1) as [i1|] eqn:Hi1.
      * assert (Hb : inst s1 <> None) by congruence.
        destruct (read_out_transport_only s1 r s' Hb H) as [H1 H2].
        right. destruct r as [a|e]; [left|right]; split; auto.
        -- destruct (read_out_returns _ _ _ H) as [rest ->]. eauto.
        -- f_equal. now apply H2.
      * injection H as <- <-. left. auto.
    + injection H as <- <-. right. right.
      apply connect_post in Ec as [_ [(Hf & _)|(i & idn & H1 & _ & _ & _ & _ & H6)]];
        [discriminate| |exact Hi].
      destruct H6 as (_ & _ & _ & _ & _ & _ & [[Hf _]|[Hf _]]); [discriminate|].
      split; congruence.
Qed.

(** Witness: only a meter is attached. *)
Lemma getconfig_outcome_witness :
  (fst (getconfig [Demo.meter] DL.init) = Val (false, [])
   /\ inst (snd (getconfig [Demo.meter] DL.init)) = None)
  \/ ((exists rest, fst (getconfig [Demo.meter] DL.init)
                    = Val (true, lit ":STOP;" ++ [nl] ++ rest))
      /\ inst (snd (getconfig [Demo.meter] DL.init)) <> None)
  \/ (fst (getconfig [Demo.meter] DL.init) = Exc VisaIOError
      /\ inst (snd (getconfig [Demo.meter] DL.init)) <> None).
Proof.
  apply (getconfig_outcome [Demo.meter] DL.init). apply surjective_pairing.
Defined.

(** On a session whose instrument accepts every write and answers the
    queries of the read-out, [getconfig] returns [True] with the
    snapshot after sending exactly those queries, in their order and
    each once - the channels 5 to 8 only when the family is DL7480 -
    under the timeout in force; it changes neither the timeout nor the
    bytes queued for reading. *)
Theorem getconfig_asks_in_order bus s i :
  inst s = Some i -> accepting i ->
  Forall (fun q => reply i q <> None) (queries (devname s)) ->
  exists lrn i',
    getconfig bus s = (Val (true, lrn), set_inst (Some i') s)
    /\ sent i' = sent i ++ map (pair (timeout i)) (queries (devname s))
    /\ timeout i' = timeout i /\ accepting i' /\ rx i' = rx i.
Proof.
  intros Hi Ha Hq.
  destruct (read_out_asks (devname s) s i eq_refl Hi Ha Hq)
    as ([b lrn] & i' & E & Hs & Ht & Ha' & _ & Hx).
  unfold getconfig. rewrite (bind_val _ _ _ _ _ (no_device_some bus s i Hi)). cbv iota.
  assert (b = true) as ->.
  { destruct (read_out_returns _ _ _ E) as [rest Hr]. congruence. }
  exists lrn, i'. auto.
Qed.

(** Witness: a DL7480 that answers every query. *)
Lemma getconfig_asks_in_order_witness :
  exists lrn i',
    getconfig [] (Demo.connected (Demo.dl7480 []))
    = (Val (true, lrn), set_inst (Some i') (Demo.connected (Demo.dl7480 [])))
    /\ sent i' = sent (Demo.dl7480 [])
                 ++ map (pair (timeout (Demo.dl7480 [])))
                      (queries (devname (Demo.connected (Demo.dl7480 []))))
    /\ timeout i' = timeout (Demo.dl7480 []) /\ accepting i' /\ rx i' = rx (Demo.dl7480 []).
Proof.
  apply (getconfig_asks_in_order [] (Demo.connected (Demo.dl7480 [])) (Demo.dl7480 [])).
  - reflexivity.
  - constructor.
  - repeat constructor; discriminate.
Defined.

(** With no oscilloscope to be found, each of the three operations
    that connect on demand gives its failure answer and leaves the
    session as the failed [connect] left it: nothing is written. *)
Theorem no_scope_answers bus arg s s' :
  connect bus s = (Val false, s') ->
  getconfig bus s = (Val (false, []), s')
  /\ setconfig bus arg s = (Val false, s')
  /\ capture bus s = (Val (false, Message (lit "Oscilloscope not found")), s').
Proof.
  intros Hc. pose proof (connect_answer _ _ _ _ Hc) as Hb.
  assert (Hs' : inst s' = None).
  { destruct (inst s'); [|reflexivity]. destruct Hb as [_ Hb]. discriminate Hb. discriminate. }
  assert (Hs : inst s = None).
  { destruct (inst s) as [i|] eqn:Hi; [|reflexivity].
    rewrite (connect_some bus s i Hi) in Hc. discriminate. }
  assert (Hn : no_device bus s = (Val true, s')).
  { rewrite (no_device_unbound bus s Hs), Hc. cbn [fst snd]. now rewrite Hs'. }
  split; [|split].
  - unfold getconfig. now rewrite (bind_val _ _ _ _ _ Hn).
  - unfold setconfig. now rewrite (bind_val _ _ _ _ _ Hn).
  - unfold capture. now rewrite (bind_val _ _ _ _ _ Hc).
Qed.

(** Witness: only a meter is attached. *)
Lemma no_scope_answers_witness :
  getconfig [Demo.meter] DL.init = (Val (false, []), snd (connect [Demo.meter] DL.init))
  /\ setconfig [Demo.meter] (lit ":STOP;") DL.init
     = (Val false, snd (connect [Demo.meter] DL.init))
  /\ capture [Demo.meter] DL.init
     = (Val (false, Message (lit "Oscilloscope not found")),
        snd (connect [Demo.meter] DL.init)).
Proof.
  apply (no_scope_answers [Demo.meter] (lit ":STOP;") DL.init).
  apply fst_snd_eq. vm_compute. reflexivity.
Defined.

(** ** The image capture, for every reply *)

Lemma written_spec msg i :
  sent (written msg i) = sent i ++ [(timeout i, msg)]
  /\ timeout (written msg i) = timeout i /\ rx (written msg i) = rx i
  /\ (accepting i -> accepting (written msg i) /\ exists n, fst (write msg i) = Val n).
Proof.
  unfold written, write, accepting.
  destruct (wscript i) as [|[] w] eqn:E; cbn; rewrite ?E;
    (split; [reflexivity|]); (split; [reflexivity|]); (split; [reflexivity|]); intros H.
  - eauto.
  - inversion H. eauto.
  - inversion H. discriminate.
Qed.

Lemma bind_write {B} msg (k : Z -> M YokogawaDL7480 B) s i :
  accepting i ->
  exists n, bind (with_inst (write msg)) k (set_inst (Some i) s)
            = k n (set_inst (Some (written msg i)) s).
Proof.
  intros Ha. destruct (written_spec msg i) as (_ & _ & _ & H).
  destruct (H Ha) as [_ [n Hn]]. exists n.
  unfold bind. rewrite with_inst_bound, Hn. reflexivity.
Qed.

Lemma bind_set_timeout {B} v (k : unit -> M YokogawaDL7480 B) s i :
  bind (with_inst (modify (set_timeout v))) k (set_inst (Some i) s)
  = k tt (set_inst (Some (set_timeout v i)) s).
Proof. reflexivity. Qed.

Lemma only_rx_refl i : only_rx i i.
Proof. now destruct i. Qed.

Lemma only_rx_trans i j k : only_rx i j -> only_rx j k -> only_rx i k.
Proof. unfold only_rx. intros -> ->. reflexivity. Qed.

Lemma only_rx_keeps i i' :
  only_rx i i' ->
  sent i' = sent i /\ timeout i' = timeout i /\ wscript i' = wscript i.
Proof. unfold only_rx. intros ->. auto. Qed.

Lemma reader_ret {A} (E : exn -> Prop) (a : A) : reader E (ret a).
Proof.
  intros s i. exists (Val a), i. split; [reflexivity|]. split; [apply only_rx_refl|discriminate].
Qed.

Lemma reader_bind {A B} (E : exn -> Prop) (m : M YokogawaDL7480 A) (k : A -> M YokogawaDL7480 B) :
  reader E m -> (forall a, reader E (k a)) -> reader E (bind m k).
Proof.
  intros Hm Hk s i. destruct (Hm s i) as (r & i1 & E1 & Ho & He). unfold bind. rewrite E1.
  destruct r as [a|e].
  - destruct (Hk a s i1) as (r2 & i2 & E2 & Ho2 & He2). exists r2, i2.
    split; [exact E2|]. split; [eapply only_rx_trans; eauto|exact He2].
  - exists (Exc e), i1. split; [reflexivity|]. split; [exact Ho|].
    intros e0 [= <-]. now apply He.
Qed.

Lemma reader_read (E : exn -> Prop) n : E VisaIOError -> reader E (with_inst (read_bytes n)).
Proof.
  intros HE s i. rewrite with_inst_bound. eexists _, _. split; [reflexivity|].
  unfold read_bytes. destruct (n <=? 0); [split; [apply only_rx_refl|discriminate]|].
  destruct (_ <=? _)%nat; cbn [fst snd].
  - split; [now destruct i|discriminate].
  - split; [now destruct i|]. now intros e [= <-].
Qed.

Lemma int_of_bytes_exn b e : int_of_bytes b = Exc e -> e = ValueError.
Proof.
  unfold int_of_bytes.
  destruct (match snd (span_by b_isspace b) with [] => _ | _ :: _ => _ end) as [neg b2].
  destruct (span_by _ b2) as [ds rest]. destruct ds; [now intros [= <-]|].
  destruct (_ && _); [discriminate|now intros [= <-]].
Qed.

Lemma reader_int (E : exn -> Prop) b : E ValueError -> reader E (of_outcome (int_of_bytes b)).
Proof.
  intros HE s i. exists (int_of_bytes b), i. split; [reflexivity|].
  split; [apply only_rx_refl|]. intros e He. apply int_of_bytes_exn in He as ->. exact HE.
Qed.

Ltac reader_step :=
  first [ apply reader_ret
        | apply reader_read; auto
        | apply reader_int; auto
        | apply reader_bind; [|intros ?]
        | match goal with |- reader _ (if ?b then _ else _) => destruct b end ].

(** How the reading of the header ends: with the length, nothing
    written; or with the failure answer after a [*CLS]. *)
Lemma read_header_ends s i :
  accepting i ->
  exists h i' j,
    read_header (set_inst (Some i) s) = (Val h, set_inst (Some i') s)
    /\ only_rx i j
    /\ ((exists n, h = inr n /\ i' = j)
        \/ (h = inl (false, Message (lit "response from oscilloscope is unexpected. Aborted."))
            /\ i' = written (lit "*CLS") j)).
Proof.
  intros Ha. unfold read_header, try_except.
  match goal with
  | |- context [match ?body _ with _ => _ end] =>
      assert (Hb : reader (fun e => e = VisaIOError \/ e = ValueError) body)
        by (repeat reader_step)
  end.
  destruct (Hb s i) as (r & j & E & Ho & He). rewrite E.
  destruct r as [h|e].
  - exists h, j, j. split; [reflexivity|]. split; [exact Ho|]. left.
    revert E. clear. intros E.
    assert (Hr : returns (fun h : bool * capture_msg + Z => exists n, h = inr n)
                   (shash <- with_inst (read_bytes 1) ;;
                    shash <- (if negb (py_eq (PyBytes shash) (PyBytes ["#"%byte]))
                              then with_inst (read_bytes 1) else ret shash) ;;
                    sdigit <- with_inst (read_bytes 1) ;;
                    count <- of_outcome (int_of_bytes sdigit) ;;
                    sbyte <- with_inst (read_bytes count) ;;
                    ndigit <- of_outcome (int_of_bytes sdigit) ;;
                    nbyte <- of_outcome (int_of_bytes sbyte) ;;
                    ret (inr nbyte))).
    { repeat (apply returns_bind; intros ?). apply returns_ret. eauto. }
    destruct (Hr _ _ _ E) as [n ->]. eauto.
  - assert (Haj : accepting j).
    { unfold accepting. apply only_rx_keeps in Ho as (_ & _ & ->). exact Ha. }
    destruct (He e eq_refl) as [-> | ->];
      (destruct (bind_write (lit "*CLS")
                   (fun _ : Z => ret (@inl (bool * capture_msg) Z
                      (false, Message (lit "response from oscilloscope is unexpected. Aborted."))))
                   s j Haj) as [n Hn];
       eexists _, _, j; split; [exact Hn|]; split; [exact Ho|]; right; auto).
Qed.

(** How the reading of the payload ends: with the data, or with the
    failure answer; nothing is written either way. *)
Lemma read_payload_ends n s i :
  exists p j,
    read_payload n (set_inst (Some i) s) = (Val p, set_inst (Some j) s)
    /\ only_rx i j
    /\ ((exists data, p = inr data)
        \/ p = inl (false, Message (lit "timeout during capturing"))).
Proof.
  unfold read_payload, try_except.
  match goal with
  | |- context [match ?body _ with _ => _ end] =>
      assert (Hb : reader (fun e => e = VisaIOError) body) by (repeat reader_step);
      assert (Hr : returns (fun p : bool * capture_msg + bytes => exists data, p = inr data) body)
  end.
  { repeat (apply returns_bind; intros ?). apply returns_ret. eauto. }
  destruct (Hb s i) as (r & j & E & Ho & He). rewrite E.
  destruct r as [p|e].
  - exists p, j. split; [reflexivity|]. split; [exact Ho|]. left. exact (Hr _ _ _ E).
  - rewrite (He e eq_refl). eexists _, j. split; [reflexivity|]. split; [exact Ho|].
    now right.
Qed.

Lemma accepting_only_rx i j : only_rx i j -> accepting i -> accepting j.
Proof. unfold accepting. intros H. apply only_rx_keeps in H as (_ & _ & ->). auto. Qed.

Lemma accepting_set_timeout v i : accepting i -> accepting (set_timeout v i).
Proof. auto. Qed.

Lemma accepting_written msg i : accepting i -> accepting (written msg i).
Proof. intros H. now apply written_spec. Qed.

(** The opening of [capture] on a session that holds a handle: the
    five commands go out, and the decoding starts on the bytes
    queued. *)
Lemma capture_opening bus s i :
  accepting i ->
  exists j,
    accepting j /\ rx j = rx i /\ timeout j = 10000
    /\ sent j = sent i ++ capture_commands (timeout i)
    /\ capture bus (set_inst (Some i) s)
       = (h <- read_header ;;
          match h with
          | inl r => ret r
          | inr nbyte =>
              p <- read_payload nbyte ;;
              match p with
              | inl r => ret r
              | inr data => with_inst (write (lit "*WAI;*CLS;")) ;; ret (true, TmpFile data)
              end
          end) (set_inst (Some j) s).
Proof.
  intros Ha. unfold capture. rewrite (bind_val _ _ _ _ _ (connect_bound bus s i)). cbn [negb].
  match goal with |- context [bind (with_inst (write ?m)) ?k (set_inst (Some i) s)] =>
    destruct (bind_write m k s i Ha) as [n1 E1] end.
  set (i1 := written (lit "*CLS;;") i) in *.
  assert (Ha1 : accepting i1) by now apply accepting_written.
  cbv beta in E1.
  match type of E1 with context [bind (with_inst (write ?m)) ?k (set_inst (Some i1) s)] =>
    destruct (bind_write m k s i1 Ha1) as [n2 E2] end.
  set (i2 := written (lit ":IMAGe:FORMat JPEG;") i1) in *.
  assert (Ha2 : accepting i2) by now apply accepting_written.
  cbv beta in E2.
  match type of E2 with context [bind (with_inst (write ?m)) ?k (set_inst (Some i2) s)] =>
    destruct (bind_write m k s i2 Ha2) as [n3 E3] end.
  set (i3 := written (lit ":IMAGe:TONE COLor;") i2) in *.
  assert (Ha3 : accepting i3) by now apply accepting_written.
  cbv beta in E3.
  match type of E3 with context [bind (with_inst (write ?m)) ?k (set_inst (Some i3) s)] =>
    destruct (bind_write m k s i3 Ha3) as [n4 E4] end.
  set (i4 := written (lit ":STOP;*WAI;") i3) in *.
  assert (Ha4 : accepting i4) by now apply accepting_written.
  cbv beta in E4. rewrite bind_set_timeout in E4.
  set (i5 := set_timeout 10000 i4) in *.
  assert (Ha5 : accepting i5) by exact Ha4.
  match type of E4 with context [bind (with_inst (write ?m)) ?k (set_inst (Some i5) s)] =>
    destruct (bind_write m k s i5 Ha5) as [n5 E5] end.
  exists (written (lit ":IMAGe:SEND?;") i5).
  split; [now apply accepting_written|].
  split.
  { subst i5 i4 i3 i2 i1.
    repeat (rewrite ?(proj1 (proj2 (proj2 (written_spec _ _)))); cbn [rx set_timeout]).
    reflexivity. }
  split; [now rewrite (proj1 (proj2 (written_spec _ _)))|].
  split.
  { subst i5 i4 i3 i2 i1. unfold capture_commands.
    repeat first [ rewrite (proj1 (written_spec _ _))
                 | rewrite (proj1 (proj2 (written_spec _ _))) ].
    cbn [sent timeout set_timeout].
    repeat first [ rewrite (proj1 (written_spec _ _))
                 | rewrite (proj1 (proj2 (written_spec _ _))) ].
    rewrite <- !app_assoc. reflexivity. }
  rewrite E1, E2, E3, E4, E5. reflexivity.
Qed.

Lemma capture_ends_bound bus s i :
  accepting i ->
  exists ok msg i',
    capture bus (set_inst (Some i) s) = (Val (ok, msg), set_inst (Some i') s)
    /\ timeout i' = 10000 /\ accepting i'
    /\ ((exists data, ok = true /\ msg = TmpFile data
           /\ sent i' = sent i ++ capture_commands (timeout i) ++ [(10000, lit "*WAI;*CLS;")])
        \/ (ok = false
            /\ msg = Message (lit "response from oscilloscope is unexpected. Aborted.")
            /\ sent i' = sent i ++ capture_commands (timeout i) ++ [(10000, lit "*CLS")])
        \/ (ok = false /\ msg = Message (lit "timeout during capturing")
            /\ sent i' = sent i ++ capture_commands (timeout i))).
Proof.
  intros Ha. destruct (capture_opening bus s i Ha) as (i6 & Ha6 & _ & Ht6 & Hs6 & ->).
  destruct (read_header_ends s i6 Ha6) as (h & i7 & j & Eh & Ho & Hh).
  unfold bind at 1. rewrite Eh.
  apply only_rx_keeps in Ho as Hk. destruct Hk as (Hsj & Htj & _).
  pose proof (accepting_only_rx _ _ Ho Ha6) as Haj.
  destruct Hh as [(n & -> & ->)|[-> ->]].
  - destruct (read_payload_ends n s j) as (p & j2 & Ep & Ho2 & Hp).
    unfold bind at 1. rewrite Ep.
    apply only_rx_keeps in Ho2 as Hk. destruct Hk as (Hsj2 & Htj2 & _).
    pose proof (accepting_only_rx _ _ Ho2 Haj) as Haj2.
    destruct Hp as [[data ->]| ->].
    + destruct (bind_write (lit "*WAI;*CLS;") (fun _ => ret (true, TmpFile data)) s j2 Haj2)
        as [n6 ->].
      eexists _, _, _. split; [reflexivity|].
      destruct (written_spec (lit "*WAI;*CLS;") j2) as (Hs & Ht & _).
      split; [congruence|]. split; [now apply accepting_written|].
      left. exists data. split; [reflexivity|]. split; [reflexivity|].
      rewrite Hs, Hsj2, Hsj, Hs6, Htj2, Htj, Ht6, <- app_assoc. reflexivity.
    + eexists _, _, j2. split; [reflexivity|]. split; [congruence|]. split; [exact Haj2|].
      right. right. split; [reflexivity|]. split; [reflexivity|]. congruence.
  - eexists _, _, _. split; [reflexivity|].
    destruct (written_spec (lit "*CLS") j) as (Hs & Ht & _).
    split; [congruence|]. split; [now apply accepting_written|].
    right. left. split; [reflexivity|]. split; [reflexivity|].
    rewrite Hs, Hsj, Hs6, Htj, Ht6, <- app_assoc. reflexivity.
Qed.

(** On a session that holds a handle whose instrument accepts every
    write, [capture] raises nothing, whatever bytes the instrument
    sends or fails to send. It sends its five commands, leaves the
    timeout at the 10000 ms it set, and ends in one of three ways: with
    [True] and the image after a last [*WAI;*CLS;]; with [False] and
    the 'unexpected' message after a [*CLS], when the header could not
    be read; with [False] and the 'timeout' message and nothing more
    written, when the payload could not. *)
Theorem capture_ends bus s i :
  inst s = Some i -> accepting i ->
  exists ok msg i',
    capture bus s = (Val (ok, msg), set_inst (Some i') s)
    /\ timeout i' = 10000 /\ accepting i'
    /\ ((exists data, ok = true /\ msg = TmpFile data
           /\ sent i' = sent i ++ capture_commands (timeout i) ++ [(10000, lit "*WAI;*CLS;")])
        \/ (ok = false
            /\ msg = Message (lit "response from oscilloscope is unexpected. Aborted.")
            /\ sent i' = sent i ++ capture_commands (timeout i) ++ [(10000, lit "*CLS")])
        \/ (ok = false /\ msg = Message (lit "timeout during capturing")
            /\ sent i' = sent i ++ capture_commands (timeout i))).
Proof.
  intros Hi Ha. destruct (capture_ends_bound bus s i Ha) as (ok & msg & i' & H).
  rewrite (set_inst_same s i Hi) in H. eauto.
Qed.

(** Witness: the instrument sends nothing. *)
Lemma capture_ends_witness :
  exists ok msg i',
    capture [] (Demo.connected (Demo.dl7480 []))
    = (Val (ok, msg), set_inst (Some i') (Demo.connected (Demo.dl7480 [])))
    /\ timeout i' = 10000.
Proof.
  destruct (capture_ends [] (Demo.connected (Demo.dl7480 [])) (Demo.dl7480 []))
    as (ok & msg & i' & H1 & H2 & _).
  - reflexivity.
  - constructor.
  - exists ok, msg, i'. auto.
Defined.

Lemma dl_read_short n s i :
  0 < n -> (length (rx i) < Z.to_nat n)%nat ->
  with_inst (read_bytes n) (set_inst (Some i) s)
  = (Exc VisaIOError, set_inst (Some (set_rx [] i)) s).
Proof.
  intros Hn Hl. rewrite with_inst_bound. unfold read_bytes.
  destruct (Z.leb_spec n 0); [lia|].
  destruct (Nat.leb_spec (Z.to_nat n) (length (rx i))); [lia|reflexivity].
Qed.

Lemma dl_read_exact n s i :
  0 < n -> (Z.to_nat n <= length (rx i))%nat ->
  with_inst (read_bytes n) (set_inst (Some i) s)
  = (Val (firstn (Z.to_nat n) (rx i)),
     set_inst (Some (set_rx (skipn (Z.to_nat n) (rx i)) i)) s).
Proof.
  intros Hn Hl. rewrite with_inst_bound. unfold read_bytes.
  destruct (Z.leb_spec n 0); [lia|].
  destruct (Nat.leb_spec (Z.to_nat n) (length (rx i))); [reflexivity|lia].
Qed.

Lemma set_rx_twice v w i : set_rx v (set_rx w i) = set_rx v i.
Proof. reflexivity. Qed.

Lemma set_rx_same i : set_rx (rx i) i = i.
Proof. now destruct i. Qed.

(** The payload read for a declared length [n]: the first [max n 1]
    bytes, provided one more byte follows them. *)
Lemma read_payload_any n s j :
  let k := Z.to_nat (Z.max n 1) in
  read_payload n (set_inst (Some j) s)
  = if (k + 1 <=? length (rx j))%nat
    then (Val (inr (firstn k (rx j))), set_inst (Some (set_rx (skipn (k + 1) (rx j)) j)) s)
    else (Val (inl (false, Message (lit "timeout during capturing"))),
          set_inst (Some (set_rx [] j)) s).
Proof.
  intros k. unfold read_payload, try_except.
  destruct (rx j) as [|b t] eqn:Hrx.
  - replace (k + 1 <=? length (@nil byte))%nat with false
      by (symmetry; apply Nat.leb_gt; simpl; lia).
    unfold bind at 1. rewrite dl_read_short by (rewrite ?Hrx; simpl; lia). reflexivity.
  - rewrite (bind_val _ _ _ [b] (set_inst (Some (set_rx t j)) s))
      by (apply dl_read_one; exact Hrx).
    change (py_eq (PyBytes [b]) (PyStr [nl])) with false. cbv iota.
    destruct (Z.leb_spec (n - 1) 0) as [Hn|Hn].
    + assert (Hk : k = 1%nat) by (subst k; lia). rewrite Hk.
      rewrite (bind_val _ _ _ [b] (set_inst (Some (set_rx t j)) s)).
      2:{ rewrite (bind_val _ _ _ (@nil byte) (set_inst (Some (set_rx t j)) s));
            [reflexivity|].
          now apply dl_read_none. }
      destruct t as [|c t'].
      * unfold bind at 1. rewrite dl_read_short by (simpl; lia). reflexivity.
      * rewrite (bind_val _ _ _ [c] (set_inst (Some (set_rx t' (set_rx (c :: t') j))) s))
          by (apply dl_read_one; reflexivity).
        reflexivity.
    + assert (Hk : k = S (Z.to_nat (n - 1))) by (subst k; lia). rewrite Hk.
      cbn [length firstn skipn Nat.add].
      destruct (Nat.leb_spec (Z.to_nat (n - 1) + 1) (length t)) as [Hl|Hl].
      * replace (S (Z.to_nat (n - 1) + 1) <=? S (length t))%nat with true
          by (symmetry; apply Nat.leb_le; lia).
        rewrite (bind_val _ _ _ (b :: firstn (Z.to_nat (n - 1)) t)
                   (set_inst (Some (set_rx (skipn (Z.to_nat (n - 1)) t) j)) s)).
        2:{ erewrite bind_val; [reflexivity|].
            rewrite dl_read_exact by (cbn [rx set_rx]; lia). reflexivity. }
        destruct (skipn (Z.to_nat (n - 1)) t) as [|c u] eqn:Hsk.
        { apply (f_equal (@length byte)) in Hsk. rewrite length_skipn in Hsk.
          simpl in Hsk. lia. }
        rewrite (bind_val _ _ _ [c] (set_inst (Some (set_rx u j)) s))
          by (apply (dl_read_one s (set_rx (c :: u) j) c u); reflexivity).
        unfold ret. f_equal. f_equal. f_equal. f_equal.
        replace (Z.to_nat (n - 1) + 1)%nat with (1 + Z.to_nat (n - 1))%nat by lia.
        rewrite <- skipn_skipn, Hsk. reflexivity.
      * replace (S (Z.to_nat (n - 1) + 1) <=? S (length t))%nat with false
          by (symmetry; apply Nat.leb_gt; lia).
        destruct (Nat.leb_spec (Z.to_nat (n - 1)) (length t)) as [Hl2|Hl2].
        -- rewrite (bind_val _ _ _ (b :: firstn (Z.to_nat (n - 1)) t)
                      (set_inst (Some (set_rx (skipn (Z.to_nat (n - 1)) t) j)) s)).
           2:{ erewrite bind_val; [reflexivity|].
               rewrite dl_read_exact by (cbn [rx set_rx]; lia). reflexivity. }
           unfold bind at 1. rewrite dl_read_short; [reflexivity|lia|].
           cbn [rx set_rx]. rewrite length_skipn. lia.
        -- unfold bind at 1. unfold bind at 1.
           rewrite dl_read_short by (cbn [rx set_rx]; lia). reflexivity.
Qed.

Lemma capture_frame bus s i dc n body :
  accepting i -> (1 <= dc <= 9)%nat -> 0 <= n < 10 ^ Z.of_nat dc ->
  let k := Z.to_nat (Z.max n 1) in
  exists j,
    capture bus (receiving s i
      ([hash; digit_byte (Z.of_nat dc)] ++ decimal_field dc n ++ body))
    = ((if (k + 1 <=? length body)%nat
        then Val (true, TmpFile (firstn k body))
        else Val (false, Message (lit "timeout during capturing"))),
       set_inst (Some j) s)
    /\ rx j = (if (k + 1 <=? length body)%nat then skipn (k + 1) body else []).
Proof.
  intros Ha Hdc Hn k. unfold receiving.
  set (frame := [hash; digit_byte (Z.of_nat dc)] ++ decimal_field dc n ++ body).
  assert (Haf : accepting (set_rx frame i)) by exact Ha.
  destruct (capture_opening bus s (set_rx frame i) Haf) as (j & Haj & Hrx & _ & _ & ->).
  cbn [rx set_rx] in Hrx.
  rewrite (bind_val _ _ _ _ _ (read_header_frame s j dc n body Hdc Hn Hrx)).
  unfold bind at 1. rewrite (read_payload_any n s (set_rx body j)). cbv zeta.
  cbn [rx set_rx]. fold k.
  destruct (k + 1 <=? length body)%nat.
  - rewrite set_rx_twice.
    assert (Haj2 : accepting (set_rx (skipn (k + 1) body) j)) by exact Haj.
    destruct (bind_write (lit "*WAI;*CLS;") (fun _ => ret (true, TmpFile (firstn k body))) s
                (set_rx (skipn (k + 1) body) j) Haj2) as [n6 ->].
    eexists. split; [reflexivity|].
    now rewrite (proj1 (proj2 (proj2 (written_spec _ _)))).
  - eexists. split; reflexivity.
Qed.

(** What [capture] makes of a reply that opens with a well-formed
    header, [#], a digit count from 1 to 9 and that many digits
    declaring the length [n], on a session whose instrument accepts the
    writes. It takes the first [max n 1] bytes after the header as the
    image, whatever they are, provided one more byte follows, which it
    reads and does not look at; the bytes after that one stay queued.
    When fewer than [max n 1 + 1] bytes follow the header it answers
    [False] with the 'timeout' message and nothing stays queued. *)
Theorem capture_decodes_frame bus s i dc n body :
  accepting i -> (1 <= dc <= 9)%nat -> 0 <= n < 10 ^ Z.of_nat dc ->
  let k := Z.to_nat (Z.max n 1) in
  let out := capture bus (receiving s i
               ([hash; digit_byte (Z.of_nat dc)] ++ decimal_field dc n ++ body)) in
  if (k + 1 <=? length body)%nat
  then fst out = Val (true, TmpFile (firstn k body))
       /\ (rx <$> inst (snd out)) = Some (skipn (k + 1) body)
  else fst out = Val (false, Message (lit "timeout during capturing"))
       /\ (rx <$> inst (snd out)) = Some [].
Proof.
  intros Ha Hdc Hn k out.
  destruct (capture_frame bus s i dc n body Ha Hdc Hn) as (j & E & Hj).
  fold k in E, Hj. subst out. rewrite E.
  destruct (k + 1 <=? length body)%nat; cbn [fst snd inst set_inst fmap option_fmap option_map];
    now rewrite Hj.
Qed.

(** Witness: a frame of three bytes followed by two more. *)
Lemma capture_decodes_frame_witness :
  fst (capture [] (receiving (Demo.connected (Demo.dl7480 [])) (Demo.dl7480 [])
         ([hash; digit_byte (Z.of_nat 2)] ++ decimal_field 2 3
            ++ Demo.ascii_bytes "abcde")))
  = Val (true, TmpFile (firstn (Z.to_nat (Z.max 3 1)) (Demo.ascii_bytes "abcde")))
  /\ (rx <$> inst (snd (capture [] (receiving (Demo.connected (Demo.dl7480 [])) (Demo.dl7480 [])
         ([hash; digit_byte (Z.of_nat 2)] ++ decimal_field 2 3
            ++ Demo.ascii_bytes "abcde")))))
     = Some (skipn (Z.to_nat (Z.max 3 1) + 1) (Demo.ascii_bytes "abcde")).
Proof.
  apply (capture_decodes_frame [] (Demo.connected (Demo.dl7480 [])) (Demo.dl7480 []) 2 3
           (Demo.ascii_bytes "abcde")).
  - constructor.
  - lia.
  - lia.
Defined.

Lemma int_of_non_digit b :
  (Byte.to_N b < 48 \/ 57 < Byte.to_N b)%N -> int_of_bytes [b] = Exc ValueError.
Proof. intros H. destruct b; cbn in H; try (exfalso; lia); reflexivity. Qed.

Lemma capture_bad_count bus s i b rest :
  accepting i -> (Byte.to_N b < 49 \/ 57 < Byte.to_N b)%N ->
  exists j,
    capture bus (receiving s i (hash :: b :: rest))
    = (Val (false, Message (lit "response from oscilloscope is unexpected. Aborted.")),
       set_inst (Some j) s)
    /\ rx j = rest
    /\ sent j = sent i ++ capture_commands (timeout i) ++ [(10000, lit "*CLS")].
Proof.
  intros Ha Hb. unfold receiving.
  assert (Haf : accepting (set_rx (hash :: b :: rest) i)) by exact Ha.
  destruct (capture_opening bus s (set_rx (hash :: b :: rest) i) Haf)
    as (j & Haj & Hrx & Ht & Hs & ->).
  cbn [rx set_rx sent timeout] in Hrx, Hs.
  assert (Hh : read_header (set_inst (Some j) s)
               = (Val (inl (false, Message (lit "response from oscilloscope is unexpected. Aborted."))),
                  set_inst (Some (written (lit "*CLS") (set_rx rest j))) s)).
  { unfold read_header, try_except.
    erewrite bind_val by (eapply dl_read_one; exact Hrx).
    change (py_eq (PyBytes [hash]) (PyBytes ["#"%byte])) with true. cbn [negb].
    erewrite (bind_val (ret [hash])) by reflexivity.
    erewrite bind_val by (eapply dl_read_one; reflexivity).
    rewrite set_rx_twice.
    assert (Har : accepting (set_rx rest j)) by exact Haj.
    destruct (bind_write (lit "*CLS")
                (fun _ : Z => ret (@inl (bool * capture_msg) Z
                   (false, Message (lit "response from oscilloscope is unexpected. Aborted."))))
                s (set_rx rest j) Har) as [n0 Hn0].
    destruct (N.eq_dec (Byte.to_N b) 48%N) as [H0|H0].
    - assert (b = "0"%byte) as -> by (destruct b; try discriminate H0; reflexivity).
      change (int_of_bytes ["0"%byte]) with (@Val Z 0).
      erewrite (bind_val (of_outcome _)) by reflexivity.
      erewrite bind_val by (apply dl_read_none; lia).
      erewrite (bind_val (of_outcome _)) by reflexivity.
      change (int_of_bytes []) with (@Exc Z ValueError).
      unfold bind at 1, of_outcome at 1. exact Hn0.
    - rewrite int_of_non_digit by lia.
      unfold bind at 1, of_outcome at 1. exact Hn0. }
  rewrite (bind_val _ _ _ _ _ Hh). cbv iota.
  eexists. split; [reflexivity|].
  destruct (written_spec (lit "*CLS") (set_rx rest j)) as (Hs' & _ & Hx & _).
  split; [now rewrite Hx|].
  rewrite Hs'. cbn [sent timeout set_rx]. rewrite Hs, Ht, <- app_assoc. reflexivity.
Qed.

(** A reply whose marker is followed by anything but a digit from 1 to
    9 is refused: [capture] answers [False] with the 'unexpected'
    message after sending [*CLS], and it reads no further, so the rest
    of the reply stays queued in the instrument. *)
Theorem capture_rejects_digit_count bus s i b rest :
  accepting i -> (Byte.to_N b < 49 \/ 57 < Byte.to_N b)%N ->
  let out := capture bus (receiving s i (hash :: b :: rest)) in
  fst out = Val (false, Message (lit "response from oscilloscope is unexpected. Aborted."))
  /\ (rx <$> inst (snd out)) = Some rest
  /\ (sent <$> inst (snd out))
     = Some (sent i ++ capture_commands (timeout i) ++ [(10000, lit "*CLS")]).
Proof.
  intros Ha Hb out. destruct (capture_bad_count bus s i b rest Ha Hb) as (j & E & Hx & Hs).
  subst out. rewrite E. cbn [fst snd inst set_inst fmap option_fmap option_map].
  now rewrite Hx, Hs.
Qed.

(** Witness: the marker followed by a zero. *)
Lemma capture_rejects_digit_count_witness :
  fst (capture [] (receiving (Demo.connected (Demo.dl7480 [])) (Demo.dl7480 [])
         (hash :: "0"%byte :: Demo.ascii_bytes "12")))
  = Val (false, Message (lit "response from oscilloscope is unexpected. Aborted."))
  /\ (rx <$> inst (snd (capture [] (receiving (Demo.connected (Demo.dl7480 []))
         (Demo.dl7480 []) (hash :: "0"%byte :: Demo.ascii_bytes "12")))))
     = Some (Demo.ascii_bytes "12").
Proof.
  destruct (capture_rejects_digit_count [] (Demo.connected (Demo.dl7480 [])) (Demo.dl7480 [])
              "0"%byte (Demo.ascii_bytes "12")) as (H1 & H2 & _).
  - constructor.
  - left. reflexivity.
  - split; [exact H1|exact H2].
Defined.

(** ** Sending the lines of a file *)


(** [send_lines] touches nothing of the window but the session. *)
Lemma send_lines_frame bus ls :
  forall g, snd (send_lines bus ls g) = set_dl7480 (dl7480 (snd (send_lines bus ls g))) g.
Proof.
  induction ls as [|l ls IH]; intros g; [now destruct g|].
  cbn [send_lines]. unfold bind, with_dl.
  destruct (setconfig bus l (dl7480 g)) as [[b|e] d1]; cbn [snd].
  - rewrite IH. now destruct g.
  - now destruct g.
Qed.






(** ** What a save answers and which files the operations reach *)




Lemma with_dl_frame {A} (m : M YokogawaDL7480 A) g :
  snd (with_dl m g) = set_dl7480 (dl7480 (snd (with_dl m g))) g.
Proof. unfold with_dl. destruct (m (dl7480 g)). now destruct g. Qed.

(** [saveconfig(n)] writes no file but the slot file and the backup
    file, whatever it returns or raises. *)
Theorem saveconfig_reaches_two_files bus n g p :
  p <> datfile (cwd g) n -> p <> bkupfile (cwd g) ->
  files (snd (saveconfig bus n g)) !! p = files g !! p.
Proof.
  intros Hd Hb. unfold saveconfig.
  unfold with_dl, changeCursor, setStatus, getStatus, notify, exists_file, write_file,
    copy_file, updateBtnUndoSave, modify, bind, get, ret. cbn.
  destruct (connect bus (dl7480 g)) as [[[|]|e] d1]; cbn; decide_closed_goal;
    [|reflexivity|reflexivity].
  destruct (getconfig bus d1) as [[[stat lrn]|e] d2]; cbn; [|reflexivity].
  destruct (bool_decide (lrn = [])); cbn; [reflexivity|].
  destruct (files g !! datfile (cwd g) n) as [c|] eqn:Ef; cbn; rewrite ?Ef; cbn.
  - rewrite lookup_insert_ne by congruence. rewrite lookup_insert_ne by congruence. reflexivity.
  - rewrite lookup_insert_ne by congruence. reflexivity.
Qed.

(** Witness: slot 5 is out of reach of a save to slot 3. *)
Lemma saveconfig_reaches_two_files_witness :
  files (snd (saveconfig [] 3 (Demo.window (Demo.dl7480 []) (-1) {[Demo.slot 5 := lit "five"]})))
    !! Demo.slot 5
  = files (Demo.window (Demo.dl7480 []) (-1) {[Demo.slot 5 := lit "five"]}) !! Demo.slot 5.
Proof.
  apply (saveconfig_reaches_two_files [] 3
           (Demo.window (Demo.dl7480 []) (-1) {[Demo.slot 5 := lit "five"]}) (Demo.slot 5)).
  - vm_compute. discriminate.
  - apply datfile_neq_bkupfile.
Defined.

(** [loadconfig(n)] writes no file but the backup file, whatever it
    returns or raises: every slot file is as it was. *)
Theorem loadconfig_reaches_backup_only bus n g p :
  p <> bkupfile (cwd g) ->
  files (snd (loadconfig bus n g)) !! p = files g !! p.
Proof.
  intros Hb. unfold loadconfig.
  unfold with_dl, with_inst, changeCursor, setStatus, getStatus, notify, write_file,
    updateBtnUndoLoad, modify, bind, get, ret. cbn.
  destruct (connect bus (dl7480 g)) as [[[|]|e] d1]; cbn; decide_closed_goal;
    [|reflexivity|reflexivity].
  destruct (inst d1) as [i1|]; cbn; [|reflexivity].
  destruct (getconfig bus _) as [[[stat lrn]|e] d4]; cbn; [|reflexivity].
  destruct stat; cbn; [|reflexivity].
  destruct (_ !! datfile (cwd g) n) as [text|]; cbn.
  - match goal with |- context [send_lines bus ?ls ?g0] =>
      pose proof (send_lines_frame bus ls g0) as Hf;
      destruct (send_lines bus ls g0) as [[[]|e] g1]
    end; cbn in Hf |- *; rewrite Hf; cbn.
    + destruct (inst (dl7480 g1)); cbn; now rewrite lookup_insert_ne by congruence.
    + now rewrite lookup_insert_ne by congruence.
  - destruct (inst d4); cbn; now rewrite lookup_insert_ne by congruence.
Qed.

(** Witness: slot 2 is loaded and stays as it was. *)
Lemma loadconfig_reaches_backup_only_witness :
  files (snd (loadconfig [] 2 (Demo.window (Demo.dl7480 []) (-1) {[Demo.slot 2 := lit ":X 1;"]})))
    !! Demo.slot 2
  = files (Demo.window (Demo.dl7480 []) (-1) {[Demo.slot 2 := lit ":X 1;"]}) !! Demo.slot 2.
Proof.
  apply (loadconfig_reaches_backup_only [] 2
           (Demo.window (Demo.dl7480 []) (-1) {[Demo.slot 2 := lit ":X 1;"]}) (Demo.slot 2)).
  apply datfile_neq_bkupfile.
Defined.

(** ** The small operations *)



(** [closeinst] raises nothing and leaves the session with neither
    handle nor resource manager; a second call changes nothing, and
    every option is then reported as absent. *)
Theorem closeinst_releases s :
  fst (closeinst s) = Val tt
  /\ inst (snd (closeinst s)) = None
  /\ rm (snd (closeinst s)) = None
  /\ closeinst (snd (closeinst s)) = (Val tt, snd (closeinst s))
  /\ forall arg, getopt arg (snd (closeinst s)) = (Val false, snd (closeinst s)).
Proof. destruct s as [[r0|] [i|] dn op]; cbn; auto. Qed.



Lemma startswith_nil s : startswith [] s = true.
Proof. now destruct s. Qed.




(** ** The chunker, continued *)

(** The loop of [splitInst] splits nothing off a text that does not
    begin with a colon: whatever its length, such an input comes back
    as one chunk. In [getconfig] this is the case of the replies to
    [:SEARch?] and [:ZOOM?], which are given to [splitInst] behind a
    [*WAI;], and of a reply that lost its leading colon to
    [strip(':')]. *)
Theorem splitInst_needs_leading_colon arg :
  (forall t, trimmed arg <> ":"%char :: t) ->
  chunks arg = [wrap (trimmed arg)] /\ splitInst arg = wrap (trimmed arg).
Proof.
  intros Hno. unfold chunks, splitInst.
  destruct (length arg <? 1024 - 6)%nat eqn:E; [split; reflexivity|].
  destruct (split_r_spec arg) as (gs & y' & H1 & H2 & H3 & _).
  destruct gs as [|g gs].
  - cbn in H1, H2. rewrite H1, H2. cbn. now rewrite app_nil_r.
  - inversion H3 as [|? ? Hg _]; subst. destruct (unit_shape_starts _ Hg) as [t ->].
    exfalso. apply (Hno (t ++ concat gs ++ y')). rewrite H2. cbn. now rewrite <- app_assoc.
Qed.

(** Witness: 1100 characters behind a [*WAI;]. *)
Lemma splitInst_needs_leading_colon_witness :
  splitInst (lit "*WAI;" ++ Demo.long_section) = wrap (trimmed (lit "*WAI;" ++ Demo.long_section)).
Proof.
  apply (splitInst_needs_leading_colon (lit "*WAI;" ++ Demo.long_section)).
  intros t H. vm_compute in H. discriminate.
Defined.

Lemma dots_then_cut_complete n :
  forall body rest,
    (length body <= n)%nat -> forallb dot body = true ->
    dots_then_cut n (body ++ ";"%char :: ":"%char :: rest) <> None.
Proof.
  induction n as [|n IH]; intros body rest Hl Hd.
  - destruct body; [|simpl in Hl; lia]. discriminate.
  - destruct body as [|c body].
    + cbn [app dots_then_cut].
      destruct (dot ";"); [|discriminate].
      destruct (dots_then_cut n (":"%char :: rest)); discriminate.
    + cbn [app dots_then_cut]. cbn [forallb] in Hd. apply andb_prop in Hd as [Hc Hd].
      rewrite Hc. specialize (IH body rest). simpl in Hl.
      destruct (dots_then_cut n (body ++ ";"%char :: ":"%char :: rest)); [discriminate|].
      exfalso. apply IH; [lia|exact Hd|reflexivity].
Qed.

(** The first section of a text and what follows it. *)
Lemma sections_head y :
  y <> [] ->
  exists u us,
    sections y = u :: us /\ y = u ++ concat us
    /\ (us <> [] -> exists a rest, u = a ++ [";"%char] /\ concat us = ":"%char :: rest).
Proof.
  induction y as [|c t IH]; [now intros []|]. intros _.
  rewrite sections_cons. destruct t as [|d t'].
  - exists [c], []. cbn. split; [reflexivity|]. split; [reflexivity|]. now intros [].
  - destruct IH as (u & us & Hs & Hy & Hb); [discriminate|]. rewrite Hs.
    destruct (Ascii.eqb c ";" && startswith (lit ":") (d :: t')) eqn:E.
    + apply andb_prop in E as [Ec Ed]. apply Ascii.eqb_eq in Ec. subst c.
      exists [";"%char], (u :: us). split; [reflexivity|]. split; [cbn; now rewrite <- Hy|].
      intros _. exists [], t'. split; [reflexivity|]. cbn [concat]. rewrite <- Hy.
      cbn in Ed. rewrite andb_true_r in Ed. apply Ascii.eqb_eq in Ed. now subst d.
    + exists (c :: u), us. split; [reflexivity|]. split; [cbn; now rewrite <- Hy|].
      intros Hne. destruct (Hb Hne) as (a & rest & -> & Hr). exists (c :: a), rest. auto.
Qed.

(** When the trimmed input begins with a colon and none of its
    sections is longer than 1020 characters or holds a newline, every
    chunk [splitInst] emits is at most 1026 characters long. *)
Theorem splitInst_chunks_bounded arg :
  (exists t, trimmed arg = ":"%char :: t) ->
  Forall (fun sec => (length sec <= 1020)%nat /\ forallb dot sec = true)
         (sections (trimmed arg)) ->
  Forall (fun c => (length c <= 1026)%nat) (chunks arg).
Proof.
  intros [t0 Ht0] Hsec. unfold chunks, splitInst.
  destruct (length arg <? 1024 - 6)%nat eqn:E.
  - constructor; [|constructor]. apply Nat.ltb_lt in E.
    pose proof (strip_by_length (in_chars [";"%char; nl]) arg) as Hlen.
    unfold strip_chars. rewrite !length_app. cbn [length lit list_ascii_of_string]. lia.
  - destruct (split_r_spec arg) as (gs & y' & Hc & Hcat & Hshape & Hhead & Hnone).
    rewrite Hc, map_app. apply Forall_app. split.
    + clear - Hshape.
      induction Hshape as [|g gs (body & -> & Hlen & _) _ IH]; constructor; auto.
      unfold wrap. cbn. rewrite !length_app. cbn. lia.
    + constructor; [|constructor].
      assert (Hy : (length y' <= 1020)%nat); [|unfold wrap; rewrite !length_app; cbn; lia].
      rewrite Hcat, sections_pieces in Hsec by assumption.
      apply Forall_app in Hsec as [_ Hsec].
      destruct y' as [|c y0]; [cbn; lia|].
      destruct (sections_head (c :: y0)) as (u & us & Hs & Hy & Hb); [discriminate|].
      rewrite Hs in Hsec. inversion Hsec as [|? ? [Hul Hud] _]; subst.
      destruct us as [|u2 us].
      { cbn in Hy. rewrite app_nil_r in Hy. now rewrite Hy. }
      exfalso.
      destruct Hb as (a & rest & -> & Hr); [discriminate|].
      assert (Hstart : exists t, c :: y0 = ":"%char :: t).
      { destruct gs as [|g gs']; [|apply Hhead; discriminate].
        cbn in Hcat. rewrite <- Hcat. eauto. }
      destruct Hstart as [t Ht]. rewrite Hy, Hr in Ht.
      destruct a as [|a0 body]; [cbn in Ht; discriminate|].
      cbn in Ht. injection Ht as -> Ht.
      rewrite Hy, Hr in Hnone.
      replace (";"%char :: (((":"%char :: body) ++ [";"%char]) ++ ":"%char :: rest) ++ [";"%char])
        with (";"%char :: ":"%char :: body ++ ";"%char :: ":"%char :: (rest ++ [";"%char]))
        in Hnone by (cbn; rewrite <- !app_assoc; reflexivity).
      unfold search_unit in Hnone.
      change (Ascii.eqb ";" ";" && Ascii.eqb ":" ":") with true in Hnone. cbv iota in Hnone.
      revert Hnone. apply dots_then_cut_complete.
      * rewrite length_app in Hul. cbn in Hul. lia.
      * cbn [app forallb] in Hud. apply andb_prop in Hud as [_ Hud].
        rewrite forallb_app in Hud. now apply andb_prop in Hud as [Hud _].
Qed.

(** Witness: an input of two sections. *)
Lemma splitInst_chunks_bounded_witness :
  Forall (fun c => (length c <= 1026)%nat) (chunks (lit ":A:B 1;C 2;:D:E 3;")).
Proof.
  apply (splitInst_chunks_bounded (lit ":A:B 1;C 2;:D:E 3;")).
  - eexists. vm_compute. reflexivity.
  - let v := eval vm_compute in (sections (trimmed (lit ":A:B 1;C 2;:D:E 3;"))) in
    change (sections (trimmed (lit ":A:B 1;C 2;:D:E 3;"))) with v.
    repeat (apply List.Forall_cons; [split; [simpl; lia|reflexivity]|]).
    apply List.Forall_nil.
Defined.

(** ** The filters of the read-out *)

Lemma match_atoms_literal P :
  forall s, match_atoms (map Lit P) s
            = if startswith P s then Some (skipn (length P) s) else None.
Proof.
  induction P as [|a P IH]; intros s; [now destruct s|].
  destruct s as [|c s]; [reflexivity|].
  cbn [map match_atoms atom_ok startswith length skipn].
  destruct (Ascii.eqb a c); [apply IH|reflexivity].
Qed.

Lemma sub_from_skip p r :
  forall t k, sub_from p r k t = sub_from p r 0 (skipn k t).
Proof.
  induction t as [|c t IH]; intros k; [now destruct k|].
  destruct k as [|k]; [reflexivity|]. cbn [sub_from skipn]. apply IH.
Qed.

(** A match is replaced and the scan goes on behind it. *)
Lemma re_sub_hit p r s n :
  match_len p s = Some (S n) -> re_sub p r s = r ++ re_sub p r (skipn (S n) s).
Proof.
  unfold re_sub. intros H.
  destruct s as [|c t]; [unfold match_len in H; destruct p; discriminate|].
  cbn [sub_from]. rewrite H. cbn [Nat.pred skipn]. now rewrite sub_from_skip.
Qed.

(** A character at which no match begins is copied. *)
Lemma re_sub_miss p r c t :
  match_len p (c :: t) = None -> re_sub p r (c :: t) = c :: re_sub p r t.
Proof. unfold re_sub. intros H. cbn [sub_from]. now rewrite H. Qed.

Lemma match_len_literal_miss P s :
  startswith P s = false -> match_len (map Lit P) s = None.
Proof. intros H. unfold match_len. now rewrite match_atoms_literal, H. Qed.



Lemma lazy_close_body b d t :
  in_chars [":"%char; nl] d = true ->
  forallb (fun c => negb (Ascii.eqb c ";") && dot c) b = true ->
  lazy_close (b ++ ";"%char :: d :: t) = Some (length b + 2)%nat.
Proof.
  intros Hd. induction b as [|c b IH]; intros Hb.
  - cbn [app lazy_close length Nat.add]. rewrite Hd.
    change (Ascii.eqb ";" ";") with true. reflexivity.
  - cbn [forallb] in Hb. apply andb_prop in Hb as [Hc Hb]. apply andb_prop in Hc as [Hc1 Hc2].
    cbn [app lazy_close]. apply negb_true_iff in Hc1. rewrite Hc1, Hc2. cbn [andb].
    now rewrite IH.
Qed.

(** The match of a section: the literal head, one character or more
    up to the first semicolon that a colon or a newline follows, and
    that colon or newline with it. *)
Lemma match_len_section P c1 b d t :
  dot c1 = true -> in_chars [":"%char; nl] d = true ->
  forallb (fun c => negb (Ascii.eqb c ";") && dot c) b = true ->
  match_len (map Lit P) (P ++ c1 :: b ++ ";"%char :: d :: t)
  = Some (S (length P + length b + 2)).
Proof.
  intros Hc Hd Hb. unfold match_len. rewrite match_atoms_literal.
  assert (Hs : forall u, startswith P (P ++ u) = true).
  { intros u. induction P as [|a P IH]; [now destruct u|].
    cbn. rewrite IH. now rewrite Ascii.eqb_refl. }
  rewrite Hs, drop_app_length, Hc, lazy_close_body by assumption.
  cbn [option_map]. rewrite length_map. f_equal. lia.
Qed.

Lemma re_sub_copy p r u :
  forall v,
    (forall k, (k < length u)%nat -> match_len p (skipn k u ++ v) = None) ->
    re_sub p r (u ++ v) = u ++ re_sub p r v.
Proof.
  induction u as [|c u IH]; intros v H; [reflexivity|].
  cbn [app]. rewrite re_sub_miss by (apply (H 0%nat); simpl; lia).
  f_equal. apply IH. intros k Hk. apply (H (S k)). simpl. lia.
Qed.

(** The filter of the display reply and two sections in a row. A
    match takes the colon or newline after its semicolon with it, and
    the scan goes on behind that character: a second section that
    begins at that colon has lost it to the match and is not seen, so
    the filter takes the first of the two out and leaves the second
    whole. *)
Theorem display_filter_keeps_second_section c1 b1 b2 u :
  dot c1 = true ->
  forallb (fun c => negb (Ascii.eqb c ";") && dot c) b1 = true ->
  forallb (fun c => negb (Ascii.eqb c ":")) b2 = true ->
  let P := lit ":DISPLAY:RGB:WAVEFORM:POD" in
  re_sub (lits ":DISPLAY:RGB:WAVEFORM:POD") (lit ":")
    (P ++ c1 :: b1 ++ lit ";" ++ P ++ b2 ++ u)
  = P ++ b2 ++ re_sub (lits ":DISPLAY:RGB:WAVEFORM:POD") (lit ":") u.
Proof.
  intros Hc Hb1 Hb2 P. unfold lits. fold P.
  assert (HP : P = ":"%char :: lit "DISPLAY:RGB:WAVEFORM:POD") by reflexivity.
  replace (P ++ c1 :: b1 ++ lit ";" ++ P ++ b2 ++ u)
    with (P ++ c1 :: b1 ++ ";"%char :: ":"%char :: (lit "DISPLAY:RGB:WAVEFORM:POD" ++ b2 ++ u))
    by (rewrite HP; reflexivity).
  rewrite (re_sub_hit _ _ _ _ (match_len_section P c1 b1 ":" _ Hc eq_refl Hb1)).
  replace (skipn (S (length P + length b1 + 2)) _)
    with (lit "DISPLAY:RGB:WAVEFORM:POD" ++ b2 ++ u).
  2:{ symmetry.
      replace (P ++ c1 :: b1 ++ ";"%char :: ":"%char :: lit "DISPLAY:RGB:WAVEFORM:POD" ++ b2 ++ u)
        with ((P ++ c1 :: b1 ++ [";"%char; ":"%char]) ++ lit "DISPLAY:RGB:WAVEFORM:POD" ++ b2 ++ u)
        by (rewrite <- !app_assoc; cbn; rewrite <- !app_assoc; reflexivity).
      apply drop_app_length'. rewrite !length_app. cbn [length]. rewrite length_app. cbn. lia. }
  change (P ++ b2 ++ re_sub (map Lit P) (lit ":") u)
    with (lit ":" ++ lit "DISPLAY:RGB:WAVEFORM:POD" ++ b2 ++ re_sub (map Lit P) (lit ":") u).
  f_equal. rewrite app_assoc.
  rewrite re_sub_copy; [now rewrite <- app_assoc|].
  intros k Hk. apply match_len_literal_miss.
  rewrite length_app in Hk.
  destruct (Nat.lt_ge_cases k (length (lit "DISPLAY:RGB:WAVEFORM:POD"))) as [Hlt|Hge].
  - rewrite drop_app_le by lia. rewrite <- app_assoc.
    clear - Hlt. cbn [length lit list_ascii_of_string] in Hlt.
    do 24 (destruct k as [|k]; [reflexivity|]). lia.
  - rewrite drop_app_ge by exact Hge.
    remember (k - length (lit "DISPLAY:RGB:WAVEFORM:POD"))%nat as m.
    assert (Hm : (m < length b2)%nat) by lia. clear - Hm Hb2.
    revert m Hm. induction b2 as [|c b2 IH]; intros m Hm; [simpl in Hm; lia|].
    cbn [forallb] in Hb2. apply andb_prop in Hb2 as [Hc Hb2]. destruct m as [|m].
    + cbn [skipn app]. subst P. cbn [lit list_ascii_of_string startswith].
      apply negb_true_iff in Hc. rewrite Ascii.eqb_sym. now rewrite Hc.
    + cbn [skipn]. apply IH; [exact Hb2|]. simpl in Hm. lia.
Qed.

(** Witness: the pods A and B one after the other. *)
Lemma display_filter_keeps_second_section_witness :
  re_sub (lits ":DISPLAY:RGB:WAVEFORM:POD") (lit ":")
    (lit ":DISPLAY:RGB:WAVEFORM:POD" ++ "A"%char :: lit " 1" ++ lit ";"
       ++ lit ":DISPLAY:RGB:WAVEFORM:POD" ++ lit "B 2" ++ lit ";:DISPLAY:FORMAT SINGLE")
  = lit ":DISPLAY:RGB:WAVEFORM:POD" ++ lit "B 2"
      ++ re_sub (lits ":DISPLAY:RGB:WAVEFORM:POD") (lit ":") (lit ";:DISPLAY:FORMAT SINGLE").
Proof.
  apply (display_filter_keeps_second_section "A"%char (lit " 1") (lit "B 2")
           (lit ";:DISPLAY:FORMAT SINGLE")); reflexivity.
Defined.
